(** * MemFile: the paged memory file of src/nvim/memfile.c

    A shallow embedding of the block lifecycle ([mf_new], [mf_get], [mf_put],
    [mf_free]), the number translation ([mf_trans_add], [mf_trans_del]) and
    the swap-file engine ([mf_read], [mf_write], [mf_sync]) of memfile.c,
    followed by the properties of the specification that concern them.

    Block headers are heap objects that the C code shares by pointer (the
    block index, the free list and the caller all hold [bhdr_T *]), so the
    model keeps a heap of headers and passes pointers around. *)

From Stdlib Require Import ZArith Lia String.
From stdpp Require Import base option list gmap.

Local Open Scope Z_scope.

(** ** Machine integers *)

Module Int.

Definition UINT_MAX : Z := 2 ^ 32 - 1.
Definition INT64_MAX : Z := 2 ^ 63 - 1.
Definition INT64_MIN : Z := - 2 ^ 63.

(** [unsigned]: arithmetic modulo 2^32. *)
Definition uint (z : Z) : Z := z mod 2 ^ 32.

(** [int64_t] (the type of [blocknr_T]): two's complement wrap-around. *)
Definition int64 (z : Z) : Z := (z + 2 ^ 63) mod 2 ^ 64 - 2 ^ 63.

Definition is_uint (z : Z) : Prop := 0 <= z <= UINT_MAX.
Definition is_int64 (z : Z) : Prop := INT64_MIN <= z <= INT64_MAX.

End Int.
Export Int.

(** ** Constants of the headers

    memfile_defs.h, memfile.h and vim.h are not among the sources; the
    values below are the ones memfile.c is compiled against. *)

(** Modelled from the spec: the flag set [{LOCKED, DIRTY}] of a block header,
    two distinct bits of [bh_flags] (memfile_defs.h is missing). *)
Definition BH_DIRTY : Z := 1.
Definition BH_LOCKED : Z := 2.

(** Modelled from the spec: the flags [{ALL, STOP, FLUSH, ZERO}] of [sync],
    four distinct bits (memfile.h is missing). *)
Definition MFS_ALL : Z := 1.
Definition MFS_STOP : Z := 2.
Definition MFS_FLUSH : Z := 4.
Definition MFS_ZERO : Z := 8.

(** Modelled from the spec: the tri-state [dirty] of a MemFile,
    [{CLEAN, DIRTY, DIRTY_NO_SYNC}] (the enum of memfile_defs.h is missing). *)
Inductive mfdirty_T := MF_DIRTY_NO | MF_DIRTY_YES | MF_DIRTY_YES_NOSYNC.

#[global] Instance mfdirty_eq_dec : EqDecision mfdirty_T.
Proof. solve_decision. Defined.

(** Modelled from the spec: the status code that "every error path returns"
    (OK and FAIL of vim.h, which is missing). *)
Inductive status := OK | FAIL.

#[global] Instance status_eq_dec : EqDecision status.
Proof. solve_decision. Defined.

Definition MEMFILE_PAGE_SIZE : Z := 4096.

Definition e_block_was_not_locked : string := "E293: Block was not locked".
Definition e_seek_read : string := "E294: Seek error in swap file read".
Definition e_read : string := "E295: Read error in swap file".
Definition e_seek_write : string := "E296: Seek error in swap file write".
Definition e_write : string := "E297: Write error in swap file".
Definition e_swap_exists : string :=
  "E300: Swap file already exists (symlink attack?)".

(** The flags of open(2) that memfile.c tests, as Linux numbers them. *)
Definition O_RDWR : Z := 2.
Definition O_CREAT : Z := 64.
Definition O_EXCL : Z := 128.
Definition O_TRUNC : Z := 512.

(** The test [(x & mask) != 0] of C. *)
Definition has_flag (x mask : Z) : bool := negb (Z.land x mask =? 0).

(** [x & ~mask] on [unsigned]. *)
Definition clear_flag (x mask : Z) : Z := Z.land x (uint (Z.lnot mask)).

(** ** Data model *)

(** A pointer to a block header; [NULL] is [None] of [option ptr]. *)
Abbreviation ptr := positive.

(** [bhdr_T].  [bh_data] is the byte region the header owns.  The source
    also threads the free list through [bh_data]; the model keeps that chain
    as the list [mf_free_first] and leaves a freed region empty. *)
Record bhdr_T := Bhdr {
  bh_bnum : Z;
  bh_data : list Z;
  bh_page_count : Z;
  bh_flags : Z
}.

(** [memfile_T], without the two file names. *)
Record memfile_T := MemFile {
  mf_fd : Z;
  mf_free_first : list ptr;
  mf_hash : list (Z * ptr);
  mf_trans : gmap Z Z;
  mf_blocknr_max : Z;
  mf_blocknr_min : Z;
  mf_neg_count : Z;
  mf_infile_count : Z;
  mf_page_size : Z;
  mf_dirty : mfdirty_T
}.

(** The memory file under consideration together with what the code reaches
    from it: the heap of block headers, the swap file behind [mf_fd], two
    globals, the messages given so far and the operating system's answers
    to the calls still to come. *)
Record state := State {
  mfp : memfile_T;
  heap : gmap ptr bhdr_T;
  swap_bytes : gmap Z Z;          (* the bytes written to the file, by offset *)
  swap_pos : Z;                   (* the file position *)
  swap_writes : list (Z * list Z);  (* the writes issued, newest first *)
  did_swapwrite_msg : bool;
  got_int : bool;
  msgs : list string;             (* emsg, iemsg, PERROR; newest first *)
  os_replies : list Z;            (* 0: the call succeeds *)
  uninit : nat -> Z               (* the contents of fresh memory *)
}.

(** Field updates. *)
Definition set_mfp (f : memfile_T -> memfile_T) (s : state) : state :=
  State (f (mfp s)) (heap s) (swap_bytes s) (swap_pos s) (swap_writes s)
        (did_swapwrite_msg s) (got_int s) (msgs s) (os_replies s) (uninit s).

Definition set_heap (f : gmap ptr bhdr_T -> gmap ptr bhdr_T) (s : state) : state :=
  State (mfp s) (f (heap s)) (swap_bytes s) (swap_pos s) (swap_writes s)
        (did_swapwrite_msg s) (got_int s) (msgs s) (os_replies s) (uninit s).

Definition set_did_swapwrite_msg (b : bool) (s : state) : state :=
  State (mfp s) (heap s) (swap_bytes s) (swap_pos s) (swap_writes s)
        b (got_int s) (msgs s) (os_replies s) (uninit s).

Definition set_got_int (b : bool) (s : state) : state :=
  State (mfp s) (heap s) (swap_bytes s) (swap_pos s) (swap_writes s)
        (did_swapwrite_msg s) b (msgs s) (os_replies s) (uninit s).

Definition emsg (m : string) (s : state) : state :=
  State (mfp s) (heap s) (swap_bytes s) (swap_pos s) (swap_writes s)
        (did_swapwrite_msg s) (got_int s) (m :: msgs s) (os_replies s) (uninit s).

Definition with_fd (v : Z) (m : memfile_T) : memfile_T :=
  MemFile v (mf_free_first m) (mf_hash m) (mf_trans m) (mf_blocknr_max m)
          (mf_blocknr_min m) (mf_neg_count m) (mf_infile_count m)
          (mf_page_size m) (mf_dirty m).

Definition with_free_first (v : list ptr) (m : memfile_T) : memfile_T :=
  MemFile (mf_fd m) v (mf_hash m) (mf_trans m) (mf_blocknr_max m)
          (mf_blocknr_min m) (mf_neg_count m) (mf_infile_count m)
          (mf_page_size m) (mf_dirty m).

Definition with_hash (v : list (Z * ptr)) (m : memfile_T) : memfile_T :=
  MemFile (mf_fd m) (mf_free_first m) v (mf_trans m) (mf_blocknr_max m)
          (mf_blocknr_min m) (mf_neg_count m) (mf_infile_count m)
          (mf_page_size m) (mf_dirty m).

Definition with_trans (v : gmap Z Z) (m : memfile_T) : memfile_T :=
  MemFile (mf_fd m) (mf_free_first m) (mf_hash m) v (mf_blocknr_max m)
          (mf_blocknr_min m) (mf_neg_count m) (mf_infile_count m)
          (mf_page_size m) (mf_dirty m).

Definition with_blocknr_max (v : Z) (m : memfile_T) : memfile_T :=
  MemFile (mf_fd m) (mf_free_first m) (mf_hash m) (mf_trans m) v
          (mf_blocknr_min m) (mf_neg_count m) (mf_infile_count m)
          (mf_page_size m) (mf_dirty m).

Definition with_blocknr_min (v : Z) (m : memfile_T) : memfile_T :=
  MemFile (mf_fd m) (mf_free_first m) (mf_hash m) (mf_trans m)
          (mf_blocknr_max m) v (mf_neg_count m) (mf_infile_count m)
          (mf_page_size m) (mf_dirty m).

Definition with_neg_count (v : Z) (m : memfile_T) : memfile_T :=
  MemFile (mf_fd m) (mf_free_first m) (mf_hash m) (mf_trans m)
          (mf_blocknr_max m) (mf_blocknr_min m) v (mf_infile_count m)
          (mf_page_size m) (mf_dirty m).

Definition with_infile_count (v : Z) (m : memfile_T) : memfile_T :=
  MemFile (mf_fd m) (mf_free_first m) (mf_hash m) (mf_trans m)
          (mf_blocknr_max m) (mf_blocknr_min m) (mf_neg_count m) v
          (mf_page_size m) (mf_dirty m).

Definition with_page_size (v : Z) (m : memfile_T) : memfile_T :=
  MemFile (mf_fd m) (mf_free_first m) (mf_hash m) (mf_trans m)
          (mf_blocknr_max m) (mf_blocknr_min m) (mf_neg_count m)
          (mf_infile_count m) v (mf_dirty m).

Definition with_dirty (v : mfdirty_T) (m : memfile_T) : memfile_T :=
  MemFile (mf_fd m) (mf_free_first m) (mf_hash m) (mf_trans m)
          (mf_blocknr_max m) (mf_blocknr_min m) (mf_neg_count m)
          (mf_infile_count m) (mf_page_size m) v.

Definition with_bnum (v : Z) (h : bhdr_T) : bhdr_T :=
  Bhdr v (bh_data h) (bh_page_count h) (bh_flags h).
Definition with_data (v : list Z) (h : bhdr_T) : bhdr_T :=
  Bhdr (bh_bnum h) v (bh_page_count h) (bh_flags h).
Definition with_page_count (v : Z) (h : bhdr_T) : bhdr_T :=
  Bhdr (bh_bnum h) (bh_data h) v (bh_flags h).
Definition with_flags (v : Z) (h : bhdr_T) : bhdr_T :=
  Bhdr (bh_bnum h) (bh_data h) (bh_page_count h) v.

(** ** The block index and the translation table

    Modelled from the spec: [PMap(int64_t)] and its operations (map.h is
    missing).  The block index is a "mapping from block number to live
    in-memory block header" that is iterated "in index-native order": an
    association list with at most one entry per key in use; [pmap_put]
    overwrites the entry of a key that is present and adds a new entry at the
    end otherwise; [pmap_del] takes the entries of the key out. *)

Definition pmap_get (k : Z) (m : list (Z * ptr)) : option ptr :=
  snd <$> List.find (fun e => fst e =? k) m.

Fixpoint pmap_put (k : Z) (v : ptr) (m : list (Z * ptr)) : list (Z * ptr) :=
  match m with
  | [] => [(k, v)]
  | e :: m' => if fst e =? k then (k, v) :: m' else e :: pmap_put k v m'
  end.

Definition pmap_del (k : Z) (m : list (Z * ptr)) : list (Z * ptr) :=
  List.filter (fun e => negb (fst e =? k)) m.

(** [Map(int64_t, int64_t)], the translation table, is never iterated: a
    finite map. [map_ref] is the lookup, [map_put] the insertion and
    [map_del] the deletion of [gmap]. *)

(** ** The operating system

    Every call into the operating system takes the next answer of
    [os_replies]; when the list is used up the call succeeds. *)

Definition os_next (s : state) : Z * state :=
  (hd 0 (os_replies s),
   State (mfp s) (heap s) (swap_bytes s) (swap_pos s) (swap_writes s)
         (did_swapwrite_msg s) (got_int s) (msgs s) (tl (os_replies s))
         (uninit s)).

(** [vim_lseek(fd, offset, SEEK_SET)]: the new position, or -1. *)
Definition vim_lseek (offset : Z) (s : state) : Z * state :=
  let '(r, s) := os_next s in
  if (r =? 0) && (0 <=? offset) then
    (offset,
     State (mfp s) (heap s) (swap_bytes s) offset (swap_writes s)
           (did_swapwrite_msg s) (got_int s) (msgs s) (os_replies s) (uninit s))
  else (-1, s).

(** The file after [data] has been stored from offset [off] on. *)
Fixpoint store_bytes (off : Z) (data : list Z) (f : gmap Z Z) : gmap Z Z :=
  match data with
  | [] => f
  | b :: data' => store_bytes (off + 1) data' (<[off := b]> f)
  end.

(** [write_eintr(fd, data, size)]: the number of bytes written.  The answer
    of the operating system is the number of bytes it does not take. *)
Definition write_eintr (data : list Z) (size : Z) (s : state) : Z * state :=
  let '(r, s) := os_next s in
  let n := Z.max 0 (size - Z.abs r) in
  let written := take (Z.to_nat n) data in
  (n,
   State (mfp s) (heap s) (store_bytes (swap_pos s) written (swap_bytes s))
         (swap_pos s + n) ((swap_pos s, written) :: swap_writes s)
         (did_swapwrite_msg s) (got_int s) (msgs s) (os_replies s) (uninit s)).

(** The bytes of the file from offset [off] on, up to the first one that was
    never written. *)
Fixpoint load_bytes (n : nat) (off : Z) (f : gmap Z Z) : list Z :=
  match n with
  | O => []
  | S n' => match f !! off with
            | Some b => b :: load_bytes n' (off + 1) f
            | None => []
            end
  end.

(** [read_eintr(fd, buf, size)]: the number of bytes read and the buffer. *)
Definition read_eintr (buf : list Z) (size : Z) (s : state)
  : Z * list Z * state :=
  let '(r, s) := os_next s in
  if r =? 0 then
    let got := load_bytes (Z.to_nat size) (swap_pos s) (swap_bytes s) in
    let n := Z.of_nat (length got) in
    (n, got ++ drop (length got) buf,
     State (mfp s) (heap s) (swap_bytes s) (swap_pos s + n) (swap_writes s)
           (did_swapwrite_msg s) (got_int s) (msgs s) (os_replies s) (uninit s))
  else (-1, buf, s).

(** [os_char_avail()]. *)
Definition os_char_avail (s : state) : bool * state :=
  let '(r, s) := os_next s in (negb (r =? 0), s).

(** [os_breakcheck()]: sets [got_int] when the user has interrupted. *)
Definition os_breakcheck (s : state) : state :=
  let '(r, s) := os_next s in
  if r =? 0 then s else set_got_int true s.

(** [os_fsync(fd)]: zero on success. *)
Definition os_fsync (s : state) : Z * state := os_next s.

(** ** Memory *)

(** What a header that is not allocated reads as (the C code would read
    through a dangling pointer). *)
Definition junk_hdr : bhdr_T := Bhdr 0 [] 0 0.

(** [*hp]. *)
Definition hdr (s : state) (hp : ptr) : bhdr_T := default junk_hdr (heap s !! hp).

(** An assignment to fields of [*hp]. *)
Definition upd_hdr (hp : ptr) (f : bhdr_T -> bhdr_T) (s : state) : state :=
  set_heap (alter f hp) s.

(** [xmalloc(n)]: [n] bytes of fresh memory, not initialised. *)
Definition xmalloc (n : Z) (s : state) : list Z :=
  List.map (uninit s) (seq 0 (Z.to_nat n)).

(** [memset(p, c, n)]. *)
Definition memset (p : list Z) (c : Z) (n : Z) : list Z :=
  replicate (Nat.min (Z.to_nat n) (length p)) c ++ drop (Z.to_nat n) p.

(** Allocate a block header and a block of memory for it.  The header is a
    fresh heap object whose [bh_bnum] and [bh_flags] are not initialised. *)
Definition mf_alloc_bhdr (page_count : Z) (s : state) : ptr * state :=
  let hp := fresh (dom (heap s)) in
  let h := Bhdr (int64 (uninit s 0%nat))
                (xmalloc (mf_page_size (mfp s) * page_count) s)
                page_count
                (uint (uninit s 1%nat)) in
  (hp, set_heap (insert hp h) s).

(** Free a block header and its block memory. *)
Definition mf_free_bhdr (hp : ptr) (s : state) : state :=
  set_heap (delete hp) s.

(** Insert a block in the free list. *)
Definition mf_ins_free (hp : ptr) (s : state) : state :=
  set_mfp (fun m => with_free_first (hp :: mf_free_first m) m) s.

(** Remove the first block in the free list and return it.  The caller must
    check that the free list is not empty. *)
Definition mf_rem_free (s : state) : option ptr * state :=
  (head (mf_free_first (mfp s)),
   set_mfp (fun m => with_free_first (tail (mf_free_first m)) m) s).

(** ** Number translation *)

(** Make block number positive and add it to the translation list. *)
Definition mf_trans_add (hp : ptr) (s : state) : status * state :=
  if 0 <=? bh_bnum (hdr s hp) then (OK, s)       (* it's already positive *)
  else
    let page_count := bh_page_count (hdr s hp) in
    let from_max :=
      (mf_blocknr_max (mfp s),
       set_mfp (fun m => with_blocknr_max
                           (int64 (mf_blocknr_max m + page_count)) m) s) in
    let '(new_bnum, s) :=
      match head (mf_free_first (mfp s)) with
      | Some freep =>
          if page_count <=? bh_page_count (hdr s freep) then
            let new_bnum := bh_bnum (hdr s freep) in
            if page_count <? bh_page_count (hdr s freep) then
              let s := upd_hdr freep
                         (fun h => with_bnum (int64 (bh_bnum h + page_count)) h) s in
              let s := upd_hdr freep
                         (fun h => with_page_count
                                     (uint (bh_page_count h - page_count)) h) s in
              (new_bnum, s)
            else
              let '(freep, s) := mf_rem_free s in
              (new_bnum, match freep with
                         | Some freep => set_heap (delete freep) s   (* xfree *)
                         | None => s
                         end)
          else from_max
      | None => from_max
      end in
    let old_bnum := bh_bnum (hdr s hp) in            (* adjust number *)
    let s := set_mfp (fun m => with_hash (pmap_del (bh_bnum (hdr s hp)) (mf_hash m)) m) s in
    let s := upd_hdr hp (with_bnum new_bnum) s in
    let s := set_mfp (fun m => with_hash (pmap_put new_bnum hp (mf_hash m)) m) s in
    let s := set_mfp (fun m => with_trans (<[old_bnum := new_bnum]> (mf_trans m)) m) s in
    (OK, s).

(** Lookup translation from trans list and delete the entry. *)
Definition mf_trans_del (old_nr : Z) (s : state) : Z * state :=
  match mf_trans (mfp s) !! old_nr with
  | None => (old_nr, s)                              (* not found *)
  | Some new_bnum =>
      let s := set_mfp (fun m => with_neg_count (int64 (mf_neg_count m - 1)) m) s in
      (* remove entry from the trans list *)
      let s := set_mfp (fun m => with_trans (delete old_nr (mf_trans m)) m) s in
      (new_bnum, s)
  end.

(** ** The block lifecycle *)

(** Get a new block. *)
Definition mf_new (negative : bool) (page_count : Z) (s : state) : ptr * state :=
  let new_number :=
    let '(hp, s) := mf_alloc_bhdr page_count s in
    if negative then
      let s := upd_hdr hp (with_bnum (mf_blocknr_min (mfp s))) s in
      let s := set_mfp (fun m => with_blocknr_min (int64 (mf_blocknr_min m - 1)) m) s in
      let s := set_mfp (fun m => with_neg_count (int64 (mf_neg_count m + 1)) m) s in
      (hp, s)
    else
      let s := upd_hdr hp (with_bnum (mf_blocknr_max (mfp s))) s in
      let s := set_mfp (fun m => with_blocknr_max
                                   (int64 (mf_blocknr_max m + page_count)) m) s in
      (hp, s) in
  let '(hp, s) :=
    match head (mf_free_first (mfp s)) with
    | Some freep =>
        if negb negative && (page_count <=? bh_page_count (hdr s freep)) then
          if page_count <? bh_page_count (hdr s freep) then
            (* take only the number of pages needed *)
            let '(hp, s) := mf_alloc_bhdr page_count s in
            let s := upd_hdr hp (with_bnum (bh_bnum (hdr s freep))) s in
            let s := upd_hdr freep
                       (fun h => with_bnum (int64 (bh_bnum h + page_count)) h) s in
            let s := upd_hdr freep
                       (fun h => with_page_count
                                   (uint (bh_page_count h - page_count)) h) s in
            (hp, s)
          else
            (* use the bhdr_T from the free list and allocate the data *)
            let p := xmalloc (mf_page_size (mfp s) * page_count) s in
            let '(hp, s) := mf_rem_free s in
            let hp := default freep hp in
            (hp, upd_hdr hp (with_data p) s)
        else new_number
    | None => new_number
    end in
  let s := upd_hdr hp (with_flags (Z.lor BH_LOCKED BH_DIRTY)) s in
  let s := set_mfp (with_dirty MF_DIRTY_YES) s in
  let s := upd_hdr hp (with_page_count page_count) s in
  let s := set_mfp (fun m => with_hash (pmap_put (bh_bnum (hdr s hp)) hp (mf_hash m)) m) s in
  (* Init the data to all zero *)
  let s := upd_hdr hp (fun h => with_data
                         (memset (bh_data h) 0 (mf_page_size (mfp s) * page_count)) h) s in
  (hp, s).

(** Read a block from disk.  [None]: the assertion of the function failed
    (or its division trapped) and the program was aborted. *)
Definition mf_read (hp : ptr) (s : state) : option (status * state) :=
  if mf_fd (mfp s) <? 0 then Some (FAIL, s)     (* there is no file, can't read *)
  else
    let page_size := mf_page_size (mfp s) in
    let offset := int64 (page_size * bh_bnum (hdr s hp)) in
    let '(r, s) := vim_lseek offset s in
    if negb (r =? offset) then Some (FAIL, emsg e_seek_read s)
    else
      (* check for overflow; we know that page_size must be > 0 *)
      if (page_size =? 0)
         || negb (bh_page_count (hdr s hp) <=? UINT_MAX `quot` page_size)
      then None
      else
        let size := uint (page_size * bh_page_count (hdr s hp)) in
        let '(n, buf, s) := read_eintr (bh_data (hdr s hp)) size s in
        let s := upd_hdr hp (with_data buf) s in
        if negb (uint n =? size) then Some (FAIL, emsg e_read s)
        else Some (OK, s).

(** Get existing block [nr] with [page_count] pages.  The outer [None] is
    the abort of [mf_read]; the inner one is the NULL that the function
    returns when the block is not found. *)
Definition mf_get (nr : Z) (page_count : Z) (s : state)
  : option (option ptr * state) :=
  (* check block number exists *)
  if (mf_blocknr_max (mfp s) <=? nr) || (nr <=? mf_blocknr_min (mfp s))
  then Some (None, s)
  else
    (* see if it is in the cache *)
    match pmap_get nr (mf_hash (mfp s)) with
    | None =>                                        (* not in the hash list *)
        if (nr <? 0) || (mf_infile_count (mfp s) <=? nr)  (* can't be in the file *)
        then Some (None, s)
        else if negb (0 <? page_count) then Some (None, s)
        else
          let '(hp, s) := mf_alloc_bhdr page_count s in
          let s := upd_hdr hp (with_bnum nr) s in
          let s := upd_hdr hp (with_flags 0) s in
          let s := upd_hdr hp (with_page_count page_count) s in
          match mf_read hp s with
          | None => None
          | Some (FAIL, s) => Some (None, mf_free_bhdr hp s)  (* cannot read the block *)
          | Some (OK, s) =>
              let s := upd_hdr hp (fun h => with_flags (Z.lor (bh_flags h) BH_LOCKED) h) s in
              let s := set_mfp (fun m => with_hash
                                  (pmap_put (bh_bnum (hdr s hp)) hp (mf_hash m)) m) s in
              Some (Some hp, s)
          end
    | Some hp =>
        let s := set_mfp (fun m => with_hash (pmap_del (bh_bnum (hdr s hp)) (mf_hash m)) m) s in
        let s := upd_hdr hp (fun h => with_flags (Z.lor (bh_flags h) BH_LOCKED) h) s in
        let s := set_mfp (fun m => with_hash
                            (pmap_put (bh_bnum (hdr s hp)) hp (mf_hash m)) m) s in
        Some (Some hp, s)
    end.

(** Release the block [*hp]. *)
Definition mf_put (hp : ptr) (dirty infile : bool) (s : state) : state :=
  let flags := bh_flags (hdr s hp) in
  let s := if Z.land flags BH_LOCKED =? 0
           then emsg e_block_was_not_locked s else s in
  let flags := clear_flag flags BH_LOCKED in
  let '(flags, s) :=
    if dirty then
      (Z.lor flags BH_DIRTY,
       if decide (mf_dirty (mfp s) = MF_DIRTY_YES_NOSYNC) then s
       else set_mfp (with_dirty MF_DIRTY_YES) s)
    else (flags, s) in
  let s := upd_hdr hp (with_flags flags) s in
  if infile then snd (mf_trans_add hp s)  (* may translate negative in positive nr *)
  else s.

(** Signal block as no longer used (may put it in the free list). *)
Definition mf_free (hp : ptr) (s : state) : state :=
  let s := upd_hdr hp (with_data []) s in            (* free data *)
  let s := set_mfp (fun m => with_hash (pmap_del (bh_bnum (hdr s hp)) (mf_hash m)) m) s in
  if bh_bnum (hdr s hp) <? 0 then
    let s := set_heap (delete hp) s in               (* xfree(hp) *)
    set_mfp (fun m => with_neg_count (int64 (mf_neg_count m - 1)) m) s
  else mf_ins_free hp s.

(** ** The swap-file engine *)

(** The loop of [mf_write]: write the blocks in front of [*hp] to extend the
    file, then [*hp] itself.  [fuel] bounds the number of rounds; [None]
    means that it did not suffice. *)
Fixpoint mf_write_loop (fuel : nat) (page_size : Z) (hp : ptr) (s : state)
  : option (status * state) :=
  match fuel with
  | O => None
  | S fuel =>
      let nr := bh_bnum (hdr s hp) in          (* block nr which is being written *)
      let '(nr, hp2) :=
        if mf_infile_count (mfp s) <? nr       (* beyond end of file *)
        then (mf_infile_count (mfp s),
              pmap_get (mf_infile_count (mfp s)) (mf_hash (mfp s)))
        else (nr, Some hp) in
      let offset := int64 (page_size * nr) in  (* offset in the file *)
      let '(r, s) := vim_lseek offset s in
      if negb (r =? offset) then Some (FAIL, emsg e_seek_write s)
      else
        let page_count :=
          match hp2 with
          | None => 1                          (* freed block, fill with dummy data *)
          | Some hp2 => bh_page_count (hdr s hp2)
          end in
        let size := uint (page_size * page_count) in  (* number of bytes written *)
        let data :=
          match hp2 with
          | None => bh_data (hdr s hp)
          | Some hp2 => bh_data (hdr s hp2)
          end in
        let '(n, s) := write_eintr data size s in
        if negb (uint n =? size) then
          let s := if did_swapwrite_msg s then s else emsg e_write s in
          Some (FAIL, set_did_swapwrite_msg true s)
        else
          let s := set_did_swapwrite_msg false s in
          let s :=
            match hp2 with
            | Some hp2 =>                      (* written a non-dummy block *)
                upd_hdr hp2 (fun h => with_flags (clear_flag (bh_flags h) BH_DIRTY) h) s
            | None => s
            end in
          let s :=
            if mf_infile_count (mfp s) <? int64 (nr + page_count)  (* appended to file *)
            then set_mfp (with_infile_count (int64 (nr + page_count))) s
            else s in
          if nr =? bh_bnum (hdr s hp) then Some (OK, s)   (* written the desired block *)
          else mf_write_loop fuel page_size hp s
  end.

(** Write a block to disk. *)
Definition mf_write (fuel : nat) (hp : ptr) (s : state) : option (status * state) :=
  if mf_fd (mfp s) <? 0 then Some (FAIL, s)     (* there is no file, can't write *)
  else
    let '(r, s) :=
      if bh_bnum (hdr s hp) <? 0               (* must assign file block number *)
      then mf_trans_add hp s
      else (OK, s) in
    match r with
    | FAIL => Some (FAIL, s)
    | OK => mf_write_loop fuel (mf_page_size (mfp s)) hp s
    end.

(** The walk of [mf_sync] over the block index.

    Modelled from the spec: [map_foreach_value] (map.h is missing).  The walk
    visits the headers that the index holds when the walk starts, in the
    order of the index.  The result carries the loop variable [hp] as the
    test after the loop reads it: [None] (NULL) when "the walk completed",
    the header at which the walk was left otherwise. *)
Fixpoint mf_sync_walk (fuel : nat) (flags : Z) (l : list ptr) (st : status)
    (s : state) : option (option ptr * status * state) :=
  match l with
  | [] => Some (None, st, s)
  | hp :: l =>
      let bnum := bh_bnum (hdr s hp) in
      if (has_flag flags MFS_ALL || (0 <=? bnum))
         && has_flag (bh_flags (hdr s hp)) BH_DIRTY
         && (bool_decide (st = OK)
             || ((0 <=? bnum) && (bnum <? mf_infile_count (mfp s))))
      then
        if has_flag flags MFS_ZERO && negb (bnum =? 0)
        then mf_sync_walk fuel flags l st s            (* continue *)
        else
          match mf_write fuel hp s with
          | None => None
          | Some (r, s) =>
              if bool_decide (r = FAIL) && bool_decide (st = FAIL)
              then Some (Some hp, st, s)               (* double error: quit syncing *)
              else
                let st := if bool_decide (r = FAIL) then FAIL else st in
                let '(stop, s) :=
                  if has_flag flags MFS_STOP
                  then os_char_avail s                 (* Stop when char available now. *)
                  else (false, os_breakcheck s) in
                if stop then Some (Some hp, st, s)
                else if got_int s then Some (Some hp, st, s)
                else mf_sync_walk fuel flags l st s
          end
      else mf_sync_walk fuel flags l st s
  end.

(** Sync memory file to disk. *)
Definition mf_sync (fuel : nat) (flags : Z) (s : state) : option (status * state) :=
  let got_int_save := got_int s in
  if mf_fd (mfp s) <? 0 then
    (* there is no file, nothing to do *)
    Some (FAIL, set_mfp (with_dirty MF_DIRTY_NO) s)
  else
    (* Only a CTRL-C while writing will break us here, not one typed previously. *)
    let s := set_got_int false s in
    match mf_sync_walk fuel flags (List.map snd (mf_hash (mfp s))) OK s with
    | None => None
    | Some (hp, st, s) =>
        (* If the whole list is flushed, the memfile is not dirty anymore.
           In case of an error, dirty flag is also set, to avoid trying all
           the time. *)
        let s := if bool_decide (hp = None) || bool_decide (st = FAIL)
                 then set_mfp (with_dirty MF_DIRTY_NO) s
                 else s in
        let '(st, s) :=
          if has_flag flags MFS_FLUSH then
            let '(r, s) := os_fsync s in
            (if r =? 0 then st else FAIL, s)
          else (st, s) in
        let s := set_got_int (got_int s || got_int_save) s in
        Some (st, s)
    end.

(** Set dirty flag for all blocks in memory file with a positive block
    number. *)
Definition mf_set_dirty (s : state) : state :=
  let s :=
    fold_left
      (fun s hp =>
         if 0 <? bh_bnum (hdr s hp)
         then upd_hdr hp (fun h => with_flags (Z.lor (bh_flags h) BH_DIRTY) h) s
         else s)
      (List.map snd (mf_hash (mfp s))) s in
  set_mfp (with_dirty MF_DIRTY_YES) s.

(** Set new size for a memfile. *)
Definition mf_new_page_size (new_size : Z) (s : state) : state :=
  set_mfp (with_page_size new_size) s.

(** The loop of [mf_release_all] over the block index of one memory file
    that has a swap file: flush as many blocks as possible.  [fuel] bounds
    the rounds of this loop, [wfuel] those of each [mf_write]. *)
Fixpoint mf_release_loop (wfuel fuel : nat) (i : nat) (retval : bool) (s : state)
  : option (bool * state) :=
  match fuel with
  | O => None
  | S fuel =>
      match mf_hash (mfp s) !! i with
      | None => Some (retval, s)                   (* i >= map_size *)
      | Some (_, hp) =>
          let evict s :=
            let s := set_mfp (fun m => with_hash
                                (pmap_del (bh_bnum (hdr s hp)) (mf_hash m)) m) s in
            let s := mf_free_bhdr hp s in
            (* Rerun with the same value of i *)
            mf_release_loop wfuel fuel i true s in
          if has_flag (bh_flags (hdr s hp)) BH_LOCKED
          then mf_release_loop wfuel fuel (S i) retval s
          else if negb (has_flag (bh_flags (hdr s hp)) BH_DIRTY) then evict s
          else
            match mf_write wfuel hp s with
            | None => None
            | Some (FAIL, s) => mf_release_loop wfuel fuel (S i) retval s
            | Some (OK, s) => evict s
            end
      end
  end.

(** [mf_release_all] for the memory file of the state (the attempt to open a
    swap file for a buffer that has none belongs to memline.c). *)
Definition mf_release_all (wfuel fuel : nat) (s : state) : option (bool * state) :=
  if 0 <=? mf_fd (mfp s) then mf_release_loop wfuel fuel 0%nat false s
  else Some (false, s).

(** ** Opening *)

(** Open memfile's swapfile.  The first answer of the operating system
    tells whether the name already exists (non-zero: it does), the second is
    the descriptor that [os_open] returns. *)
Definition mf_do_open (flags : Z) (s : state) : bool * state :=
  let '(fd, s) :=
    if has_flag flags O_CREAT then
      let '(link, s) := os_next s in               (* os_fileinfo_link *)
      if negb (link =? 0) then (-1, emsg e_swap_exists s)
      else os_next s                               (* os_open *)
    else os_next s in
  let s := set_mfp (with_fd fd) s in
  (* If the file cannot be opened, use memory only *)
  if fd <? 0 then (false, s) else (true, s).

(** Open a new or existing memory block file; [fname] tells whether a file
    name is given.  [lo] and [hi] stand for MIN_SWAP_PAGE_SIZE and
    MAX_SWAP_PAGE_SIZE, whose definitions are not among the sources.  The
    result is [None] when the assertion of the function fails, [(false, _)]
    when the function returns NULL. *)
Definition mf_open (lo hi : Z) (fname : bool) (flags : Z) (s : state)
  : option (bool * state) :=
  let '(opened, s) :=
    if fname then mf_do_open flags s               (* try to open the file *)
    else (true, set_mfp (with_fd (-1)) s) in       (* no file, use memory only *)
  if negb opened then Some (false, s)
  else
    let s := set_mfp (with_free_first []) s in     (* free list is empty *)
    let s := set_mfp (with_dirty MF_DIRTY_NO) s in
    let s := set_mfp (with_hash []) s in
    let s := set_mfp (with_trans ∅) s in
    let s := set_mfp (with_page_size MEMFILE_PAGE_SIZE) s in
    (* Try to set the page size equal to device's block size. *)
    let s :=
      if 0 <=? mf_fd (mfp s) then
        let '(r, s) := os_next s in                (* os_fileinfo_fd *)
        if r =? 0 then
          let '(blocksize, s) := os_next s in      (* os_fileinfo_blocksize *)
          if (lo <=? blocksize) && (blocksize <=? hi)
          then set_mfp (with_page_size (uint blocksize)) s
          else s
        else s
      else s in
    let no_file := Some (true, set_mfp (with_blocknr_max 0) s) in
    let sized :=
      if (mf_fd (mfp s) <? 0) || has_flag flags (Z.lor O_TRUNC O_EXCL)
      then no_file                                 (* no file or empty file *)
      else
        let '(size, s) := os_next s in             (* vim_lseek(fd, 0, SEEK_END) *)
        let size := int64 size in
        if size <=? 0 then Some (true, set_mfp (with_blocknr_max 0) s)
        else
          let page_size := mf_page_size (mfp s) in
          if (0 <? page_size) && (uint (page_size - 1) <=? INT64_MAX - size)
          then Some (true,
                     set_mfp (with_blocknr_max
                                (int64 (size + page_size - 1) `quot` page_size)) s)
          else None in
    match sized with
    | None => None
    | Some (_, s) =>
        let s := set_mfp (with_blocknr_min (-1)) s in
        let s := set_mfp (with_neg_count 0) s in
        let s := set_mfp (fun m => with_infile_count (mf_blocknr_max m) m) s in
        Some (true, s)
    end.

(** Open a file for an existing memfile. *)
Definition mf_open_file (s : state) : status * state :=
  let '(opened, s) := mf_do_open (Z.lor O_RDWR (Z.lor O_CREAT O_EXCL)) s in
  if opened then (OK, set_mfp (with_dirty MF_DIRTY_YES) s)
  else (FAIL, s).

(** ** Small memory files to run the operations on *)

Module Demo.

(** The state before [mf_open]: nothing allocated, an empty file, and the
    answers [replies] of the operating system to come. *)
Definition env (replies : list Z) : state :=
  State (MemFile 0 [] [] ∅ 0 0 0 0 0 MF_DIRTY_NO) ∅ ∅ 0 [] false false []
        replies (fun _ => 170).

(** A memory file opened on a new, empty swap file (descriptor 3), with a
    page size of two bytes. *)
Definition opened (replies : list Z) : state :=
  match mf_open 1048 50000 true (Z.lor O_RDWR (Z.lor O_CREAT O_EXCL))
                (env ([0; 3; 1] ++ replies)) with
  | Some (_, s) => mf_new_page_size 2 s
  | None => env replies
  end.

(** The same with one block of one page, number 0, put back dirty. *)
Definition one_block (replies : list Z) : state :=
  let '(hp, s) := mf_new false 1 (opened replies) in
  mf_put hp true false s.

(** Blocks 0 and 1 put back dirty, block 1 of two pages. *)
Definition two_blocks (replies : list Z) : state :=
  let '(hp, s) := mf_new false 2 (one_block replies) in
  mf_put hp true false s.

(** One block created with the number -1 and put back as a block of the
    file: it has been given the number 0. *)
Definition translated (replies : list Z) : state :=
  let '(hp, s) := mf_new true 1 (opened replies) in
  mf_put hp true true s.

(** Blocks 0, 1 and 2 of one page each, put back dirty, block 2 filled with
    the bytes 5 and 6 by its user; then block 1 is freed before anything has
    been written to the file.  Block 2 is the header 3. *)
Definition gap (replies : list Z) : state :=
  let '(hp0, s) := mf_new false 1 (opened replies) in
  let s := mf_put hp0 true false s in
  let '(hp1, s) := mf_new false 1 s in
  let s := mf_put hp1 true false s in
  let '(hp2, s) := mf_new false 1 s in
  let s := upd_hdr hp2 (with_data [5; 6]) s in
  let s := mf_put hp2 true false s in
  mf_free hp1 s.

(** A memory file in the DIRTY_NO_SYNC state that holds one locked block
    which is not dirty. *)
Definition nosync_locked : state :=
  State (MemFile 3 [] [(0, 1%positive)] ∅ 1 (-1) 0 1 2 MF_DIRTY_YES_NOSYNC)
        {[ 1%positive := Bhdr 0 [7; 7] 1 BH_LOCKED ]} ∅ 0 [] false false []
        [] (fun _ => 170).

(** A memory file that holds one block which is neither locked nor dirty. *)
Definition clean_unlocked : state :=
  State (MemFile 3 [] [(0, 1%positive)] ∅ 1 (-1) 0 1 2 MF_DIRTY_NO)
        {[ 1%positive := Bhdr 0 [7; 7] 1 0 ]} ∅ 0 [] false false []
        [] (fun _ => 170).

(** A memory file without a swap file, just opened. *)
Definition memory_only : state :=
  match mf_open 1048 50000 false 0 (env []) with
  | Some (_, s) => s
  | None => env []
  end.

(** The same after one block has been created with a negative number. *)
Definition one_negative : state := snd (mf_new true 1 memory_only).

End Demo.

(** ** The two halves of [mf_new]

    [mf_new] first decides on the number to use and then initialises the
    block; the proofs below treat the halves one after the other
    ([mf_new_halves] shows that they make up the function). *)

Definition mf_new_number (negative : bool) (page_count : Z) (s : state)
  : ptr * state :=
  let new_number :=
    let '(hp, s) := mf_alloc_bhdr page_count s in
    if negative then
      let s := upd_hdr hp (with_bnum (mf_blocknr_min (mfp s))) s in
      let s := set_mfp (fun m => with_blocknr_min (int64 (mf_blocknr_min m - 1)) m) s in
      let s := set_mfp (fun m => with_neg_count (int64 (mf_neg_count m + 1)) m) s in
      (hp, s)
    else
      let s := upd_hdr hp (with_bnum (mf_blocknr_max (mfp s))) s in
      let s := set_mfp (fun m => with_blocknr_max
                                   (int64 (mf_blocknr_max m + page_count)) m) s in
      (hp, s) in
  match head (mf_free_first (mfp s)) with
  | Some freep =>
      if negb negative && (page_count <=? bh_page_count (hdr s freep)) then
        if page_count <? bh_page_count (hdr s freep) then
          let '(hp, s) := mf_alloc_bhdr page_count s in
          let s := upd_hdr hp (with_bnum (bh_bnum (hdr s freep))) s in
          let s := upd_hdr freep
                     (fun h => with_bnum (int64 (bh_bnum h + page_count)) h) s in
          let s := upd_hdr freep
                     (fun h => with_page_count
                                 (uint (bh_page_count h - page_count)) h) s in
          (hp, s)
        else
          let p := xmalloc (mf_page_size (mfp s) * page_count) s in
          let '(hp, s) := mf_rem_free s in
          let hp := default freep hp in
          (hp, upd_hdr hp (with_data p) s)
      else new_number
  | None => new_number
  end.

Definition mf_new_init (page_count : Z) (hp : ptr) (s : state) : state :=
  let s := upd_hdr hp (with_flags (Z.lor BH_LOCKED BH_DIRTY)) s in
  let s := set_mfp (with_dirty MF_DIRTY_YES) s in
  let s := upd_hdr hp (with_page_count page_count) s in
  let s := set_mfp (fun m => with_hash (pmap_put (bh_bnum (hdr s hp)) hp (mf_hash m)) m) s in
  upd_hdr hp (fun h => with_data
                (memset (bh_data h) 0 (mf_page_size (mfp s) * page_count)) h) s.

(** The free list cannot supply [page_count] pages: it is empty or its
    first run is too short. *)
Definition free_list_short (page_count : Z) (s : state) : Prop :=
  match head (mf_free_first (mfp s)) with
  | Some freep => bh_page_count (hdr s freep) < page_count
  | None => True
  end.

(** ** What a sync of block 0 may touch *)

(** [hp] is a block of the index with the number 0. *)
Definition zero_block (s : state) (hp : ptr) (h : bhdr_T) : Prop :=
  hp ∈ List.map snd (mf_hash (mfp s)) /\ heap s !! hp = Some h /\ bh_bnum h = 0.

(** [off] is an offset of the file outside the pages of every block 0. *)
Definition off_block_zero (s : state) (off : Z) : Prop :=
  forall hp h, zero_block s hp h ->
    ~ (0 <= off < uint (mf_page_size (mfp s) * bh_page_count h)).

(** [w] is a write at the start of the file, of bytes of a block 0. *)
Definition zero_write (s : state) (w : Z * list Z) : Prop :=
  fst w = 0 /\
  exists hp h, zero_block s hp h /\
    snd w = take (length (snd w)) (bh_data h) /\
    Z.of_nat (length (snd w)) <= uint (mf_page_size (mfp s) * bh_page_count h).

(** The relation between the states before and after such a sync. *)
Record zero_frame (s s' : state) : Prop := ZeroFrame {
  zf_hash : mf_hash (mfp s') = mf_hash (mfp s);
  zf_page_size : mf_page_size (mfp s') = mf_page_size (mfp s);
  zf_fd : mf_fd (mfp s') = mf_fd (mfp s);
  zf_infile : mf_infile_count (mfp s) <= mf_infile_count (mfp s');
  zf_heap : forall hp,
    match heap s !! hp, heap s' !! hp with
    | Some h, Some h' =>
        bh_bnum h' = bh_bnum h /\ bh_data h' = bh_data h /\
        bh_page_count h' = bh_page_count h /\ (bh_bnum h <> 0 -> h' = h)
    | None, None => True
    | _, _ => False
    end;
  zf_writes : exists new,
    swap_writes s' = new ++ swap_writes s /\ Forall (zero_write s) new;
  zf_bytes : forall off,
    off_block_zero s off -> swap_bytes s' !! off = swap_bytes s !! off
}.

(** ** The operations on an open memory file *)

(** The calls of the interface that act on an open memory file. *)
Inductive mf_op :=
  | Op_new (negative : bool) (page_count : Z)
  | Op_get (nr page_count : Z)
  | Op_put (hp : ptr) (dirty infile : bool)
  | Op_free (hp : ptr)
  | Op_sync (flags : Z)
  | Op_set_dirty
  | Op_release_all
  | Op_trans_del (old_nr : Z)
  | Op_new_page_size (new_size : Z)
  | Op_open_file.

(** The state after a call; [None] when the call does not return ([fuel]
    used up, or an assertion failed). *)
Definition run (fuel : nat) (op : mf_op) (s : state) : option state :=
  match op with
  | Op_new negative page_count => Some (snd (mf_new negative page_count s))
  | Op_get nr page_count => snd <$> mf_get nr page_count s
  | Op_put hp dirty infile => Some (mf_put hp dirty infile s)
  | Op_free hp => Some (mf_free hp s)
  | Op_sync flags => snd <$> mf_sync fuel flags s
  | Op_set_dirty => Some (mf_set_dirty s)
  | Op_release_all => snd <$> mf_release_all fuel fuel s
  | Op_trans_del old_nr => Some (snd (mf_trans_del old_nr s))
  | Op_new_page_size new_size => Some (mf_new_page_size new_size s)
  | Op_open_file => Some (snd (mf_open_file s))
  end.

(** ** The file has no holes *)

(** The byte at offset [off] of the swap file has been written. *)
Definition written (s : state) (off : Z) : Prop := is_Some (swap_bytes s !! off).

(** Every page below [mf_infile_count] has been written. *)
Definition no_holes (s : state) : Prop :=
  forall off,
    0 <= off < mf_page_size (mfp s) * mf_infile_count (mfp s) -> written s off.

(** The header [p] is allocated and owns [page_size * page_count] bytes, at
    least one page, of a size that the [unsigned] of the I/O calls holds. *)
Definition sized (s : state) (p : ptr) : Prop :=
  exists h, heap s !! p = Some h /\
    1 <= bh_page_count h /\
    mf_page_size (mfp s) * bh_page_count h <= UINT_MAX /\
    length (bh_data h) = Z.to_nat (mf_page_size (mfp s) * bh_page_count h).

(** What [mf_write] relies on when it writes [*hp]: a page size and block
    sizes as above for [hp] and for the blocks of the index, a block number
    that is not negative, and file offsets that [int64_t] holds. *)
Definition write_ready (s : state) (hp : ptr) : Prop :=
  0 < mf_page_size (mfp s) /\
  sized s hp /\
  (forall k p, (k, p) ∈ mf_hash (mfp s) -> sized s p) /\
  0 <= bh_bnum (hdr s hp) /\
  mf_page_size (mfp s) * (bh_bnum (hdr s hp) + UINT_MAX) <= INT64_MAX /\
  0 <= mf_infile_count (mfp s).

(** ** Counting the negative blocks *)

(** The number of negative numbers in a list of keys. *)
Definition negs (l : list Z) : nat := length (List.filter (fun k => k <? 0) l).

(** The number of negative-numbered blocks in the block index. *)
Definition neg_blocks (s : state) : nat :=
  negs (List.map fst (mf_hash (mfp s))).

(** The number of entries in the translation table. *)
Definition trans_entries (s : state) : nat := size (mf_trans (mfp s)).

(** A header that the caller may pass: allocated and not freed. *)
Definition live (s : state) (hp : ptr) : Prop :=
  is_Some (heap s !! hp) /\ hp ∉ mf_free_first (mfp s).

(** The new positive number for a block of [page_count] pages, taken from
    the free list or from [mf_blocknr_max], does not overflow [int64_t]. *)
Definition number_fits (page_count : Z) (s : state) : Prop :=
  match head (mf_free_first (mfp s)) with
  | Some freep =>
      if page_count <=? bh_page_count (hdr s freep)
      then bh_bnum (hdr s freep) + page_count <= INT64_MAX
      else mf_blocknr_max (mfp s) + page_count <= INT64_MAX
  | None => mf_blocknr_max (mfp s) + page_count <= INT64_MAX
  end.

(** A call of the block lifecycle, made as the interface asks: page counts
    are [unsigned], block headers are live, and no [int64_t] overflows (which
    C leaves undefined). *)
Inductive lifecycle_step : state -> state -> Prop :=
  | step_new (negative : bool) (page_count : Z) (s : state) :
      is_uint page_count ->
      (if negative
       then INT64_MIN < mf_blocknr_min (mfp s) /\ mf_neg_count (mfp s) < INT64_MAX
       else number_fits page_count s) ->
      lifecycle_step s (snd (mf_new negative page_count s))
  | step_get (nr page_count : Z) (s : state) r s' :
      is_uint page_count ->
      mf_get nr page_count s = Some (r, s') ->
      lifecycle_step s s'
  | step_put (hp : ptr) (dirty infile : bool) (s : state) :
      live s hp ->
      (infile = true -> bh_bnum (hdr s hp) < 0 ->
       number_fits (bh_page_count (hdr s hp)) s) ->
      lifecycle_step s (mf_put hp dirty infile s)
  | step_free (hp : ptr) (s : state) :
      live s hp ->
      lifecycle_step s (mf_free hp s)
  | step_trans_add (hp : ptr) (s : state) :
      live s hp ->
      (bh_bnum (hdr s hp) < 0 -> number_fits (bh_page_count (hdr s hp)) s) ->
      lifecycle_step s (snd (mf_trans_add hp s))
  | step_trans_del (old_nr : Z) (s : state) :
      lifecycle_step s (snd (mf_trans_del old_nr s)).

(** The states of a memory file from [mf_open] on. *)
Inductive reachable : state -> Prop :=
  | reach_open lo hi fname flags env s :
      heap env = (∅ : gmap ptr bhdr_T) ->
      mf_open lo hi fname flags env = Some (true, s) ->
      reachable s
  | reach_step s s' :
      reachable s -> lifecycle_step s s' -> reachable s'.

(** What holds of the index, the free list, the translation table and the
    heap of headers in every reachable state. *)
Record mf_inv_of (m : memfile_T) (g : gmap ptr bhdr_T) : Prop := MfInv {
  inv_keys : NoDup (List.map fst (mf_hash m));
  inv_index : forall k p, (k, p) ∈ mf_hash m ->
    exists h, g !! p = Some h /\ bh_bnum h = k;
  inv_negative : forall p h, g !! p = Some h -> bh_bnum h < 0 ->
    (bh_bnum h, p) ∈ mf_hash m;
  inv_free : forall p, p ∈ mf_free_first m ->
    (exists h, g !! p = Some h /\ 0 <= bh_bnum h) /\
    p ∉ List.map snd (mf_hash m);
  inv_free_nodup : NoDup (mf_free_first m);
  inv_pages : forall p h, g !! p = Some h -> 0 <= bh_page_count h;
  inv_min : mf_blocknr_min m < 0;
  inv_min_index : forall k, k ∈ List.map fst (mf_hash m) -> k < 0 ->
    mf_blocknr_min m < k;
  inv_min_trans : forall k, is_Some (mf_trans m !! k) ->
    mf_blocknr_min m < k < 0;
  inv_trans_index : forall k, k ∈ List.map fst (mf_hash m) ->
    mf_trans m !! k = None;
  inv_max : 0 <= mf_blocknr_max m;
  inv_count : mf_neg_count m
              = Z.of_nat (negs (List.map fst (mf_hash m)))
                + Z.of_nat (size (mf_trans m));
  inv_count_max : mf_neg_count m <= INT64_MAX
}.

Definition mf_inv (s : state) : Prop := mf_inv_of (mfp s) (heap s).

(** ** More memory files to run the operations on *)

Module Scene.

(** A memory file without a swap file in which the block 0, of two pages,
    is created ([new_block]), put back ([put_back]) and freed
    ([one_freed]): its header (1) is on the free list in the end. *)
Definition new_block : ptr * state := mf_new false 2 Demo.memory_only.

Definition put_back : state :=
  mf_put (fst new_block) false false (snd new_block).

Definition one_freed : state := mf_free (fst new_block) put_back.

(** A memory file on a swap file (descriptor 3, pages of two bytes) that
    holds block 0 with the bytes 5 and 6, while no block is in memory. *)
Definition on_disk (replies : list Z) : state :=
  State (MemFile 3 [] [] ∅ 1 (-1) 0 1 2 MF_DIRTY_NO)
        ∅ {[ 0 := 5; 1 := 6 ]} 0 [] false false [] replies (fun _ => 170).

(** The memory file [Demo.gap] with answers of the operating system for
    two more calls than the writing of block 2 takes, and the state after
    block 2 (the header 3) has been written. *)
Definition gap : state := Demo.gap [0; 0; 0; 0; 0; 0; 0; 0].

Definition gap_written : state :=
  match mf_write 3 3%positive gap with
  | Some (_, s) => s
  | None => gap
  end.

(** A memory file on a swap file whose only block has the number -1 and
    has been put back dirty. *)
Definition negative_dirty : state :=
  mf_put 1%positive true false (snd (mf_new true 1 (Demo.opened []))).

End Scene.

(** ** The number that a translation gives *)

(** The number that [mf_trans_add] gives to a block of [page_count] pages:
    the number of the first free block when that one has pages enough,
    [mf_blocknr_max] otherwise. *)
Definition next_number (page_count : Z) (s : state) : Z :=
  match head (mf_free_first (mfp s)) with
  | Some freep =>
      if page_count <=? bh_page_count (hdr s freep)
      then bh_bnum (hdr s freep)
      else mf_blocknr_max (mfp s)
  | None => mf_blocknr_max (mfp s)
  end.

(** ** What a write does to a header *)

(** The header [h] with its [BH_DIRTY] flag cleared. *)
Definition cleaned (h : bhdr_T) : bhdr_T :=
  with_flags (clear_flag (bh_flags h) BH_DIRTY) h.

(** The index files every header under the number that the header carries. *)
Definition index_numbers (s : state) : Prop :=
  forall k p h,
    pmap_get k (mf_hash (mfp s)) = Some p -> heap s !! p = Some h -> bh_bnum h = k.

(** From [s] to [s'] nothing has happened to the blocks but that blocks with
    numbers that are not negative have lost their [BH_DIRTY] flag, and
    nothing to the memory file but that [mf_infile_count] has grown and the
    dirty state may have changed. *)
Record only_cleaned (s s' : state) : Prop := OnlyCleaned {
  oc_hash : mf_hash (mfp s') = mf_hash (mfp s);
  oc_free : mf_free_first (mfp s') = mf_free_first (mfp s);
  oc_trans : mf_trans (mfp s') = mf_trans (mfp s);
  oc_neg_count : mf_neg_count (mfp s') = mf_neg_count (mfp s);
  oc_max : mf_blocknr_max (mfp s') = mf_blocknr_max (mfp s);
  oc_min : mf_blocknr_min (mfp s') = mf_blocknr_min (mfp s);
  oc_fd : mf_fd (mfp s') = mf_fd (mfp s);
  oc_page_size : mf_page_size (mfp s') = mf_page_size (mfp s);
  oc_infile : mf_infile_count (mfp s) <= mf_infile_count (mfp s');
  oc_heap : forall p,
    match heap s !! p, heap s' !! p with
    | Some h, Some h' => h' = h \/ (h' = cleaned h /\ 0 <= bh_bnum h)
    | None, None => True
    | _, _ => False
    end
}.

(** The block [p] is not dirty (a header that is not allocated has no flag). *)
Definition clean (s : state) (p : ptr) : Prop :=
  has_flag (bh_flags (hdr s p)) BH_DIRTY = false.

(** ** What a call leaves of the swap file *)

(** From [s] to [s'] nothing has been written to the swap file. *)
Definition file_untouched (s s' : state) : Prop :=
  swap_bytes s' = swap_bytes s /\ swap_writes s' = swap_writes s.

(** From [s] to [s'] the memory file has kept its descriptor and its page
    size. *)
Definition same_file (s s' : state) : Prop :=
  mf_fd (mfp s') = mf_fd (mfp s) /\ mf_page_size (mfp s') = mf_page_size (mfp s).

(** ** The file names

    [mf_fname] and [mf_ffname], the two fields of [memfile_T] that the
    record [memfile_T] above leaves out; a NULL name is [None]. *)
Record fnames_T := Fnames {
  mf_fname : option string;
  mf_ffname : option string
}.

(** Frees mf_fname and mf_ffname. *)
Definition mf_free_fnames (n : fnames_T) : fnames_T := Fnames None None.

(** Make name of memfile's swapfile a full path. *)
Definition mf_fullname (n : fnames_T) : fnames_T :=
  match mf_fname n, mf_ffname n with
  | Some _, Some ffname => Fnames (Some ffname) None
  | _, _ => n
  end.

(** Return true if there are any translations pending for memfile. *)
Definition mf_need_trans (n : fnames_T) (s : state) : bool :=
  bool_decide (mf_fname n <> None) && (0 <? mf_neg_count (mfp s)).

(** * Properties *)

(** ** Machine integers *)

Lemma uint_id z : is_uint z -> uint z = z.
Proof. unfold is_uint, UINT_MAX, uint. intros. apply Z.mod_small. lia. Qed.

Lemma uint_range z : is_uint (uint z).
Proof.
  unfold is_uint, UINT_MAX, uint.
  pose proof (Z.mod_pos_bound z (2 ^ 32)). lia.
Qed.

Lemma uint_le z : 0 <= z -> uint z <= z.
Proof. unfold uint. intros. apply Z.mod_le; lia. Qed.

Lemma int64_id z : is_int64 z -> int64 z = z.
Proof.
  unfold is_int64, INT64_MIN, INT64_MAX, int64. intros.
  rewrite Z.mod_small; lia.
Qed.

Lemma int64_range z : is_int64 (int64 z).
Proof.
  unfold is_int64, INT64_MIN, INT64_MAX, int64.
  pose proof (Z.mod_pos_bound (z + 2 ^ 63) (2 ^ 64)). lia.
Qed.

(** ** The block index, the heap and fresh memory *)

Lemma pmap_get_put_eq k v m : pmap_get k (pmap_put k v m) = Some v.
Proof.
  unfold pmap_get. induction m as [|[k' v'] m IH]; cbn.
  - rewrite Z.eqb_refl. reflexivity.
  - destruct (k' =? k) eqn:E; cbn.
    + rewrite Z.eqb_refl. reflexivity.
    + rewrite E. exact IH.
Qed.

Lemma fresh_heap_None (s : state) : heap s !! fresh (dom (heap s)) = None.
Proof. apply not_elem_of_dom, is_fresh. Qed.

Lemma length_xmalloc n s : length (xmalloc n s) = Z.to_nat n.
Proof. unfold xmalloc. rewrite length_map, length_seq. reflexivity. Qed.

Lemma memset_all p c n :
  length p = Z.to_nat n -> memset p c n = replicate (Z.to_nat n) c.
Proof.
  intros H. unfold memset. rewrite <- H, Nat.min_id, drop_all, app_nil_r.
  reflexivity.
Qed.

Lemma hdr_Some s hp h : heap s !! hp = Some h -> hdr s hp = h.
Proof. unfold hdr. intros ->. reflexivity. Qed.

Lemma hdr_None s hp : heap s !! hp = None -> hdr s hp = junk_hdr.
Proof. unfold hdr. intros ->. reflexivity. Qed.

(** A header that reads with a page count of at least one is allocated. *)
Lemma hdr_pages_allocated s hp n :
  1 <= n -> n <= bh_page_count (hdr s hp) -> is_Some (heap s !! hp).
Proof.
  intros Hn Hle. destruct (heap s !! hp) eqn:E; [eauto|].
  rewrite (hdr_None _ _ E) in Hle. cbn in Hle. lia.
Qed.

Ltac heap_lookup :=
  repeat first
    [ rewrite lookup_alter_eq
    | rewrite lookup_alter_ne by congruence
    | rewrite lookup_insert_eq
    | rewrite lookup_insert_ne by congruence
    | rewrite lookup_delete_ne by congruence ].

(** ** [mf_new] *)

Lemma mf_new_halves negative page_count s :
  mf_new negative page_count s =
  let '(hp, s1) := mf_new_number negative page_count s in
  (hp, mf_new_init page_count hp s1).
Proof.
  unfold mf_new, mf_new_number, mf_new_init.
  destruct (head (mf_free_first (mfp s))) as [freep|]; [|destruct negative; reflexivity].
  destruct (negb negative && _); [|destruct negative; reflexivity].
  destruct (page_count <? _); reflexivity.
Qed.

(** The header that the first half hands over is allocated and owns
    [page_size * page_count] bytes. *)
Lemma mf_new_number_block negative page_count s hp s1 :
  1 <= page_count ->
  mf_new_number negative page_count s = (hp, s1) ->
  exists h1,
    heap s1 !! hp = Some h1 /\
    length (bh_data h1) = Z.to_nat (mf_page_size (mfp s) * page_count) /\
    mf_page_size (mfp s1) = mf_page_size (mfp s).
Proof.
  intros Hpc. unfold mf_new_number.
  pose proof (fresh_heap_None s) as Hfresh.
  assert (Hnew : forall hp s1,
    (let '(hp, s) := mf_alloc_bhdr page_count s in
     if negative
     then (hp, set_mfp (fun m => with_neg_count (int64 (mf_neg_count m + 1)) m)
                 (set_mfp (fun m => with_blocknr_min (int64 (mf_blocknr_min m - 1)) m)
                    (upd_hdr hp (with_bnum (mf_blocknr_min (mfp s))) s)))
     else (hp, set_mfp (fun m => with_blocknr_max
                                   (int64 (mf_blocknr_max m + page_count)) m)
                 (upd_hdr hp (with_bnum (mf_blocknr_max (mfp s))) s))) = (hp, s1) ->
    exists h1,
      heap s1 !! hp = Some h1 /\
      length (bh_data h1) = Z.to_nat (mf_page_size (mfp s) * page_count) /\
      mf_page_size (mfp s1) = mf_page_size (mfp s)).
  { intros hp' s1'. destruct negative; cbn; intros [= <- <-]; cbn;
      heap_lookup; cbn; (eexists; split; [reflexivity|]); cbn;
      (split; [apply length_xmalloc | reflexivity]). }
  destruct (head (mf_free_first (mfp s))) as [freep|] eqn:Hhead; [|apply Hnew].
  destruct (negb negative && _) eqn:Hfree; [|apply Hnew].
  apply andb_prop in Hfree as [_ Hfree]. apply Z.leb_le in Hfree.
  destruct (hdr_pages_allocated _ _ _ Hpc Hfree) as [hf Hhf].
  destruct (page_count <? _) eqn:Hmore.
  - cbn. intros [= <- <-]. cbn.
    assert (freep <> fresh (dom (heap s))) by congruence.
    heap_lookup. cbn. eexists. split; [reflexivity|]. cbn.
    split; [apply length_xmalloc | reflexivity].
  - cbn. rewrite Hhead. cbn. intros [= <- <-]. cbn.
    heap_lookup. rewrite Hhf. cbn. eexists. split; [reflexivity|]. cbn.
    split; [apply length_xmalloc | reflexivity].
Qed.

(** What the second half makes of an allocated header. *)
Lemma mf_new_init_block page_count hp s1 h1 :
  heap s1 !! hp = Some h1 ->
  let s' := mf_new_init page_count hp s1 in
  heap s' !! hp =
    Some (Bhdr (bh_bnum h1)
               (memset (bh_data h1) 0 (mf_page_size (mfp s1) * page_count))
               page_count (Z.lor BH_LOCKED BH_DIRTY)) /\
  pmap_get (bh_bnum h1) (mf_hash (mfp s')) = Some hp /\
  mf_dirty (mfp s') = MF_DIRTY_YES.
Proof.
  intros Hh1. unfold mf_new_init, hdr. cbn. heap_lookup. rewrite Hh1. cbn.
  repeat split. apply pmap_get_put_eq.
Qed.

(** C4.  For every memory file and every [page_count >= 1], the block that
    [mf_new] returns has the flags [BH_LOCKED | BH_DIRTY] and nothing else,
    owns [page_size * page_count] bytes that are all zero, is found in the
    block index under its number, and the memory file is dirty
    ([MF_DIRTY_YES]) after the call. *)
Theorem mf_new_block negative page_count s hp s' :
  1 <= page_count ->
  mf_new negative page_count s = (hp, s') ->
  exists h,
    heap s' !! hp = Some h /\
    bh_flags h = Z.lor BH_LOCKED BH_DIRTY /\
    bh_page_count h = page_count /\
    bh_data h = replicate (Z.to_nat (mf_page_size (mfp s) * page_count)) 0 /\
    pmap_get (bh_bnum h) (mf_hash (mfp s')) = Some hp /\
    mf_dirty (mfp s') = MF_DIRTY_YES.
Proof.
  intros Hpc. rewrite mf_new_halves.
  destruct (mf_new_number negative page_count s) as [hp1 s1] eqn:Hnumber.
  intros [= <- <-].
  destruct (mf_new_number_block _ _ _ _ _ Hpc Hnumber) as (h1 & Hh1 & Hlen & Hps).
  destruct (mf_new_init_block page_count hp1 s1 h1 Hh1) as (Hh & Hidx & Hdirty).
  eexists. split; [exact Hh|]. cbn.
  rewrite Hps, (memset_all _ _ _ Hlen). auto.
Qed.

Lemma mf_new_block_witness :
  let r := mf_new false 2 (Demo.one_block []) in
  1 <= 2 /\
  exists h,
    heap (snd r) !! fst r = Some h /\
    bh_flags h = 3 /\
    bh_page_count h = 2 /\
    bh_data h = [0; 0; 0; 0] /\
    pmap_get (bh_bnum h) (mf_hash (mfp (snd r))) = Some (fst r) /\
    mf_dirty (mfp (snd r)) = MF_DIRTY_YES.
Proof.
  split; [lia|].
  exact (mf_new_block false 2 (Demo.one_block [])
           (fst (mf_new false 2 (Demo.one_block [])))
           (snd (mf_new false 2 (Demo.one_block [])))
           ltac:(lia) ltac:(apply surjective_pairing)).
Defined.

(** C5, the claim as it stands: a new positive block of two pages moves
    [mf_blocknr_max] on by two, not by one. *)
Lemma mf_new_max_not_plus_one :
  let s := Demo.one_block [] in
  let r := mf_new false 2 s in
  free_list_short 2 s /\
  bh_bnum (hdr (snd r) (fst r)) = mf_blocknr_max (mfp s) /\
  mf_blocknr_max (mfp (snd r)) = mf_blocknr_max (mfp s) + 2 /\
  mf_blocknr_max (mfp (snd r)) <> mf_blocknr_max (mfp s) + 1.
Proof. vm_compute. repeat split; discriminate. Qed.

(** C5, amended.  When the free list cannot supply the request, a positive
    [mf_new] gives the block the old [mf_blocknr_max] and moves
    [mf_blocknr_max] on by [page_count]; a negative [mf_new] (which never
    looks at the free list) gives the block the old [mf_blocknr_min], takes
    one from [mf_blocknr_min] and adds one to [mf_neg_count]. *)
Theorem mf_new_fresh_number negative page_count s hp s' :
  (negative = false -> free_list_short page_count s) ->
  mf_new negative page_count s = (hp, s') ->
  if negative then
    bh_bnum (hdr s' hp) = mf_blocknr_min (mfp s) /\
    mf_blocknr_min (mfp s') = int64 (mf_blocknr_min (mfp s) - 1) /\
    mf_neg_count (mfp s') = int64 (mf_neg_count (mfp s) + 1) /\
    mf_blocknr_max (mfp s') = mf_blocknr_max (mfp s)
  else
    bh_bnum (hdr s' hp) = mf_blocknr_max (mfp s) /\
    mf_blocknr_max (mfp s') = int64 (mf_blocknr_max (mfp s) + page_count) /\
    mf_blocknr_min (mfp s') = mf_blocknr_min (mfp s) /\
    mf_neg_count (mfp s') = mf_neg_count (mfp s).
Proof.
  intros Hshort. unfold mf_new, free_list_short in *.
  assert (Hfree : match head (mf_free_first (mfp s)) with
                  | Some freep =>
                      negb negative && (page_count <=? bh_page_count (hdr s freep))
                  | None => false
                  end = false).
  { destruct negative; [destruct (head _); reflexivity|].
    specialize (Hshort eq_refl).
    destruct (head _); [|reflexivity]. cbn. apply Z.leb_gt. exact Hshort. }
  destruct (head (mf_free_first (mfp s))) as [freep|]; [rewrite Hfree|];
    destruct negative; cbn; intros [= <- <-]; unfold hdr; cbn;
    heap_lookup; cbn; auto.
Qed.

Lemma mf_new_fresh_number_witness :
  let s := Demo.one_block [] in
  let r := mf_new false 2 s in
  let r' := mf_new true 1 s in
  (free_list_short 2 s /\
   bh_bnum (hdr (snd r) (fst r)) = 1 /\ mf_blocknr_max (mfp (snd r)) = 3) /\
  (bh_bnum (hdr (snd r') (fst r')) = -1 /\
   mf_blocknr_min (mfp (snd r')) = -2 /\ mf_neg_count (mfp (snd r')) = 1).
Proof.
  split.
  - split; [exact I|].
    pose proof (mf_new_fresh_number false 2 (Demo.one_block []) _ _
                  (fun _ => I) (surjective_pairing _)) as H.
    cbv beta iota in H. destruct H as (H1 & H2 & _). split; [exact H1 | exact H2].
  - pose proof (mf_new_fresh_number true 1 (Demo.one_block []) _ _
                  (fun _ => I) (surjective_pairing _)) as H.
    cbv beta iota in H. destruct H as (H1 & H2 & H3 & _). auto.
Defined.

(** ** Flag arithmetic *)

Lemma not_locked_mask : uint (Z.lnot BH_LOCKED) = Z.ldiff (Z.ones 32) (2 ^ 1).
Proof. reflexivity. Qed.

Lemma put_flags_not_locked f :
  Z.land (Z.lor (clear_flag f BH_LOCKED) BH_DIRTY) BH_LOCKED = 0.
Proof.
  unfold clear_flag. rewrite Z.land_lor_distr_l, <- Z.land_assoc.
  change (Z.land (uint (Z.lnot BH_LOCKED)) BH_LOCKED) with 0.
  rewrite Z.land_0_r. reflexivity.
Qed.

Lemma clear_flag_not_locked f : Z.land (clear_flag f BH_LOCKED) BH_LOCKED = 0.
Proof.
  unfold clear_flag. rewrite <- Z.land_assoc.
  change (Z.land (uint (Z.lnot BH_LOCKED)) BH_LOCKED) with 0.
  apply Z.land_0_r.
Qed.

Lemma put_flags_dirty f : Z.land (Z.lor f BH_DIRTY) BH_DIRTY = BH_DIRTY.
Proof.
  rewrite Z.land_lor_distr_l. change (Z.land BH_DIRTY BH_DIRTY) with BH_DIRTY.
  apply Z.lor_eq_0_iff || idtac.
  apply Z.bits_inj'. intros n Hn. rewrite Z.lor_spec, Z.land_spec.
  destruct (Z.testbit BH_DIRTY n); [apply orb_true_r | rewrite andb_false_r; reflexivity].
Qed.

Lemma clear_flag_dirty_bit f :
  Z.land (clear_flag f BH_LOCKED) BH_DIRTY = Z.land f BH_DIRTY.
Proof.
  unfold clear_flag. rewrite <- Z.land_assoc.
  change (Z.land (uint (Z.lnot BH_LOCKED)) BH_DIRTY) with BH_DIRTY. reflexivity.
Qed.

Lemma clear_flag_unset f :
  is_uint f -> Z.land f BH_LOCKED = 0 -> clear_flag f BH_LOCKED = f.
Proof.
  intros [Hlo Hhi] Hbit. unfold clear_flag. rewrite not_locked_mask.
  apply Z.bits_inj'. intros n Hn.
  rewrite Z.land_spec, Z.ldiff_spec, Z.testbit_ones_nonneg, Z.pow2_bits_eqb by lia.
  destruct (Z.testbit f n) eqn:Hf; [|reflexivity]. rewrite andb_true_l.
  assert (n <> 1).
  { intros ->. apply (f_equal (fun x => Z.testbit x 1)) in Hbit.
    rewrite Z.land_spec, Hf in Hbit. discriminate. }
  assert (n < 32).
  { destruct (Z.ltb_spec n 32); [assumption|].
    rewrite (Z.bits_above_log2 f n) in Hf; [discriminate | lia |].
    destruct (Z.eq_dec f 0) as [->|]; [cbn; lia|].
    apply Z.log2_lt_pow2; [lia|]. unfold UINT_MAX in Hhi.
    apply Z.lt_le_trans with (2 ^ 32); [lia|]. apply Z.pow_le_mono_r; lia. }
  rewrite (proj2 (Z.ltb_lt n 32)), (proj2 (Z.eqb_neq 1 n)) by lia. reflexivity.
Qed.

(** ** [mf_put] *)

(** [mf_trans_add] leaves the flags of a live block, the dirty state of the
    memory file and the messages as they are. *)
Lemma mf_trans_add_frame hp h s :
  heap s !! hp = Some h ->
  hp ∉ mf_free_first (mfp s) ->
  exists h',
    heap (snd (mf_trans_add hp s)) !! hp = Some h' /\
    bh_flags h' = bh_flags h /\
    mf_dirty (mfp (snd (mf_trans_add hp s))) = mf_dirty (mfp s) /\
    msgs (snd (mf_trans_add hp s)) = msgs s.
Proof.
  intros Hh Hlive. unfold mf_trans_add.
  destruct (0 <=? bh_bnum (hdr s hp)); [cbn; eauto|].
  destruct (head (mf_free_first (mfp s))) as [freep|] eqn:Hhead.
  - assert (freep <> hp).
    { intros ->. apply Hlive. destruct (mf_free_first (mfp s)); [discriminate|].
      injection Hhead as ->. apply list_elem_of_here. }
    destruct (_ <=? bh_page_count (hdr s freep)).
    + destruct (_ <? bh_page_count (hdr s freep)).
      * cbn. heap_lookup. rewrite Hh. cbn. eauto.
      * cbn. rewrite Hhead. cbn. heap_lookup. rewrite Hh. cbn. eauto.
    + cbn. heap_lookup. rewrite Hh. cbn. eauto.
  - cbn. heap_lookup. rewrite Hh. cbn. eauto.
Qed.

(** C3, the claim as it stands: in the DIRTY_NO_SYNC state a locked block
    that is not dirty is dirty after [mf_put] with [dirty = true]. *)
Lemma mf_put_nosync_sets_block_dirty :
  let s := Demo.nosync_locked in
  let hp := 1%positive in
  mf_dirty (mfp s) = MF_DIRTY_YES_NOSYNC /\
  Z.land (bh_flags (hdr s hp)) BH_LOCKED = BH_LOCKED /\
  Z.land (bh_flags (hdr s hp)) BH_DIRTY = 0 /\
  Z.land (bh_flags (hdr (mf_put hp true false s) hp)) BH_DIRTY = BH_DIRTY /\
  mf_dirty (mfp (mf_put hp true false s)) = MF_DIRTY_YES_NOSYNC.
Proof. vm_compute. repeat split. Qed.

(** C3, amended.  For every locked block, [mf_put] with [dirty = true]
    clears the block's [BH_LOCKED] flag and sets its [BH_DIRTY] flag whatever
    the state of the memory file; only the dirty state of the memory file
    depends on DIRTY_NO_SYNC: it stays [MF_DIRTY_YES_NOSYNC] there and
    becomes [MF_DIRTY_YES] otherwise. *)
Theorem mf_put_dirty hp h infile s :
  heap s !! hp = Some h ->
  hp ∉ mf_free_first (mfp s) ->
  Z.land (bh_flags h) BH_LOCKED <> 0 ->
  exists h',
    heap (mf_put hp true infile s) !! hp = Some h' /\
    bh_flags h' = Z.lor (clear_flag (bh_flags h) BH_LOCKED) BH_DIRTY /\
    Z.land (bh_flags h') BH_LOCKED = 0 /\
    Z.land (bh_flags h') BH_DIRTY = BH_DIRTY /\
    mf_dirty (mfp (mf_put hp true infile s)) =
      (if decide (mf_dirty (mfp s) = MF_DIRTY_YES_NOSYNC)
       then MF_DIRTY_YES_NOSYNC else MF_DIRTY_YES) /\
    msgs (mf_put hp true infile s) = msgs s.
Proof.
  intros Hh Hlive Hlocked. unfold mf_put.
  rewrite (hdr_Some _ _ _ Hh).
  apply Z.eqb_neq in Hlocked. rewrite Hlocked.
  set (f' := Z.lor (clear_flag (bh_flags h) BH_LOCKED) BH_DIRTY).
  set (s1 := if decide (mf_dirty (mfp s) = MF_DIRTY_YES_NOSYNC) then s
             else set_mfp (with_dirty MF_DIRTY_YES) s).
  assert (Hs1 : heap s1 = heap s /\ mf_free_first (mfp s1) = mf_free_first (mfp s)
                /\ msgs s1 = msgs s
                /\ mf_dirty (mfp s1) =
                   (if decide (mf_dirty (mfp s) = MF_DIRTY_YES_NOSYNC)
                    then MF_DIRTY_YES_NOSYNC else MF_DIRTY_YES)).
  { subst s1. destruct (decide _) as [->|]; cbn; auto. }
  destruct Hs1 as (Hheap & Hfree & Hmsgs & Hdirty).
  assert (Hh' : heap (upd_hdr hp (with_flags f') s1) !! hp = Some (with_flags f' h)).
  { cbn. rewrite lookup_alter_eq, Hheap, Hh. reflexivity. }
  assert (Hflags : Z.land f' BH_LOCKED = 0 /\ Z.land f' BH_DIRTY = BH_DIRTY).
  { split; [apply put_flags_not_locked | apply put_flags_dirty]. }
  destruct infile.
  - destruct (mf_trans_add_frame hp _ _ Hh') as (h' & Hh'' & Hf & Hd & Hm);
      [cbn; rewrite Hfree; exact Hlive|].
    exists h'. rewrite Hd, Hm, Hf. cbn. rewrite Hdirty, Hmsgs. tauto.
  - eexists. split; [exact Hh'|]. cbn. rewrite Hdirty, Hmsgs. tauto.
Qed.

Lemma mf_put_dirty_witness :
  let s := Demo.nosync_locked in
  let hp := 1%positive in
  (heap s !! hp = Some (Bhdr 0 [7; 7] 1 BH_LOCKED) /\
   (hp ∉ mf_free_first (mfp s)) /\ Z.land BH_LOCKED BH_LOCKED <> 0) /\
  exists h',
    heap (mf_put hp true true s) !! hp = Some h' /\
    bh_flags h' = BH_DIRTY /\
    Z.land (bh_flags h') BH_LOCKED = 0 /\
    Z.land (bh_flags h') BH_DIRTY = BH_DIRTY /\
    mf_dirty (mfp (mf_put hp true true s)) = MF_DIRTY_YES_NOSYNC /\
    msgs (mf_put hp true true s) = [].
Proof.
  split.
  - split; [reflexivity|]. split; [|discriminate].
    cbn. apply not_elem_of_nil.
  - exact (mf_put_dirty 1%positive (Bhdr 0 [7; 7] 1 BH_LOCKED) true
             Demo.nosync_locked eq_refl (not_elem_of_nil _)
             ltac:(discriminate)).
Defined.

(** C2, the claim as it stands: [mf_put] with [dirty = true] on a block that
    is not locked gives the error and then marks the block and the memory
    file dirty all the same. *)
Lemma mf_put_not_locked_mutates :
  let s := Demo.clean_unlocked in
  let hp := 1%positive in
  Z.land (bh_flags (hdr s hp)) BH_LOCKED = 0 /\
  msgs (mf_put hp true false s) = [e_block_was_not_locked] /\
  bh_flags (hdr s hp) = 0 /\
  bh_flags (hdr (mf_put hp true false s) hp) = BH_DIRTY /\
  mf_dirty (mfp s) = MF_DIRTY_NO /\
  mf_dirty (mfp (mf_put hp true false s)) = MF_DIRTY_YES.
Proof. vm_compute. repeat split. Qed.

Lemma upd_hdr_same hp h s :
  heap s !! hp = Some h -> upd_hdr hp (with_flags (bh_flags h)) s = s.
Proof.
  intros Hh. destruct s as [m hs ? ? ? ? ? ? ? ?]. unfold upd_hdr, set_heap. cbn in *.
  f_equal. apply alter_id. intros h' Hh'.
  assert (h' = h) as -> by congruence. destruct h; reflexivity.
Qed.

Lemma mf_trans_add_msgs hp s : msgs (snd (mf_trans_add hp s)) = msgs s.
Proof.
  unfold mf_trans_add.
  destruct (0 <=? _); [reflexivity|].
  destruct (head (mf_free_first (mfp s))) as [freep|] eqn:Hhead; [|reflexivity].
  destruct (_ <=? bh_page_count (hdr s freep)); [|reflexivity].
  destruct (_ <? bh_page_count (hdr s freep)); [reflexivity|].
  cbn. rewrite Hhead. reflexivity.
Qed.

(** C2, amended.  For every allocated block whose [BH_LOCKED] flag is clear,
    [mf_put] adds the error "Block was not locked" to the messages.  If
    [dirty] is false and no translation is made ([infile] false, or a block
    number that is not negative), nothing else changes: the state after the
    call is the state before it with the message added, so that the flags of
    the block, the dirty state of the memory file and the translation table
    are as before. *)
Theorem mf_put_not_locked hp h dirty infile s :
  heap s !! hp = Some h ->
  is_uint (bh_flags h) ->
  Z.land (bh_flags h) BH_LOCKED = 0 ->
  msgs (mf_put hp dirty infile s) = e_block_was_not_locked :: msgs s /\
  (dirty = false -> infile = false \/ 0 <= bh_bnum h ->
   mf_put hp dirty infile s = emsg e_block_was_not_locked s).
Proof.
  intros Hh Huint Hunlocked. unfold mf_put.
  rewrite (hdr_Some _ _ _ Hh), Hunlocked. cbn [Z.eqb].
  rewrite (clear_flag_unset _ Huint Hunlocked).
  set (s0 := emsg e_block_was_not_locked s).
  assert (Hh0 : heap s0 !! hp = Some h) by exact Hh.
  split.
  - destruct dirty, infile; try rewrite mf_trans_add_msgs;
      try destruct (decide _); reflexivity.
  - intros -> Htrans.
    rewrite upd_hdr_same by exact Hh0.
    destruct infile; [|reflexivity].
    destruct Htrans as [|Hpos]; [discriminate|].
    unfold mf_trans_add. rewrite (hdr_Some _ _ _ Hh0).
    apply Z.leb_le in Hpos. rewrite Hpos. reflexivity.
Qed.

Lemma mf_put_not_locked_witness :
  let s := Demo.clean_unlocked in
  let hp := 1%positive in
  (heap s !! hp = Some (Bhdr 0 [7; 7] 1 0) /\ is_uint 0 /\ Z.land 0 BH_LOCKED = 0) /\
  msgs (mf_put hp false true s) = [e_block_was_not_locked] /\
  mf_put hp false true s = emsg e_block_was_not_locked s.
Proof.
  assert (Huint : is_uint 0) by (unfold is_uint, UINT_MAX; lia).
  split; [split; [reflexivity | split; [exact Huint | reflexivity]]|].
  destruct (mf_put_not_locked 1%positive (Bhdr 0 [7; 7] 1 0) false true
              Demo.clean_unlocked eq_refl Huint eq_refl) as [Hmsg Hsame].
  split; [exact Hmsg|].
  apply Hsame; [reflexivity | right; cbn; lia].
Defined.

(** ** [mf_get] *)

(** C6.  [mf_get] returns NULL when [nr >= mf_blocknr_max] or
    [nr <= mf_blocknr_min]; it also returns NULL when [nr] is not in the
    block index and [nr < 0] or [nr >= mf_infile_count] (the block cannot be
    in the file).  In all these cases the state is the one before the call. *)
Theorem mf_get_rejects nr page_count s :
  (mf_blocknr_max (mfp s) <= nr \/ nr <= mf_blocknr_min (mfp s)) \/
  (pmap_get nr (mf_hash (mfp s)) = None /\
   (nr < 0 \/ mf_infile_count (mfp s) <= nr)) ->
  mf_get nr page_count s = Some (None, s).
Proof.
  intros H. unfold mf_get.
  destruct (_ || _) eqn:Hrange; [reflexivity|].
  apply orb_false_elim in Hrange as [H1 H2].
  apply Z.leb_gt in H1, H2.
  destruct H as [H | [Habsent Hdisk]]; [lia|].
  rewrite Habsent.
  destruct (_ || _) eqn:Hfile; [reflexivity|].
  apply orb_false_elim in Hfile as [H3 H4].
  apply Z.ltb_ge in H3. apply Z.leb_gt in H4. lia.
Qed.

Lemma mf_get_rejects_witness :
  let s := Demo.one_block [] in
  let s2 := Demo.two_blocks [] in
  (mf_blocknr_max (mfp s) <= 1 /\ mf_get 1 1 s = Some (None, s)) /\
  ((mf_blocknr_min (mfp s2) < 2 < mf_blocknr_max (mfp s2) /\
    pmap_get 2 (mf_hash (mfp s2)) = None /\ mf_infile_count (mfp s2) <= 2) /\
   mf_get 2 1 s2 = Some (None, s2)).
Proof.
  split.
  - split; [vm_compute; discriminate|].
    apply mf_get_rejects. left. left. vm_compute. discriminate.
  - split; [split; [split; reflexivity | split; [reflexivity | vm_compute; discriminate]]|].
    apply mf_get_rejects. right.
    split; [reflexivity | right; vm_compute; discriminate].
Defined.

(** ** [mf_trans_del] *)

(** C7.  For an [old_nr] that the translation table holds, [mf_trans_del]
    takes the entry out, decrements [mf_neg_count] and returns the number
    recorded for it; a second call with the same [old_nr] then returns
    [old_nr].  For an [old_nr] that the table does not hold it returns
    [old_nr] and the state is the one before the call. *)
Theorem mf_trans_del_spec old_nr s :
  (forall new_nr, mf_trans (mfp s) !! old_nr = Some new_nr ->
     exists s',
       mf_trans_del old_nr s = (new_nr, s') /\
       mf_trans (mfp s') = delete old_nr (mf_trans (mfp s)) /\
       mf_neg_count (mfp s') = int64 (mf_neg_count (mfp s) - 1) /\
       (INT64_MIN < mf_neg_count (mfp s) <= INT64_MAX ->
        mf_neg_count (mfp s') = mf_neg_count (mfp s) - 1) /\
       mf_hash (mfp s') = mf_hash (mfp s) /\ heap s' = heap s /\
       mf_trans_del old_nr s' = (old_nr, s')) /\
  (mf_trans (mfp s) !! old_nr = None -> mf_trans_del old_nr s = (old_nr, s)).
Proof.
  split.
  - intros new_nr Hfound. unfold mf_trans_del. rewrite Hfound.
    eexists. split; [reflexivity|]. cbn.
    repeat split.
    + intros Hrange. apply int64_id. unfold is_int64. lia.
    + rewrite lookup_delete_eq. reflexivity.
  - intros Habsent. unfold mf_trans_del. rewrite Habsent. reflexivity.
Qed.

Lemma mf_trans_del_spec_witness :
  let s := Demo.translated [] in
  mf_trans (mfp s) !! (-1) = Some 0 /\
  fst (mf_trans_del (-1) s) = 0 /\
  mf_neg_count (mfp (snd (mf_trans_del (-1) s))) = mf_neg_count (mfp s) - 1 /\
  fst (mf_trans_del (-1) (snd (mf_trans_del (-1) s))) = -1 /\
  mf_trans (mfp Demo.nosync_locked) !! (-1) = None /\
  mf_trans_del (-1) Demo.nosync_locked = (-1, Demo.nosync_locked).
Proof.
  split; [reflexivity|].
  destruct (proj1 (mf_trans_del_spec (-1) (Demo.translated [])) 0 eq_refl)
    as (s' & Hdel & _ & _ & Hneg & _ & _ & Hagain).
  rewrite Hdel. cbn [fst snd]. rewrite Hagain.
  split; [reflexivity|].
  split; [apply Hneg; vm_compute; split; [reflexivity | discriminate]|].
  split; [reflexivity|]. split; [reflexivity|].
  apply (proj2 (mf_trans_del_spec (-1) Demo.nosync_locked)). reflexivity.
Defined.

(** ** [mf_sync] *)

(** C1, the claim as it stands: a dirty memory file whose only dirty block
    cannot be written is clean ([MF_DIRTY_NO]) when [mf_sync] returns, while
    the block itself is still dirty. *)
Lemma mf_sync_failure_clears_dirty :
  let s := Demo.one_block [0; 1] in
  0 <= mf_fd (mfp s) /\
  mf_dirty (mfp s) = MF_DIRTY_YES /\
  (exists hp s1,
     mf_sync_walk 1 MFS_ALL (List.map snd (mf_hash (mfp s))) OK
       (set_got_int false s) = Some (hp, FAIL, s1)) /\
  exists s',
    mf_sync 1 MFS_ALL s = Some (FAIL, s') /\
    mf_dirty (mfp s') = MF_DIRTY_NO /\
    mf_dirty (mfp s') <> MF_DIRTY_YES /\
    Z.land (bh_flags (hdr s' 1%positive)) BH_DIRTY = BH_DIRTY.
Proof.
  cbv zeta. split; [vm_compute; discriminate|]. split; [reflexivity|].
  split.
  - eexists _, _. vm_compute. reflexivity.
  - eexists. split; [vm_compute; reflexivity|].
    split; [reflexivity|]. split; [discriminate | reflexivity].
Qed.

(** C1, amended.  For every memory file with an open swap file, when the
    walk of [mf_sync] over the block index ends with the status FAIL,
    [mf_sync] returns FAIL and the dirty state of the memory file is
    [MF_DIRTY_NO] when it returns. *)
Theorem mf_sync_failed_walk fuel flags s hp s1 :
  0 <= mf_fd (mfp s) ->
  mf_sync_walk fuel flags (List.map snd (mf_hash (mfp s))) OK
    (set_got_int false s) = Some (hp, FAIL, s1) ->
  exists s',
    mf_sync fuel flags s = Some (FAIL, s') /\
    mf_dirty (mfp s') = MF_DIRTY_NO.
Proof.
  intros Hfd Hwalk. unfold mf_sync.
  apply Z.ltb_ge in Hfd. rewrite Hfd.
  change (mfp (set_got_int false s)) with (mfp s). rewrite Hwalk.
  rewrite orb_true_r.
  destruct (has_flag flags MFS_FLUSH).
  - destruct (os_fsync _) as [r s2] eqn:Hsync.
    eexists. split; [destruct (r =? 0); reflexivity|].
    unfold os_fsync, os_next in Hsync. injection Hsync as _ <-. reflexivity.
  - eexists. split; reflexivity.
Qed.

Lemma mf_sync_failed_walk_witness :
  let s := Demo.one_block [0; 1] in
  0 <= mf_fd (mfp s) /\
  exists s',
    mf_sync 1 MFS_ALL s = Some (FAIL, s') /\
    mf_dirty (mfp s') = MF_DIRTY_NO.
Proof.
  split; [vm_compute; discriminate|].
  refine (mf_sync_failed_walk 1 MFS_ALL (Demo.one_block [0; 1]) _ _ _ _).
  - vm_compute. discriminate.
  - vm_compute. reflexivity.
Defined.

(** *** A sync with MFS_ZERO *)

Lemma store_bytes_outside data : forall off f k,
  ~ (off <= k < off + Z.of_nat (length data)) ->
  store_bytes off data f !! k = f !! k.
Proof.
  induction data as [|b data IH]; intros off f k Hout; cbn in *; [reflexivity|].
  rewrite IH by lia. apply lookup_insert_ne. lia.
Qed.

Lemma zero_block_frame s s' hp h :
  zero_frame s s' -> zero_block s' hp h ->
  exists h0, zero_block s hp h0 /\ bh_data h0 = bh_data h /\
             bh_page_count h0 = bh_page_count h.
Proof.
  intros F (Hin & Hh & Hb). pose proof (zf_heap _ _ F hp) as Hheap.
  rewrite Hh in Hheap. destruct (heap s !! hp) as [h0|] eqn:Hh0; [|contradiction].
  destruct Hheap as (Hb' & Hd & Hp & _).
  exists h0. split; [|auto]. split; [|split; [exact Hh0 | congruence]].
  rewrite <- (zf_hash _ _ F). exact Hin.
Qed.

Lemma zero_frame_refl s : zero_frame s s.
Proof.
  constructor; try reflexivity; try lia.
  - intros hp. destruct (heap s !! hp); auto.
  - exists []. split; [reflexivity | constructor].
Qed.

Lemma zero_frame_trans s1 s2 s3 :
  zero_frame s1 s2 -> zero_frame s2 s3 -> zero_frame s1 s3.
Proof.
  intros F G. constructor.
  - rewrite (zf_hash _ _ G). apply (zf_hash _ _ F).
  - rewrite (zf_page_size _ _ G). apply (zf_page_size _ _ F).
  - rewrite (zf_fd _ _ G). apply (zf_fd _ _ F).
  - pose proof (zf_infile _ _ F). pose proof (zf_infile _ _ G). lia.
  - intros hp. pose proof (zf_heap _ _ F hp) as A. pose proof (zf_heap _ _ G hp) as B.
    destruct (heap s1 !! hp) as [h1|], (heap s2 !! hp) as [h2|],
      (heap s3 !! hp) as [h3|]; try contradiction; auto.
    destruct A as (A1 & A2 & A3 & A4), B as (B1 & B2 & B3 & B4).
    repeat split; try congruence.
    intros Hne. rewrite B4 by congruence. auto.
  - destruct (zf_writes _ _ F) as (n1 & E1 & W1).
    destruct (zf_writes _ _ G) as (n2 & E2 & W2).
    exists (n2 ++ n1). split; [rewrite E2, E1; apply app_assoc|].
    apply Forall_app. split; [|exact W1].
    eapply Forall_impl; [exact W2|].
    intros w (Hoff & hp & h & Hz & Hdata & Hlen).
    destruct (zero_block_frame _ _ _ _ F Hz) as (h0 & Hz0 & Hd & Hp).
    split; [exact Hoff|]. exists hp, h0.
    rewrite Hd, Hp, <- (zf_page_size _ _ F). auto.
  - intros off Hoff. rewrite (zf_bytes _ _ G); [apply (zf_bytes _ _ F), Hoff|].
    intros hp h Hz.
    destruct (zero_block_frame _ _ _ _ F Hz) as (h0 & Hz0 & Hd & Hp).
    rewrite (zf_page_size _ _ F), <- Hp. exact (Hoff hp h0 Hz0).
Qed.

Lemma vim_lseek_spec offset s :
  let r := fst (vim_lseek offset s) in
  let s1 := snd (vim_lseek offset s) in
  mfp s1 = mfp s /\ heap s1 = heap s /\ swap_bytes s1 = swap_bytes s /\
  swap_writes s1 = swap_writes s /\ msgs s1 = msgs s /\
  did_swapwrite_msg s1 = did_swapwrite_msg s /\
  ((r = offset /\ 0 <= offset /\ swap_pos s1 = offset) \/ r = -1).
Proof.
  unfold vim_lseek, os_next. cbn.
  destruct (hd 0 (os_replies s) =? 0); cbn; [|tauto].
  destruct (0 <=? offset) eqn:E; cbn; [|tauto].
  apply Z.leb_le in E. tauto.
Qed.

Lemma write_eintr_spec data size s :
  let n := fst (write_eintr data size s) in
  let s1 := snd (write_eintr data size s) in
  mfp s1 = mfp s /\ heap s1 = heap s /\ msgs s1 = msgs s /\
  did_swapwrite_msg s1 = did_swapwrite_msg s /\
  0 <= n /\ n <= Z.max 0 size /\
  swap_writes s1 = (swap_pos s, take (Z.to_nat n) data) :: swap_writes s /\
  swap_bytes s1 = store_bytes (swap_pos s) (take (Z.to_nat n) data) (swap_bytes s).
Proof. unfold write_eintr, os_next. cbn. repeat split; lia. Qed.

Lemma take_length_take {A} (n : nat) (l : list A) :
  take n l = take (length (take n l)) l.
Proof.
  rewrite length_take. destruct (Nat.le_ge_cases n (length l)).
  - rewrite Nat.min_l by assumption. reflexivity.
  - rewrite Nat.min_r by assumption. rewrite firstn_all, take_ge by lia. reflexivity.
Qed.

(** Writing a block 0 stays within its pages. *)
Lemma mf_write_zero fuel hp h s r s' :
  hp ∈ List.map snd (mf_hash (mfp s)) ->
  heap s !! hp = Some h ->
  bh_bnum h = 0 ->
  0 <= mf_infile_count (mfp s) ->
  mf_write fuel hp s = Some (r, s') ->
  zero_frame s s'.
Proof.
  intros Hin Hh Hb Hinfile. unfold mf_write.
  destruct (mf_fd (mfp s) <? 0); [intros [= <- <-]; apply zero_frame_refl|].
  rewrite (hdr_Some _ _ _ Hh), Hb. cbn [Z.ltb Z.compare].
  destruct fuel as [|fuel]; [discriminate|]. cbn [mf_write_loop].
  rewrite (hdr_Some _ _ _ Hh), Hb.
  apply Z.ltb_ge in Hinfile. rewrite Hinfile.
  rewrite Z.mul_0_r. change (int64 0) with 0.
  pose proof (vim_lseek_spec 0 s) as L.
  destruct (vim_lseek 0 s) as [r1 s1]. cbn [fst snd] in L.
  destruct L as (Lm & Lh & Lb & Lw & _ & _ & Lr).
  destruct (r1 =? 0) eqn:Hr1; cbn [negb].
  2:{ intros [= <- <-]. constructor; cbn; rewrite ?Lm, ?Lh, ?Lb, ?Lw; try reflexivity; try lia.
      - intros p. destruct (heap s !! p); auto.
      - exists []. split; [reflexivity | constructor]. }
  apply Z.eqb_eq in Hr1. destruct Lr as [(_ & _ & Lpos)|]; [|lia].
  assert (Hh1 : heap s1 !! hp = Some h) by (rewrite Lh; exact Hh).
  rewrite (hdr_Some _ _ _ Hh1).
  set (size := uint (mf_page_size (mfp s) * bh_page_count h)).
  pose proof (write_eintr_spec (bh_data h) size s1) as W.
  destruct (write_eintr (bh_data h) size s1) as [n s2]. cbn [fst snd] in W.
  destruct W as (Wm & Wh & _ & _ & Wn0 & Wn & Ww & Wb).
  rewrite Lpos in Ww, Wb. rewrite Lw in Ww. rewrite Lb in Wb.
  assert (Hsize : 0 <= size) by apply uint_range.
  assert (Hlen : Z.of_nat (length (take (Z.to_nat n) (bh_data h))) <= size).
  { rewrite length_take. lia. }
  assert (Hzw : zero_write s (0, take (Z.to_nat n) (bh_data h))).
  { split; [reflexivity|]. exists hp, h. split; [split; auto|]. cbn [snd].
    split; [|exact Hlen].
    apply take_length_take. }
  assert (Hbytes : forall off, off_block_zero s off ->
            swap_bytes s2 !! off = swap_bytes s !! off).
  { intros off Hoff. rewrite Wb. apply store_bytes_outside.
    specialize (Hoff hp h (conj Hin (conj Hh Hb))). fold size in Hoff. lia. }
  assert (Hwrites : exists new,
            swap_writes s2 = new ++ swap_writes s /\ Forall (zero_write s) new).
  { exists [(0, take (Z.to_nat n) (bh_data h))]. split; [exact Ww|].
    constructor; [exact Hzw | constructor]. }
  destruct (uint n =? size); cbn [negb].
  2:{ intros [= <- <-].
      constructor; cbn; rewrite ?Wm, ?Lm, ?Wh, ?Lh; try reflexivity; try lia; auto.
      - destruct (did_swapwrite_msg s2); cbn; rewrite ?Wm, ?Lm; reflexivity.
      - destruct (did_swapwrite_msg s2); cbn; rewrite ?Wm, ?Lm; reflexivity.
      - destruct (did_swapwrite_msg s2); cbn; rewrite ?Wm, ?Lm; reflexivity.
      - destruct (did_swapwrite_msg s2); cbn; rewrite ?Wm, ?Lm; lia.
      - intros p. destruct (did_swapwrite_msg s2); cbn; rewrite ?Wh, ?Lh;
          destruct (heap s !! p); auto.
      - destruct (did_swapwrite_msg s2); cbn; exact Hwrites.
      - destruct (did_swapwrite_msg s2); cbn; exact Hbytes. }
  set (s3 := upd_hdr hp _ _).
  assert (Hh3 : heap s3 !! hp = Some (with_flags (clear_flag (bh_flags h) BH_DIRTY) h)).
  { subst s3. cbn. rewrite lookup_alter_eq, Wh, Lh, Hh. reflexivity. }
  assert (Hm3 : mfp s3 = mfp s) by (subst s3; cbn; congruence).
  set (s4 := if mf_infile_count (mfp s3) <? _ then _ else s3).
  assert (H4 : heap s4 = heap s3 /\ mf_hash (mfp s4) = mf_hash (mfp s) /\
               mf_page_size (mfp s4) = mf_page_size (mfp s) /\
               mf_fd (mfp s4) = mf_fd (mfp s) /\
               mf_infile_count (mfp s) <= mf_infile_count (mfp s4) /\
               swap_writes s4 = swap_writes s2 /\ swap_bytes s4 = swap_bytes s2).
  { subst s4. destruct (mf_infile_count (mfp s3) <? _) eqn:E; cbn; rewrite ?Hm3.
    - apply Z.ltb_lt in E. rewrite Hm3 in E.
      repeat split; rewrite ?Wm, ?Lm; try reflexivity; lia.
    - repeat split; rewrite ?Wm, ?Lm; try reflexivity; lia. }
  destruct H4 as (H4h & H4a & H4b & H4c & H4d & H4e & H4f).
  assert (Hh4 : heap s4 !! hp = Some (with_flags (clear_flag (bh_flags h) BH_DIRTY) h))
    by (rewrite H4h; exact Hh3).
  rewrite (hdr_Some _ _ _ Hh4). cbn [bh_bnum with_flags]. rewrite Hb. cbn [Z.eqb].
  intros [= <- <-].
  constructor; auto.
  - intros p. rewrite H4h. subst s3. cbn. rewrite Wh, Lh.
    destruct (decide (p = hp)) as [->|Hne].
    + rewrite lookup_alter_eq, Hh. cbn. repeat split. intros Hnz. congruence.
    + rewrite lookup_alter_ne by congruence. destruct (heap s !! p); auto.
  - rewrite H4e. exact Hwrites.
  - intros off Hoff. rewrite H4f. apply Hbytes, Hoff.
Qed.

Lemma zero_frame_same s s' :
  mf_hash (mfp s') = mf_hash (mfp s) ->
  mf_page_size (mfp s') = mf_page_size (mfp s) ->
  mf_fd (mfp s') = mf_fd (mfp s) ->
  mf_infile_count (mfp s') = mf_infile_count (mfp s) ->
  heap s' = heap s ->
  swap_writes s' = swap_writes s ->
  swap_bytes s' = swap_bytes s ->
  zero_frame s s'.
Proof.
  intros Ha Hb Hc Hd He Hf Hg. constructor; auto; try lia.
  - intros hp. rewrite He. destruct (heap s !! hp); auto.
  - exists []. split; [exact Hf | constructor].
  - intros off _. rewrite Hg. reflexivity.
Qed.

Lemma zero_frame_os_char_avail s : zero_frame s (snd (os_char_avail s)).
Proof. apply zero_frame_same; reflexivity. Qed.

Lemma zero_frame_os_breakcheck s : zero_frame s (os_breakcheck s).
Proof.
  unfold os_breakcheck, os_next.
  destruct (hd 0 (os_replies s) =? 0); apply zero_frame_same; reflexivity.
Qed.

Lemma dirty_allocated s hp :
  has_flag (bh_flags (hdr s hp)) BH_DIRTY = true -> heap s !! hp = Some (hdr s hp).
Proof.
  unfold hdr. destruct (heap s !! hp); [reflexivity|]. cbn. discriminate.
Qed.

(** The walk of a sync with MFS_ZERO stays within the pages of block 0. *)
Lemma mf_sync_walk_zero fuel flags l :
  has_flag flags MFS_ZERO = true ->
  forall st s hp st' s',
    l ⊆ List.map snd (mf_hash (mfp s)) ->
    0 <= mf_infile_count (mfp s) ->
    mf_sync_walk fuel flags l st s = Some (hp, st', s') ->
    zero_frame s s'.
Proof.
  intros Hzero. induction l as [|p l IH]; intros st s hp st' s' Hsub Hinfile.
  - cbn. intros [= <- <- <-]. apply zero_frame_refl.
  - assert (Hl : l ⊆ List.map snd (mf_hash (mfp s))).
    { intros x Hx. apply Hsub. apply list_elem_of_further, Hx. }
    assert (Hp : p ∈ List.map snd (mf_hash (mfp s))).
    { apply Hsub. apply list_elem_of_here. }
    cbn [mf_sync_walk]. rewrite Hzero. cbn [andb].
    destruct (_ && _ && _) eqn:Hcond; [|apply IH; assumption].
    destruct (negb (bh_bnum (hdr s p) =? 0)) eqn:Hb; [apply IH; assumption|].
    apply negb_false_iff, Z.eqb_eq in Hb.
    apply andb_prop in Hcond as [Hcond _]. apply andb_prop in Hcond as [_ Hdirty].
    apply dirty_allocated in Hdirty.
    destruct (mf_write fuel p s) as [[r s1]|] eqn:Hwrite; [|discriminate].
    pose proof (mf_write_zero _ _ _ _ _ _ Hp Hdirty Hb Hinfile Hwrite) as F1.
    destruct (bool_decide (r = FAIL) && bool_decide (st = FAIL)).
    { intros [= <- <- <-]. exact F1. }
    set (st1 := if bool_decide (r = FAIL) then FAIL else st).
    assert (F2 : zero_frame s1
              (snd (if has_flag flags MFS_STOP then os_char_avail s1
                    else (false, os_breakcheck s1)))).
    { destruct (has_flag flags MFS_STOP);
        [apply zero_frame_os_char_avail | apply zero_frame_os_breakcheck]. }
    destruct (if has_flag flags MFS_STOP then os_char_avail s1
              else (false, os_breakcheck s1)) as [stop s2].
    cbn [snd] in F2. pose proof (zero_frame_trans _ _ _ F1 F2) as F.
    destruct stop; [intros [= <- <- <-]; exact F|].
    destruct (got_int s2); [intros [= <- <- <-]; exact F|].
    intros Hrest. eapply zero_frame_trans; [exact F|].
    eapply IH; [| |exact Hrest].
    + rewrite (zf_hash _ _ F). exact Hl.
    + pose proof (zf_infile _ _ F). lia.
Qed.

(** What a sync with MFS_ZERO leaves as it was. *)
Lemma mf_sync_zero_frame fuel flags s st s' :
  has_flag flags MFS_ZERO = true ->
  0 <= mf_infile_count (mfp s) ->
  mf_sync fuel flags s = Some (st, s') ->
  (exists new, swap_writes s' = new ++ swap_writes s /\ Forall (zero_write s) new) /\
  (forall hp h, heap s !! hp = Some h -> bh_bnum h <> 0 -> heap s' !! hp = Some h) /\
  (forall off, off_block_zero s off -> swap_bytes s' !! off = swap_bytes s !! off).
Proof.
  intros Hzero Hinfile Hsync.
  assert (F : zero_frame s s').
  { revert Hsync. unfold mf_sync.
    destruct (mf_fd (mfp s) <? 0).
    { intros [= <- <-]. apply zero_frame_same; reflexivity. }
    destruct (mf_sync_walk _ _ _ _ _) as [[[hp st1] s1]|] eqn:Hwalk; [|discriminate].
    apply mf_sync_walk_zero in Hwalk; [|exact Hzero|reflexivity|exact Hinfile].
    assert (F0 : zero_frame s (set_got_int false s))
      by (apply zero_frame_same; reflexivity).
    pose proof (zero_frame_trans _ _ _ F0 Hwalk) as F1.
    set (s2 := if _ || _ then _ else s1).
    assert (F2 : zero_frame s1 s2).
    { subst s2. destruct (_ || _); [apply zero_frame_same; reflexivity|].
      apply zero_frame_refl. }
    destruct (has_flag flags MFS_FLUSH).
    - unfold os_fsync, os_next. intros [= <- <-].
      eapply zero_frame_trans; [exact F1|].
      eapply zero_frame_trans; [exact F2|]. apply zero_frame_same; reflexivity.
    - intros [= <- <-].
      eapply zero_frame_trans; [exact F1|].
      eapply zero_frame_trans; [exact F2|]. apply zero_frame_same; reflexivity. }
  split; [exact (zf_writes _ _ F)|]. split; [|exact (zf_bytes _ _ F)].
  intros hp h Hh Hne. pose proof (zf_heap _ _ F hp) as Hheap.
  rewrite Hh in Hheap. destruct (heap s' !! hp); [|contradiction].
  destruct Hheap as (_ & _ & _ & Heq). rewrite Heq by exact Hne. reflexivity.
Qed.

Lemma hdr_same_heap s s' hp : heap s' = heap s -> hdr s' hp = hdr s hp.
Proof. unfold hdr. intros ->. reflexivity. Qed.

Lemma bnum_upd_flags hp (g : bhdr_T -> Z) s p :
  bh_bnum (hdr (upd_hdr hp (fun h => with_flags (g h) h) s) p) = bh_bnum (hdr s p).
Proof.
  unfold hdr, upd_hdr. cbn. destruct (decide (hp = p)) as [->|].
  - rewrite lookup_alter_eq. destruct (heap s !! p); reflexivity.
  - rewrite lookup_alter_ne by assumption. reflexivity.
Qed.

(** One round of the loop writes a block 0. *)
Lemma mf_write_zero_returns fuel hp s :
  bh_bnum (hdr s hp) = 0 ->
  0 <= mf_infile_count (mfp s) ->
  is_Some (mf_write (S fuel) hp s).
Proof.
  intros Hb Hinfile. unfold mf_write.
  destruct (mf_fd (mfp s) <? 0); [eauto|].
  rewrite Hb. cbn [Z.ltb Z.compare mf_write_loop]. rewrite Hb.
  apply Z.ltb_ge in Hinfile. rewrite Hinfile.
  pose proof (vim_lseek_spec (int64 (mf_page_size (mfp s) * 0)) s) as L.
  destruct (vim_lseek _ s) as [r1 s1]. cbn [fst snd] in L.
  destruct L as (Lm & Lh & _).
  destruct (negb _); [eauto|].
  set (size := uint _). set (data := bh_data _).
  pose proof (write_eintr_spec data size s1) as W.
  destruct (write_eintr data size s1) as [n s2]. cbn [fst snd] in W.
  destruct W as (Wm & Wh & _).
  destruct (negb _); [eauto|].
  set (s3 := upd_hdr hp _ _).
  assert (H3 : bh_bnum (hdr s3 hp) = 0).
  { subst s3. rewrite bnum_upd_flags.
    rewrite (hdr_same_heap s _ hp); [exact Hb|]. cbn. congruence. }
  set (s4 := if _ <? _ then _ else s3).
  assert (H4 : bh_bnum (hdr s4 hp) = 0).
  { subst s4. destruct (mf_infile_count (mfp s3) <? _); [|exact H3].
    rewrite (hdr_same_heap s3 _ hp); [exact H3 | reflexivity]. }
  rewrite H4. cbn. eauto.
Qed.

Lemma mf_sync_walk_zero_returns fuel flags l :
  has_flag flags MFS_ZERO = true ->
  forall st s,
    l ⊆ List.map snd (mf_hash (mfp s)) ->
    0 <= mf_infile_count (mfp s) ->
    is_Some (mf_sync_walk (S fuel) flags l st s).
Proof.
  intros Hzero. induction l as [|p l IH]; intros st s Hsub Hinfile; [cbn; eauto|].
  assert (Hl : l ⊆ List.map snd (mf_hash (mfp s))).
  { intros x Hx. apply Hsub. apply list_elem_of_further, Hx. }
  assert (Hp : p ∈ List.map snd (mf_hash (mfp s))).
  { apply Hsub. apply list_elem_of_here. }
  cbn [mf_sync_walk]. rewrite Hzero. cbn [andb].
  destruct (_ && _ && _) eqn:Hcond; [|apply IH; assumption].
  destruct (negb (bh_bnum (hdr s p) =? 0)) eqn:Hb; [apply IH; assumption|].
  apply negb_false_iff, Z.eqb_eq in Hb.
  apply andb_prop in Hcond as [Hcond _]. apply andb_prop in Hcond as [_ Hdirty].
  apply dirty_allocated in Hdirty.
  destruct (mf_write_zero_returns fuel p s Hb Hinfile) as [[r s1] Hwrite].
  rewrite Hwrite.
  pose proof (mf_write_zero _ _ _ _ _ _ Hp Hdirty Hb Hinfile Hwrite) as F1.
  destruct (bool_decide (r = FAIL) && bool_decide (st = FAIL)); [eauto|].
  assert (F2 : zero_frame s1
            (snd (if has_flag flags MFS_STOP then os_char_avail s1
                  else (false, os_breakcheck s1)))).
  { destruct (has_flag flags MFS_STOP);
      [apply zero_frame_os_char_avail | apply zero_frame_os_breakcheck]. }
  destruct (if has_flag flags MFS_STOP then os_char_avail s1
            else (false, os_breakcheck s1)) as [stop s2].
  cbn [snd] in F2. pose proof (zero_frame_trans _ _ _ F1 F2) as F.
  destruct stop; [eauto|]. destruct (got_int s2); [eauto|].
  apply IH.
  - rewrite (zf_hash _ _ F). exact Hl.
  - pose proof (zf_infile _ _ F). lia.
Qed.

(** With MFS_ZERO one round of [mf_write] per block suffices for [mf_sync]
    to return. *)
Lemma mf_sync_zero_returns fuel flags s :
  has_flag flags MFS_ZERO = true ->
  0 <= mf_infile_count (mfp s) ->
  is_Some (mf_sync (S fuel) flags s).
Proof.
  intros Hzero Hinfile. unfold mf_sync.
  destruct (mf_fd (mfp s) <? 0); [eauto|].
  destruct (mf_sync_walk_zero_returns fuel flags
              (List.map snd (mf_hash (mfp (set_got_int false s)))) Hzero OK
              (set_got_int false s)) as [[[hp st] s1] ->]; [reflexivity|exact Hinfile|].
  destruct (has_flag flags MFS_FLUSH); [|eauto].
  destruct (os_fsync _). eauto.
Qed.

(** C9.  During [mf_sync] with MFS_ZERO nothing but a block with the number
    0 is written to the swap file.  The call returns (one round of
    [mf_write] per block is enough), and whenever it returns: every write
    of the call starts at offset 0 and carries bytes of a block 0; every
    block with another number keeps its header, the [BH_DIRTY] flag
    included; and every byte of the file outside the pages of block 0 (the
    pages of the other blocks among them) is what it was. *)
Theorem mf_sync_zero flags s :
  has_flag flags MFS_ZERO = true ->
  0 <= mf_infile_count (mfp s) ->
  (forall fuel, is_Some (mf_sync (S fuel) flags s)) /\
  forall fuel st s',
    mf_sync fuel flags s = Some (st, s') ->
    (exists new, swap_writes s' = new ++ swap_writes s /\
                 Forall (zero_write s) new) /\
    (forall hp h, heap s !! hp = Some h -> bh_bnum h <> 0 ->
                  heap s' !! hp = Some h) /\
    (forall off, off_block_zero s off ->
                 swap_bytes s' !! off = swap_bytes s !! off).
Proof.
  intros Hzero Hinfile. split.
  - intros fuel. apply mf_sync_zero_returns; assumption.
  - intros fuel st s' Hsync. eapply mf_sync_zero_frame; eassumption.
Qed.

Lemma mf_sync_zero_witness :
  let s := Demo.two_blocks [] in
  (has_flag MFS_ZERO MFS_ZERO = true /\ 0 <= mf_infile_count (mfp s)) /\
  exists s',
    mf_sync 1 MFS_ZERO s = Some (OK, s') /\
    swap_writes s' = [(0, [0; 0])] /\
    heap s' !! 2%positive = Some (Bhdr 1 [0; 0; 0; 0] 2 BH_DIRTY).
Proof.
  assert (Hinfile : 0 <= mf_infile_count (mfp (Demo.two_blocks []))) by reflexivity.
  split; [split; [reflexivity | exact Hinfile]|].
  destruct (mf_sync 1 MFS_ZERO (Demo.two_blocks [])) as [[st s']|] eqn:Hsync;
    [|vm_compute in Hsync; discriminate].
  destruct (proj2 (mf_sync_zero MFS_ZERO (Demo.two_blocks []) eq_refl Hinfile)
              1%nat st s' Hsync) as (_ & Hkeep & _).
  exists s'. split; [f_equal; f_equal; vm_compute in Hsync; congruence|].
  split; [vm_compute in Hsync; injection Hsync as _ <-; reflexivity|].
  apply Hkeep; [reflexivity | discriminate].
Defined.

(** ** [mf_infile_count] never decreases *)

Ltac split_cases := repeat case_match; simplify_eq.

Lemma mf_trans_add_infile hp s :
  mf_infile_count (mfp (snd (mf_trans_add hp s))) = mf_infile_count (mfp s).
Proof.
  unfold mf_trans_add, mf_rem_free. split_cases; reflexivity.
Qed.

Lemma mf_new_infile negative page_count s :
  mf_infile_count (mfp (snd (mf_new negative page_count s))) = mf_infile_count (mfp s).
Proof.
  unfold mf_new, mf_rem_free, mf_alloc_bhdr. split_cases; reflexivity.
Qed.

Lemma mf_read_infile hp s r s' :
  mf_read hp s = Some (r, s') -> mf_infile_count (mfp s') = mf_infile_count (mfp s).
Proof.
  unfold mf_read, vim_lseek, read_eintr, os_next.
  intros; split_cases; reflexivity.
Qed.

Lemma mf_get_infile nr page_count s r s' :
  mf_get nr page_count s = Some (r, s') ->
  mf_infile_count (mfp s') = mf_infile_count (mfp s).
Proof.
  unfold mf_get, mf_alloc_bhdr.
  destruct (_ || _); [intros [= <- <-]; reflexivity|].
  destruct (pmap_get _ _); [intros [= <- <-]; reflexivity|].
  destruct (_ || _); [intros [= <- <-]; reflexivity|].
  destruct (negb _); [intros [= <- <-]; reflexivity|].
  destruct (mf_read _ _) as [[[] s1]|] eqn:Hread; [| |discriminate];
    intros [= <- <-]; apply mf_read_infile in Hread; exact Hread.
Qed.

Lemma mf_put_infile hp dirty infile s :
  mf_infile_count (mfp (mf_put hp dirty infile s)) = mf_infile_count (mfp s).
Proof.
  unfold mf_put.
  destruct dirty, infile; cbv beta iota zeta; rewrite ?mf_trans_add_infile;
    split_cases; reflexivity.
Qed.

Lemma mf_free_infile hp s :
  mf_infile_count (mfp (mf_free hp s)) = mf_infile_count (mfp s).
Proof. unfold mf_free. split_cases; reflexivity. Qed.

Lemma mf_trans_del_infile old_nr s :
  mf_infile_count (mfp (snd (mf_trans_del old_nr s))) = mf_infile_count (mfp s).
Proof. unfold mf_trans_del. split_cases; reflexivity. Qed.

Lemma mf_set_dirty_infile s :
  mf_infile_count (mfp (mf_set_dirty s)) = mf_infile_count (mfp s).
Proof.
  unfold mf_set_dirty. cbn.
  generalize (List.map snd (mf_hash (mfp s))). intros l. revert s.
  induction l as [|p l IH]; intros s; [reflexivity|].
  cbn [fold_left]. rewrite IH. destruct (0 <? _); reflexivity.
Qed.

Lemma mf_open_file_infile s :
  mf_infile_count (mfp (snd (mf_open_file s))) = mf_infile_count (mfp s).
Proof.
  unfold mf_open_file, mf_do_open, os_next. split_cases; reflexivity.
Qed.

Lemma mf_write_loop_infile fuel page_size hp : forall s r s',
  mf_write_loop fuel page_size hp s = Some (r, s') ->
  mf_infile_count (mfp s) <= mf_infile_count (mfp s').
Proof.
  induction fuel as [|fuel IH]; intros s r s'; [discriminate|].
  cbn [mf_write_loop].
  set (nh := if mf_infile_count (mfp s) <? _ then _ else _).
  destruct nh as [nr hp2].
  pose proof (vim_lseek_spec (int64 (page_size * nr)) s) as L.
  destruct (vim_lseek _ s) as [r1 s1]. cbn [fst snd] in L.
  destruct L as (Lm & _).
  destruct (negb _); [intros [= <- <-]; cbn; rewrite Lm; lia|].
  set (size := uint _). set (data := match hp2 with Some _ => _ | None => _ end).
  pose proof (write_eintr_spec data size s1) as W.
  destruct (write_eintr data size s1) as [n s2]. cbn [fst snd] in W.
  destruct W as (Wm & _).
  destruct (negb _).
  { intros [= <- <-]. destruct (did_swapwrite_msg s2); cbn; rewrite Wm, Lm; lia. }
  set (s3 := match hp2 with Some _ => _ | None => _ end).
  assert (H3 : mfp s3 = mfp s) by (subst s3; destruct hp2; cbn; congruence).
  set (s4 := if mf_infile_count (mfp s3) <? _ then _ else s3).
  assert (H4 : mf_infile_count (mfp s) <= mf_infile_count (mfp s4)).
  { subst s4. destruct (mf_infile_count (mfp s3) <? _) eqn:E.
    - apply Z.ltb_lt in E. rewrite H3 in E. cbn. lia.
    - rewrite H3. lia. }
  destruct (nr =? _); [intros [= <- <-]; exact H4|].
  intros Hrest. apply IH in Hrest. lia.
Qed.

Lemma mf_write_infile fuel hp s r s' :
  mf_write fuel hp s = Some (r, s') ->
  mf_infile_count (mfp s) <= mf_infile_count (mfp s').
Proof.
  unfold mf_write. destruct (mf_fd (mfp s) <? 0); [intros [= <- <-]; lia|].
  destruct (bh_bnum (hdr s hp) <? 0).
  - pose proof (mf_trans_add_infile hp s) as Hadd.
    destruct (mf_trans_add hp s) as [[] s1]; cbn [snd] in Hadd.
    + intros Hloop. apply mf_write_loop_infile in Hloop. lia.
    + intros [= <- <-]. lia.
  - apply mf_write_loop_infile.
Qed.

Lemma mf_sync_walk_infile fuel flags l : forall st s hp st' s',
  mf_sync_walk fuel flags l st s = Some (hp, st', s') ->
  mf_infile_count (mfp s) <= mf_infile_count (mfp s').
Proof.
  induction l as [|p l IH]; intros st s hp st' s'; cbn [mf_sync_walk].
  - intros [= <- <- <-]. lia.
  - destruct (_ && _ && _); [|apply IH].
    destruct (_ && negb _); [apply IH|].
    destruct (mf_write fuel p s) as [[r s1]|] eqn:Hwrite; [|discriminate].
    apply mf_write_infile in Hwrite.
    destruct (_ && _); [intros [= <- <- <-]; exact Hwrite|].
    assert (Hos : mf_infile_count (mfp
              (snd (if has_flag flags MFS_STOP then os_char_avail s1
                    else (false, os_breakcheck s1)))) = mf_infile_count (mfp s1)).
    { unfold os_char_avail, os_breakcheck, os_next. split_cases; reflexivity. }
    destruct (if has_flag flags MFS_STOP then os_char_avail s1
              else (false, os_breakcheck s1)) as [stop s2]. cbn [snd] in Hos.
    destruct stop; [intros [= <- <- <-]; lia|].
    destruct (got_int s2); [intros [= <- <- <-]; lia|].
    intros Hrest. apply IH in Hrest. lia.
Qed.

Lemma mf_sync_infile fuel flags s st s' :
  mf_sync fuel flags s = Some (st, s') ->
  mf_infile_count (mfp s) <= mf_infile_count (mfp s').
Proof.
  unfold mf_sync. destruct (mf_fd (mfp s) <? 0); [intros [= <- <-]; cbn; lia|].
  destruct (mf_sync_walk _ _ _ _ _) as [[[hp st1] s1]|] eqn:Hwalk; [|discriminate].
  apply mf_sync_walk_infile in Hwalk. cbn in Hwalk.
  unfold os_fsync, os_next. intros Hret.
  split_cases; cbn; lia.
Qed.

Lemma mf_release_loop_infile wfuel fuel : forall i retval s r s',
  mf_release_loop wfuel fuel i retval s = Some (r, s') ->
  mf_infile_count (mfp s) <= mf_infile_count (mfp s').
Proof.
  induction fuel as [|fuel IH]; intros i retval s r s'; [discriminate|].
  cbn [mf_release_loop].
  destruct (mf_hash (mfp s) !! i) as [[k hp]|]; [|intros [= <- <-]; lia].
  destruct (has_flag _ BH_LOCKED); [apply IH|].
  destruct (negb _).
  - intros Hrest. apply IH in Hrest. exact Hrest.
  - destruct (mf_write wfuel hp s) as [[[] s1]|] eqn:Hwrite; [| |discriminate];
      apply mf_write_infile in Hwrite; intros Hrest; apply IH in Hrest;
      cbn in Hrest; lia.
Qed.

Lemma mf_release_all_infile wfuel fuel s r s' :
  mf_release_all wfuel fuel s = Some (r, s') ->
  mf_infile_count (mfp s) <= mf_infile_count (mfp s').
Proof.
  unfold mf_release_all. destruct (0 <=? _); [apply mf_release_loop_infile|].
  intros [= <- <-]. lia.
Qed.

(** No call on an open memory file takes [mf_infile_count] down. *)
Lemma run_infile fuel op s s' :
  run fuel op s = Some s' ->
  mf_infile_count (mfp s) <= mf_infile_count (mfp s').
Proof.
  destruct op; cbn [run].
  - intros [= <-]. rewrite mf_new_infile. lia.
  - destruct (mf_get _ _ _) as [[r s1]|] eqn:Hget; [|discriminate].
    intros [= <-]. apply mf_get_infile in Hget. cbn. lia.
  - intros [= <-]. rewrite mf_put_infile. lia.
  - intros [= <-]. rewrite mf_free_infile. lia.
  - destruct (mf_sync _ _ _) as [[r s1]|] eqn:Hsync; [|discriminate].
    intros [= <-]. apply mf_sync_infile in Hsync. exact Hsync.
  - intros [= <-]. rewrite mf_set_dirty_infile. lia.
  - destruct (mf_release_all _ _ _) as [[r s1]|] eqn:Hrel; [|discriminate].
    intros [= <-]. apply mf_release_all_infile in Hrel. exact Hrel.
  - intros [= <-]. rewrite mf_trans_del_infile. lia.
  - intros [= <-]. cbn. lia.
  - intros [= <-]. rewrite mf_open_file_infile. lia.
Qed.

Lemma page_count_upd_flags hp (g : bhdr_T -> Z) s p :
  bh_page_count (hdr (upd_hdr hp (fun h => with_flags (g h) h) s) p)
  = bh_page_count (hdr s p).
Proof.
  unfold hdr, upd_hdr. cbn. destruct (decide (hp = p)) as [->|].
  - rewrite lookup_alter_eq. destruct (heap s !! p); reflexivity.
  - rewrite lookup_alter_ne by assumption. reflexivity.
Qed.

Lemma data_upd_flags hp (g : bhdr_T -> Z) s p :
  bh_data (hdr (upd_hdr hp (fun h => with_flags (g h) h) s) p) = bh_data (hdr s p).
Proof.
  unfold hdr, upd_hdr. cbn. destruct (decide (hp = p)) as [->|].
  - rewrite lookup_alter_eq. destruct (heap s !! p); reflexivity.
  - rewrite lookup_alter_ne by assumption. reflexivity.
Qed.

(** One round of the loop of [mf_write], from the state [s] on.  The round
    writes the block [hp2] (or one filler page) at the page [nr]. *)
Lemma mf_write_round fuel page_size hp s :
  let gap := mf_infile_count (mfp s) <? bh_bnum (hdr s hp) in
  let nr := if gap then mf_infile_count (mfp s) else bh_bnum (hdr s hp) in
  let hp2 := if gap then pmap_get nr (mf_hash (mfp s)) else Some hp in
  let page_count := match hp2 with
                    | None => 1
                    | Some hp2 => bh_page_count (hdr s hp2)
                    end in
  let size := uint (page_size * page_count) in
  let data := match hp2 with
              | None => bh_data (hdr s hp)
              | Some hp2 => bh_data (hdr s hp2)
              end in
  let offset := int64 (page_size * nr) in
  (* the seek fails *)
  (exists s', mf_write_loop (S fuel) page_size hp s = Some (FAIL, s') /\
      mfp s' = mfp s /\ heap s' = heap s /\ swap_bytes s' = swap_bytes s) \/
  (* the write fails *)
  (exists s' n pos, mf_write_loop (S fuel) page_size hp s = Some (FAIL, s') /\
      mfp s' = mfp s /\ heap s' = heap s /\ (0 <= offset -> pos = offset) /\
      swap_bytes s' = store_bytes pos (take n data) (swap_bytes s)) \/
  (* the round succeeds *)
  (exists s' pos,
      mf_write_loop (S fuel) page_size hp s =
        (if gap then mf_write_loop fuel page_size hp s' else Some (OK, s')) /\
      (0 <= offset -> pos = offset) /\
      swap_bytes s' = store_bytes pos (take (Z.to_nat size) data) (swap_bytes s) /\
      mf_infile_count (mfp s') =
        Z.max (mf_infile_count (mfp s)) (int64 (nr + page_count)) /\
      mf_hash (mfp s') = mf_hash (mfp s) /\
      mf_page_size (mfp s') = mf_page_size (mfp s) /\
      (forall p, bh_bnum (hdr s' p) = bh_bnum (hdr s p) /\
                 bh_page_count (hdr s' p) = bh_page_count (hdr s p) /\
                 bh_data (hdr s' p) = bh_data (hdr s p) /\
                 (is_Some (heap s' !! p) <-> is_Some (heap s !! p)))).
Proof.
  cbv zeta. cbn [mf_write_loop].
  set (gap := mf_infile_count (mfp s) <? bh_bnum (hdr s hp)).
  set (nr := if gap then mf_infile_count (mfp s) else bh_bnum (hdr s hp)).
  set (hp2 := if gap then pmap_get nr (mf_hash (mfp s)) else Some hp).
  assert (Hnh : (if gap then (mf_infile_count (mfp s),
                              pmap_get (mf_infile_count (mfp s)) (mf_hash (mfp s)))
                 else (bh_bnum (hdr s hp), Some hp)) = (nr, hp2)).
  { subst nr hp2. destruct gap; reflexivity. }
  rewrite Hnh. clear Hnh.
  pose proof (vim_lseek_spec (int64 (page_size * nr)) s) as L.
  destruct (vim_lseek _ s) as [r1 s1]. cbn [fst snd] in L.
  destruct L as (Lm & Lh & Lb & Lw & _ & _ & Lr).
  destruct (r1 =? int64 (page_size * nr)) eqn:Hr1; cbn [negb].
  2:{ left. eexists. split; [reflexivity|]. cbn. auto. }
  apply Z.eqb_eq in Hr1.
  assert (Hhdr1 : forall p, hdr s1 p = hdr s p) by (intros; apply hdr_same_heap, Lh).
  assert (Hpc : match hp2 with
                | Some hp3 => bh_page_count (hdr s1 hp3)
                | None => 1
                end = match hp2 with
                      | Some hp3 => bh_page_count (hdr s hp3)
                      | None => 1
                      end) by (destruct hp2; rewrite ?Hhdr1; reflexivity).
  assert (Hdata : match hp2 with
                  | Some hp3 => bh_data (hdr s1 hp3)
                  | None => bh_data (hdr s1 hp)
                  end = match hp2 with
                        | Some hp3 => bh_data (hdr s hp3)
                        | None => bh_data (hdr s hp)
                        end) by (destruct hp2; rewrite ?Hhdr1; reflexivity).
  rewrite Hpc, Hdata. clear Hpc Hdata.
  set (page_count := match hp2 with Some _ => _ | None => 1 end).
  set (size := uint (page_size * page_count)).
  set (data := match hp2 with Some _ => _ | None => _ end).
  pose proof (write_eintr_spec data size s1) as W.
  destruct (write_eintr data size s1) as [n s2]. cbn [fst snd] in W.
  destruct W as (Wm & Wh & _ & _ & Wn0 & Wn & Ww & Wb).
  assert (Hpos : 0 <= int64 (page_size * nr) -> swap_pos s1 = int64 (page_size * nr)).
  { intros Hoff. destruct Lr as [(_ & _ & ?)|Hfail]; [assumption|]. lia. }
  assert (Hheap2 : heap s2 = heap s) by congruence.
  assert (Hmfp2 : mfp s2 = mfp s) by congruence.
  destruct (uint n =? size) eqn:Hn; cbn [negb].
  2:{ right. left. exists (set_did_swapwrite_msg true
                            (if did_swapwrite_msg s2 then s2 else emsg e_write s2)),
                          (Z.to_nat n), (swap_pos s1).
      split; [reflexivity|].
      destruct (did_swapwrite_msg s2); cbn; rewrite Wb, Lb; auto. }
  right. right.
  assert (Hsize : is_uint size) by apply uint_range.
  assert (Hnsize : n = size).
  { apply Z.eqb_eq in Hn. rewrite uint_id in Hn; [exact Hn|].
    unfold is_uint in *. lia. }
  set (s3 := match hp2 with Some _ => _ | None => _ end).
  assert (H3 : mfp s3 = mfp s /\ swap_bytes s3 = swap_bytes s2 /\
               forall p, bh_bnum (hdr s3 p) = bh_bnum (hdr s p) /\
                         bh_page_count (hdr s3 p) = bh_page_count (hdr s p) /\
                         bh_data (hdr s3 p) = bh_data (hdr s p) /\
                         (is_Some (heap s3 !! p) <-> is_Some (heap s !! p))).
  { subst s3. destruct hp2 as [p2|].
    - split; [exact Hmfp2|]. split; [reflexivity|]. intros p.
      rewrite bnum_upd_flags, page_count_upd_flags, data_upd_flags.
      rewrite (hdr_same_heap s _ p) by exact Hheap2.
      repeat split; cbn; rewrite Hheap2.
      + intros [h Hh]. apply lookup_alter_Some in Hh as [(_ & h' & Hh' & _)|[_ Hh']]; eauto.
      + intros [h Hh]. destruct (decide (p2 = p)) as [->|Hne].
        * rewrite lookup_alter_eq, Hh. cbn. eauto.
        * rewrite lookup_alter_ne by assumption. eauto.
    - split; [exact Hmfp2|]. split; [reflexivity|]. intros p.
      rewrite (hdr_same_heap s _ p) by exact Hheap2.
      repeat split; cbn; rewrite Hheap2; auto. }
  destruct H3 as (H3m & H3b & H3h).
  set (s4 := if mf_infile_count (mfp s3) <? _ then _ else s3).
  assert (H4 : mf_infile_count (mfp s4) =
               Z.max (mf_infile_count (mfp s)) (int64 (nr + page_count)) /\
               mf_hash (mfp s4) = mf_hash (mfp s) /\
               mf_page_size (mfp s4) = mf_page_size (mfp s) /\
               heap s4 = heap s3 /\ swap_bytes s4 = swap_bytes s3).
  { subst s4. rewrite H3m.
    destruct (mf_infile_count (mfp s) <? int64 (nr + page_count)) eqn:E; cbn;
      rewrite ?H3m; repeat split; try reflexivity.
    - apply Z.ltb_lt in E. lia.
    - apply Z.ltb_ge in E. lia. }
  destruct H4 as (H4i & H4h & H4p & H4heap & H4b).
  assert (Hhdr4 : forall p, hdr s4 p = hdr s3 p) by (intros; apply hdr_same_heap, H4heap).
  exists s4, (swap_pos s1). split.
  - rewrite Hhdr4. rewrite (proj1 (H3h hp)).
    subst nr. unfold gap. destruct (mf_infile_count (mfp s) <? bh_bnum (hdr s hp)) eqn:E.
    + apply Z.ltb_lt in E. rewrite (proj2 (Z.eqb_neq _ _)) by lia. reflexivity.
    + rewrite Z.eqb_refl. reflexivity.
  - split; [exact Hpos|].
    split; [rewrite H4b, H3b, Wb, Lb, Hnsize; reflexivity|].
    split; [exact H4i|]. split; [exact H4h|]. split; [exact H4p|].
    intros p. rewrite Hhdr4, H4heap. apply H3h.
Qed.

(** After a successful [mf_write] of [*hp] the file reaches the end of the
    block. *)
Lemma mf_write_loop_reaches fuel page_size hp : forall s s',
  mf_write_loop fuel page_size hp s = Some (OK, s') ->
  int64 (bh_bnum (hdr s' hp) + bh_page_count (hdr s' hp))
    <= mf_infile_count (mfp s').
Proof.
  induction fuel as [|fuel IH]; intros s s'; [discriminate|].
  destruct (mf_write_round fuel page_size hp s)
    as [(s1 & -> & _)|[(s1 & n & pos & -> & _)|(s1 & pos & -> & _ & _ & Hi & _ & _ & Hh)]];
    [discriminate | discriminate |].
  destruct (mf_infile_count (mfp s) <? bh_bnum (hdr s hp)); [apply IH|].
  intros [= <-]. destruct (Hh hp) as (-> & -> & _). rewrite Hi. lia.
Qed.

Lemma mf_write_reaches fuel hp s s' :
  mf_write fuel hp s = Some (OK, s') ->
  int64 (bh_bnum (hdr s' hp) + bh_page_count (hdr s' hp))
    <= mf_infile_count (mfp s').
Proof.
  unfold mf_write. destruct (mf_fd (mfp s) <? 0); [discriminate|].
  destruct (if bh_bnum (hdr s hp) <? 0 then mf_trans_add hp s else (OK, s))
    as [[] s1]; [apply mf_write_loop_reaches | discriminate].
Qed.

(** ** No holes *)

Lemma store_bytes_written data : forall off f k,
  is_Some (f !! k) \/ off <= k < off + Z.of_nat (length data) ->
  is_Some (store_bytes off data f !! k).
Proof.
  induction data as [|b data IH]; intros off f k H; cbn in *.
  - destruct H as [H|H]; [exact H | lia].
  - apply IH. destruct (decide (off = k)) as [->|Hne].
    + left. rewrite lookup_insert_eq. eauto.
    + destruct H as [H|H]; [left; rewrite lookup_insert_ne by assumption; exact H|].
      right. lia.
Qed.

Lemma pmap_get_elem k p m : pmap_get k m = Some p -> (k, p) ∈ m.
Proof.
  unfold pmap_get. induction m as [|[k' p'] m IH]; cbn; [discriminate|].
  destruct (k' =? k) eqn:E.
  - cbn. intros [= ->]. apply Z.eqb_eq in E as ->. apply list_elem_of_here.
  - intros H. apply list_elem_of_further, IH, H.
Qed.

Lemma sized_hdr s p :
  sized s p ->
  1 <= bh_page_count (hdr s p) /\
  mf_page_size (mfp s) * bh_page_count (hdr s p) <= UINT_MAX /\
  length (bh_data (hdr s p)) =
    Z.to_nat (mf_page_size (mfp s) * bh_page_count (hdr s p)).
Proof. intros (h & Hh & H). rewrite (hdr_Some _ _ _ Hh). exact H. Qed.

Lemma sized_frame s s' p :
  mf_page_size (mfp s') = mf_page_size (mfp s) ->
  bh_page_count (hdr s' p) = bh_page_count (hdr s p) ->
  bh_data (hdr s' p) = bh_data (hdr s p) ->
  (is_Some (heap s' !! p) <-> is_Some (heap s !! p)) ->
  sized s p -> sized s' p.
Proof.
  intros Hps Hpc Hdata Halloc Hs. pose proof (sized_hdr _ _ Hs) as H.
  destruct Hs as (h & Hh & _).
  destruct (proj2 Halloc (ex_intro _ h Hh)) as [h' Hh'].
  exists h'. split; [exact Hh'|].
  rewrite (hdr_Some _ _ _ Hh') in Hpc, Hdata. rewrite Hpc, Hdata, Hps. exact H.
Qed.

(** One round of the loop on a block that is ready to be written: it fails
    and leaves the file no shorter, or it writes the pages from [nr] on and
    moves [mf_infile_count] past them. *)
Lemma mf_write_round_ready fuel hp s :
  write_ready s hp ->
  let ps := mf_page_size (mfp s) in
  let gap := mf_infile_count (mfp s) <? bh_bnum (hdr s hp) in
  (exists s',
      mf_write_loop (S fuel) ps hp s = Some (FAIL, s') /\
      mfp s' = mfp s /\ (forall off, written s off -> written s' off)) \/
  (exists s',
      mf_write_loop (S fuel) ps hp s =
        (if gap then mf_write_loop fuel ps hp s' else Some (OK, s')) /\
      write_ready s' hp /\
      mf_page_size (mfp s') = ps /\
      bh_bnum (hdr s' hp) = bh_bnum (hdr s hp) /\
      bh_page_count (hdr s' hp) = bh_page_count (hdr s hp) /\
      (forall off, written s off -> written s' off) /\
      (forall off, ps * mf_infile_count (mfp s) <= off
                     < ps * mf_infile_count (mfp s') -> written s' off) /\
      (if gap then mf_infile_count (mfp s) < mf_infile_count (mfp s')
       else bh_bnum (hdr s hp) + bh_page_count (hdr s hp)
              <= mf_infile_count (mfp s'))).
Proof.
  intros (Hps & Hhp & Hidx & Hb & Hbound & Hinf). cbv zeta.
  pose proof (mf_write_round fuel (mf_page_size (mfp s)) hp s) as R.
  cbv zeta in R.
  set (ps := mf_page_size (mfp s)) in *.
  set (gap := mf_infile_count (mfp s) <? bh_bnum (hdr s hp)) in *.
  set (nr := if gap then mf_infile_count (mfp s) else bh_bnum (hdr s hp)) in *.
  set (hp2 := if gap then pmap_get nr (mf_hash (mfp s)) else Some hp) in *.
  set (page_count := match hp2 with
                     | Some hp3 => bh_page_count (hdr s hp3)
                     | None => 1
                     end) in *.
  set (data := match hp2 with
               | Some hp3 => bh_data (hdr s hp3)
               | None => bh_data (hdr s hp)
               end) in *.
  destruct R as [(s' & Hloop & Hm & Hh & Hbytes)
                |[(s' & n & pos & Hloop & Hm & Hh & _ & Hbytes)
                 |(s' & pos & Hloop & Hpos & Hbytes & Hi & Hhash & Hpsize & Hhdr)]].
  - left. exists s'. split; [exact Hloop|]. split; [exact Hm|].
    intros off. unfold written. rewrite Hbytes. auto.
  - left. exists s'. split; [exact Hloop|]. split; [exact Hm|].
    intros off Hw. unfold written. rewrite Hbytes.
    apply store_bytes_written. left. exact Hw.
  - right. exists s'. split; [exact Hloop|].
    pose proof (sized_hdr _ _ Hhp) as (Hhp1 & Hhp2 & Hhp3). fold ps in Hhp2, Hhp3.
    assert (Hnr : 0 <= nr <= bh_bnum (hdr s hp)).
    { subst nr. unfold gap. destruct (Z.ltb_spec (mf_infile_count (mfp s))
                                        (bh_bnum (hdr s hp))); lia. }
    assert (Hpc : 1 <= page_count /\ ps * page_count <= UINT_MAX /\
                  (Z.to_nat (ps * page_count) <= length data)%nat).
    { subst page_count data hp2. destruct gap.
      - destruct (pmap_get nr (mf_hash (mfp s))) as [p2|] eqn:Hget.
        + apply pmap_get_elem, Hidx, sized_hdr in Hget. fold ps in Hget. lia.
        + rewrite Hhp3. split; [lia|]. split; [nia|].
          apply Z2Nat.inj_le; nia.
      - lia. }
    destruct Hpc as (Hpc1 & Hpc2 & Hpc3).
    assert (Hups : ps <= UINT_MAX) by nia.
    assert (Hsize : uint (ps * page_count) = ps * page_count).
    { apply uint_id. unfold is_uint. nia. }
    assert (Hbnum : bh_bnum (hdr s hp) + UINT_MAX <= INT64_MAX).
    { unfold UINT_MAX, INT64_MAX in *. nia. }
    assert (Hoffset : int64 (ps * nr) = ps * nr).
    { apply int64_id. unfold is_int64, INT64_MIN, INT64_MAX, UINT_MAX in *. nia. }
    assert (Hend : int64 (nr + page_count) = nr + page_count).
    { apply int64_id. unfold is_int64, INT64_MIN, INT64_MAX, UINT_MAX in *. nia. }
    rewrite Hoffset in Hpos. rewrite Hsize in Hbytes. rewrite Hend in Hi.
    assert (Hpos' : pos = ps * nr) by (apply Hpos; nia).
    assert (Hlen : Z.of_nat (length (take (Z.to_nat (ps * page_count)) data))
                   = ps * page_count).
    { rewrite length_take, Nat.min_l by exact Hpc3. apply Z2Nat.id. nia. }
    assert (Hwritten : forall off,
              written s off \/ ps * nr <= off < ps * (nr + page_count) ->
              written s' off).
    { intros off H. unfold written. rewrite Hbytes. apply store_bytes_written.
      rewrite Hlen, Hpos'. destruct H as [H|H]; [left; exact H | right; lia]. }
    split.
    { (* the next round finds the block ready as well *)
      split; [rewrite Hpsize; exact Hps|].
      assert (Hsized : forall p, sized s p -> sized s' p).
      { intros p. destruct (Hhdr p) as (_ & Hp1 & Hp2 & Hp3).
        apply sized_frame; assumption. }
      split; [apply Hsized, Hhp|].
      split; [intros k p Hkp; apply Hsized, (Hidx k); rewrite <- Hhash; exact Hkp|].
      rewrite (proj1 (Hhdr hp)), Hpsize. fold ps.
      split; [exact Hb|]. split; [exact Hbound|]. lia. }
    split; [exact Hpsize|]. split; [apply Hhdr|]. split; [apply Hhdr|].
    split; [intros off H; apply Hwritten; left; exact H|].
    split.
    { intros off Hoff. apply Hwritten. right. rewrite Hi in Hoff.
      subst nr. unfold gap in *.
      destruct (Z.ltb_spec (mf_infile_count (mfp s)) (bh_bnum (hdr s hp))); nia. }
    rewrite Hi. subst nr page_count hp2. unfold gap in *.
    destruct (Z.ltb_spec (mf_infile_count (mfp s)) (bh_bnum (hdr s hp))); lia.
Qed.

(** The loop on a block that is ready: what it has written when it
    returns. *)
Lemma mf_write_loop_fills fuel hp : forall s r s',
  write_ready s hp ->
  mf_write_loop fuel (mf_page_size (mfp s)) hp s = Some (r, s') ->
  mf_page_size (mfp s') = mf_page_size (mfp s) /\
  (r = OK -> bh_bnum (hdr s' hp) + bh_page_count (hdr s' hp)
               <= mf_infile_count (mfp s')) /\
  (forall off, written s off -> written s' off) /\
  (forall off, mf_page_size (mfp s) * mf_infile_count (mfp s) <= off
                 < mf_page_size (mfp s) * mf_infile_count (mfp s') ->
               written s' off).
Proof.
  induction fuel as [|fuel IH]; intros s r s' Hready; [discriminate|].
  destruct (mf_write_round_ready fuel hp s Hready)
    as [(s1 & -> & Hm & Hw)
       |(s1 & -> & Hready1 & Hps & Hb & Hpc & Hw & Hfill & Hgap)].
  - intros [= <- <-]. rewrite Hm. split; [reflexivity|].
    split; [discriminate|]. split; [exact Hw|]. intros off Hoff. lia.
  - destruct (mf_infile_count (mfp s) <? bh_bnum (hdr s hp)) eqn:Hlt.
    + rewrite <- Hps. intros Hrest.
      destruct (IH _ _ _ Hready1 Hrest) as (Hps' & Hok & Hw' & Hfill').
      split; [congruence|]. split; [exact Hok|].
      split; [intros off H; apply Hw', Hw, H|].
      intros off Hoff. rewrite Hps in Hfill'.
      destruct (Z.lt_ge_cases off
                  (mf_page_size (mfp s) * mf_infile_count (mfp s1))).
      * apply Hw', Hfill. lia.
      * apply Hfill'. lia.
    + intros [= <- <-]. split; [exact Hps|].
      split; [|split; [exact Hw | exact Hfill]].
      intros _. rewrite Hb, Hpc. exact Hgap.
Qed.

(** The loop on a block that is ready returns within one round per page of
    the gap, and one more. *)
Lemma mf_write_loop_returns fuel hp : forall s,
  write_ready s hp ->
  (Z.to_nat (bh_bnum (hdr s hp) - mf_infile_count (mfp s)) < fuel)%nat ->
  is_Some (mf_write_loop fuel (mf_page_size (mfp s)) hp s).
Proof.
  induction fuel as [|fuel IH]; intros s Hready Hfuel; [lia|].
  destruct (mf_write_round_ready fuel hp s Hready)
    as [(s1 & -> & _)|(s1 & -> & Hready1 & Hps & Hb & _ & _ & _ & Hgap)]; [eauto|].
  destruct (mf_infile_count (mfp s) <? bh_bnum (hdr s hp)) eqn:Hlt; [|eauto].
  apply Z.ltb_lt in Hlt. rewrite <- Hps. apply IH; [exact Hready1|].
  rewrite Hb. lia.
Qed.

Lemma mf_trans_add_OK hp s : fst (mf_trans_add hp s) = OK.
Proof. unfold mf_trans_add. split_cases; reflexivity. Qed.

Lemma mf_trans_add_file hp s :
  swap_bytes (snd (mf_trans_add hp s)) = swap_bytes s /\
  mf_page_size (mfp (snd (mf_trans_add hp s))) = mf_page_size (mfp s).
Proof. unfold mf_trans_add, mf_rem_free. split_cases; split; reflexivity. Qed.

(** [mf_write] is the loop, run on the state in which the block has its
    number in the file. *)
Lemma mf_write_unfold fuel hp s :
  0 <= mf_fd (mfp s) ->
  mf_write fuel hp s =
  mf_write_loop fuel (mf_page_size (mfp (snd (mf_trans_add hp s)))) hp
    (snd (mf_trans_add hp s)).
Proof.
  intros Hfd. unfold mf_write. apply Z.ltb_ge in Hfd. rewrite Hfd.
  destruct (bh_bnum (hdr s hp) <? 0) eqn:Hneg.
  - pose proof (mf_trans_add_OK hp s) as Hok.
    destruct (mf_trans_add hp s) as [r s1]. cbn in *. rewrite Hok. reflexivity.
  - apply Z.ltb_ge, Z.leb_le in Hneg. unfold mf_trans_add. rewrite Hneg. reflexivity.
Qed.

Lemma no_holes_frame s s' :
  mf_page_size (mfp s') = mf_page_size (mfp s) ->
  (forall off, written s off -> written s' off) ->
  (forall off, mf_page_size (mfp s) * mf_infile_count (mfp s) <= off
                 < mf_page_size (mfp s) * mf_infile_count (mfp s') ->
               written s' off) ->
  no_holes s -> no_holes s'.
Proof.
  intros Hps Hw Hfill Hs off Hoff. rewrite Hps in Hoff.
  destruct (Z.lt_ge_cases off (mf_page_size (mfp s) * mf_infile_count (mfp s))).
  - apply Hw, Hs. lia.
  - apply Hfill. lia.
Qed.

(** C8.  [mf_infile_count] never decreases across a call on an open memory
    file.  After a successful [mf_write] of a block the count is at least
    the block's number plus its page count.  And for a block that is ready
    to be written (once [mf_trans_add] has given it its number in the file)
    [mf_write] returns within one round per page of the gap and one more;
    whatever it returns, no byte of the file is lost and every byte between
    the old and the new [mf_infile_count] is written, so that a file
    without holes stays without holes. *)
Theorem infile_count_grows_without_holes :
  (forall fuel op s s',
     run fuel op s = Some s' ->
     mf_infile_count (mfp s) <= mf_infile_count (mfp s')) /\
  (forall fuel hp s s',
     mf_write fuel hp s = Some (OK, s') ->
     int64 (bh_bnum (hdr s' hp) + bh_page_count (hdr s' hp))
       <= mf_infile_count (mfp s')) /\
  (forall fuel hp s,
     write_ready (snd (mf_trans_add hp s)) hp ->
     ((Z.to_nat (bh_bnum (hdr (snd (mf_trans_add hp s)) hp)
                 - mf_infile_count (mfp s)) < fuel)%nat ->
      is_Some (mf_write fuel hp s)) /\
     forall r s',
       mf_write fuel hp s = Some (r, s') ->
       (r = OK -> bh_bnum (hdr s' hp) + bh_page_count (hdr s' hp)
                    <= mf_infile_count (mfp s')) /\
       (forall off, written s off -> written s' off) /\
       (forall off, mf_page_size (mfp s) * mf_infile_count (mfp s) <= off
                      < mf_page_size (mfp s) * mf_infile_count (mfp s') ->
                    written s' off) /\
       (no_holes s -> no_holes s')).
Proof.
  split; [exact run_infile|]. split; [exact mf_write_reaches|].
  intros fuel hp s Hready.
  destruct (Z.ltb_spec (mf_fd (mfp s)) 0) as [Hfd|Hfd].
  { assert (Hw : mf_write fuel hp s = Some (FAIL, s)).
    { unfold mf_write. apply Z.ltb_lt in Hfd. rewrite Hfd. reflexivity. }
    rewrite Hw. split; [eauto|]. intros r s' [= <- <-].
    split; [discriminate|]. split; [auto|]. split; [intros; lia | auto]. }
  rewrite (mf_write_unfold fuel hp s Hfd).
  pose proof (mf_trans_add_file hp s) as (Hbytes & Hps).
  pose proof (mf_trans_add_infile hp s) as Hinfile.
  set (s1 := snd (mf_trans_add hp s)) in *.
  split.
  - intros Hfuel. apply mf_write_loop_returns; [exact Hready|].
    rewrite Hinfile. exact Hfuel.
  - intros r s' Hloop.
    destruct (mf_write_loop_fills _ _ _ _ _ Hready Hloop) as (Hps' & Hok & Hw & Hfill).
    rewrite Hps, Hinfile in Hfill.
    assert (Hw' : forall off, written s off -> written s' off).
    { intros off H. apply Hw. unfold written in *. rewrite Hbytes. exact H. }
    split; [exact Hok|]. split; [exact Hw'|]. split; [exact Hfill|].
    apply no_holes_frame; [congruence | exact Hw' | exact Hfill].
Qed.

Lemma gap_write_ready : write_ready (snd (mf_trans_add 3%positive (Demo.gap []))) 3%positive.
Proof.
  assert (Hsized : forall p, p = 1%positive \/ p = 3%positive ->
            sized (snd (mf_trans_add 3%positive (Demo.gap []))) p).
  { intros p [-> | ->]; (eexists; split; [vm_compute; reflexivity|]);
      vm_compute; repeat split; discriminate. }
  split; [reflexivity|]. split; [apply Hsized; auto|].
  split; [|vm_compute; repeat split; discriminate].
  intros k p Hkp. apply Hsized.
  change (mf_hash (mfp (snd (mf_trans_add 3%positive (Demo.gap [])))))
    with [(0, 1%positive); (2, 3%positive)] in Hkp.
  apply list_elem_of_In in Hkp. cbn in Hkp.
  destruct Hkp as [[= <- <-]|[[= <- <-]|[]]]; auto.
Qed.

Lemma infile_count_grows_without_holes_witness :
  let s := Demo.gap [] in
  let hp := 3%positive in
  (exists s2, run 3 (Op_sync MFS_ALL) s = Some s2 /\
              mf_infile_count (mfp s) <= mf_infile_count (mfp s2)) /\
  write_ready (snd (mf_trans_add hp s)) hp /\
  no_holes s /\
  exists s',
    mf_write 3 hp s = Some (OK, s') /\
    bh_bnum (hdr s' hp) + bh_page_count (hdr s' hp) <= mf_infile_count (mfp s') /\
    no_holes s'.
Proof.
  cbv zeta. split.
  { destruct (run 3 (Op_sync MFS_ALL) (Demo.gap [])) as [s2|] eqn:Hrun;
      [|vm_compute in Hrun; discriminate].
    exists s2. split; [reflexivity|].
    exact (proj1 infile_count_grows_without_holes _ _ _ _ Hrun). }
  split; [exact gap_write_ready|].
  assert (Hholes : no_holes (Demo.gap [])).
  { intros off Hoff. vm_compute in Hoff. destruct Hoff as [H1 H2].
    destruct off; try discriminate; contradiction. }
  split; [exact Hholes|].
  destruct (proj2 (proj2 infile_count_grows_without_holes) 3%nat 3%positive
              (Demo.gap []) gap_write_ready) as [Hreturns Hfills].
  destruct (mf_write 3 3%positive (Demo.gap [])) as [[r s']|] eqn:Hwrite;
    [|vm_compute in Hwrite; discriminate].
  assert (r = OK) as -> by (vm_compute in Hwrite; congruence).
  destruct (Hfills OK s' eq_refl) as (Hok & _ & _ & Hno).
  exists s'. split; [reflexivity|].
  split; [apply Hok; reflexivity | apply Hno, Hholes].
Defined.

(** ** The count of negative blocks *)

(** *** The block index as a list *)

Lemma pmap_put_absent k v m :
  k ∉ List.map fst m -> pmap_put k v m = m ++ [(k, v)].
Proof.
  induction m as [|[k' v'] m IH]; cbn; intros Hk; [reflexivity|].
  destruct (Z.eqb_spec k' k) as [->|Hne].
  - exfalso. apply Hk. apply list_elem_of_here.
  - rewrite IH; [reflexivity|]. intros H. apply Hk. apply list_elem_of_further, H.
Qed.

Lemma pmap_put_present k v m :
  k ∈ List.map fst m -> List.map fst (pmap_put k v m) = List.map fst m.
Proof.
  induction m as [|[k' v'] m IH]; cbn; intros Hk.
  - apply elem_of_nil in Hk. contradiction.
  - destruct (Z.eqb_spec k' k) as [->|Hne]; [reflexivity|]. cbn.
    rewrite IH; [reflexivity|].
    apply elem_of_cons in Hk as [->|Hk]; [contradiction | exact Hk].
Qed.

Lemma pmap_put_keys k v m :
  List.map fst (pmap_put k v m) =
  if decide (k ∈ List.map fst m) then List.map fst m else List.map fst m ++ [k].
Proof.
  destruct (decide _) as [Hk|Hk].
  - apply pmap_put_present, Hk.
  - rewrite (pmap_put_absent _ _ _ Hk), List.map_app. reflexivity.
Qed.

Lemma pmap_put_elem k v m k' p' :
  (k', p') ∈ pmap_put k v m -> (k' = k /\ p' = v) \/ (k', p') ∈ m.
Proof.
  induction m as [|[k0 v0] m IH]; cbn.
  - intros H. apply list_elem_of_singleton in H as [= -> ->]. auto.
  - destruct (Z.eqb_spec k0 k) as [->|Hne]; intros H;
      apply elem_of_cons in H as [[= -> ->]|H].
    + auto.
    + right. apply list_elem_of_further, H.
    + right. apply list_elem_of_here.
    + destruct (IH H) as [?|?]; [auto|]. right. apply list_elem_of_further. assumption.
Qed.

Lemma pmap_put_elem_new k v m : (k, v) ∈ pmap_put k v m.
Proof.
  induction m as [|[k0 v0] m IH]; cbn; [apply list_elem_of_here|].
  destruct (k0 =? k); [apply list_elem_of_here | apply list_elem_of_further, IH].
Qed.

Lemma pmap_put_elem_old k v m k' p' :
  k' <> k -> (k', p') ∈ m -> (k', p') ∈ pmap_put k v m.
Proof.
  intros Hne. induction m as [|[k0 v0] m IH]; cbn; intros H.
  - apply elem_of_nil in H. contradiction.
  - apply elem_of_cons in H as [[= <- <-]|H].
    + rewrite (proj2 (Z.eqb_neq k' k) Hne). apply list_elem_of_here.
    + destruct (k0 =? k); apply list_elem_of_further; [exact H | apply IH, H].
Qed.

Lemma elem_key {A B} (k : A) (p : B) (m : list (A * B)) :
  (k, p) ∈ m -> k ∈ List.map fst m.
Proof. intros H. apply (list_elem_of_fmap_2 fst) in H. exact H. Qed.

Lemma elem_value {A B} (k : A) (p : B) (m : list (A * B)) :
  (k, p) ∈ m -> p ∈ List.map snd m.
Proof. intros H. apply (list_elem_of_fmap_2 snd) in H. exact H. Qed.

Lemma NoDup_keys_value {B} (k : Z) (p q : B) (m : list (Z * B)) :
  NoDup (List.map fst m) -> (k, p) ∈ m -> (k, q) ∈ m -> p = q.
Proof.
  induction m as [|[k0 v0] m IH]; cbn; intros Hnd Hp Hq.
  - apply elem_of_nil in Hp. contradiction.
  - apply NoDup_cons in Hnd as [Hk0 Hnd].
    apply elem_of_cons in Hp as [[= -> ->]|Hp], Hq as [[= <-]|Hq].
    + reflexivity.
    + exfalso. apply Hk0, (elem_key _ _ _ Hq).
    + exfalso. subst. apply Hk0, (elem_key _ _ _ Hp).
    + apply IH; assumption.
Qed.

Lemma pmap_del_elem k m k' p' :
  (k', p') ∈ pmap_del k m <-> (k', p') ∈ m /\ k' <> k.
Proof.
  unfold pmap_del. rewrite !list_elem_of_In, List.filter_In. cbn.
  rewrite negb_true_iff, Z.eqb_neq. reflexivity.
Qed.

Lemma pmap_del_keys k m :
  List.map fst (pmap_del k m) =
  List.filter (fun k' => negb (k' =? k)) (List.map fst m).
Proof.
  unfold pmap_del. induction m as [|[k0 v0] m IH]; cbn; [reflexivity|].
  destruct (negb (k0 =? k)); cbn; rewrite IH; reflexivity.
Qed.

Lemma pmap_del_key_elem k m k' :
  k' ∈ List.map fst (pmap_del k m) <-> k' ∈ List.map fst m /\ k' <> k.
Proof.
  rewrite pmap_del_keys, !list_elem_of_In, List.filter_In.
  rewrite negb_true_iff, Z.eqb_neq. reflexivity.
Qed.

Lemma pmap_del_NoDup k m :
  NoDup (List.map fst m) -> NoDup (List.map fst (pmap_del k m)).
Proof. rewrite pmap_del_keys, !NoDup_ListNoDup. apply List.NoDup_filter. Qed.

Lemma pmap_put_NoDup k v m :
  NoDup (List.map fst m) -> NoDup (List.map fst (pmap_put k v m)).
Proof.
  intros Hnd. rewrite pmap_put_keys. destruct (decide _) as [Hk|Hk]; [exact Hnd|].
  apply NoDup_app. split; [exact Hnd|]. split; [|apply NoDup_singleton].
  intros x Hx Hxk. apply list_elem_of_singleton in Hxk as ->. contradiction.
Qed.

Lemma pmap_put_key_elem k v m k' :
  k' ∈ List.map fst (pmap_put k v m) <-> k' = k \/ k' ∈ List.map fst m.
Proof.
  rewrite pmap_put_keys. destruct (decide _) as [Hk|Hk].
  - split; [auto|]. intros [->|H]; assumption.
  - rewrite elem_of_app, list_elem_of_singleton. tauto.
Qed.

Lemma pmap_put_value_elem k v m p :
  p ∈ List.map snd (pmap_put k v m) -> p = v \/ p ∈ List.map snd m.
Proof.
  intros H. apply list_elem_of_fmap in H as ([k' p'] & -> & H). cbn.
  apply pmap_put_elem in H as [[_ ->]|H]; [auto|].
  right. apply (elem_value _ _ _ H).
Qed.

Lemma pmap_del_value_elem k m p :
  p ∈ List.map snd (pmap_del k m) -> p ∈ List.map snd m.
Proof.
  intros H. apply list_elem_of_fmap in H as ([k' p'] & -> & H). cbn.
  apply pmap_del_elem in H as [H _]. apply (elem_value _ _ _ H).
Qed.

Lemma pmap_get_None k m : pmap_get k m = None <-> k ∉ List.map fst m.
Proof.
  unfold pmap_get. induction m as [|[k0 v0] m IH]; cbn.
  - split; [intros _; apply not_elem_of_nil | reflexivity].
  - destruct (Z.eqb_spec k0 k) as [->|Hne]; cbn.
    + split; [discriminate|]. intros H. exfalso. apply H, list_elem_of_here.
    + rewrite IH, not_elem_of_cons. split; [auto | tauto].
Qed.

(** *** Counting negative keys *)

Lemma negs_app l k :
  negs (l ++ [k]) = (negs l + if (k <? 0)%Z then 1 else 0)%nat.
Proof.
  unfold negs. rewrite List.filter_app, length_app. cbn.
  destruct (k <? 0); reflexivity.
Qed.

Lemma negs_remove_absent l k :
  k ∉ l -> List.filter (fun k' => negb (k' =? k)) l = l.
Proof.
  induction l as [|x l IH]; cbn; intros Hk; [reflexivity|].
  apply not_elem_of_cons in Hk as [Hne Hk].
  rewrite (proj2 (Z.eqb_neq x k)) by congruence. cbn. rewrite IH by exact Hk.
  reflexivity.
Qed.

Lemma negs_remove l k :
  NoDup l -> k ∈ l ->
  (negs (List.filter (fun k' => negb (k' =? k)%Z) l)
   + (if (k <? 0)%Z then 1 else 0) = negs l)%nat.
Proof.
  unfold negs. induction l as [|x l IH]; cbn; intros Hnd Hk.
  - apply elem_of_nil in Hk. contradiction.
  - apply NoDup_cons in Hnd as [Hx Hnd].
    destruct (Z.eqb_spec x k) as [->|Hne]; cbn.
    + rewrite negs_remove_absent by exact Hx.
      destruct (k <? 0); cbn; lia.
    + apply elem_of_cons in Hk as [->|Hk]; [contradiction|].
      specialize (IH Hnd Hk). destruct (x <? 0); cbn; lia.
Qed.

(** *** Moves that keep the invariant *)

(** Headers change in place: page counts stay non-negative and numbers stay
    as they are, except that a header of the free list may take another
    non-negative number. *)
Lemma inv_frame m g m' g' :
  mf_hash m' = mf_hash m ->
  mf_free_first m' = mf_free_first m ->
  mf_trans m' = mf_trans m ->
  mf_blocknr_min m' = mf_blocknr_min m ->
  mf_neg_count m' = mf_neg_count m ->
  0 <= mf_blocknr_max m' ->
  (forall p,
     match g !! p, g' !! p with
     | Some h, Some h' =>
         0 <= bh_page_count h' /\
         (bh_bnum h' = bh_bnum h \/ (p ∈ mf_free_first m /\ 0 <= bh_bnum h'))
     | None, None => True
     | _, _ => False
     end) ->
  mf_inv_of m g -> mf_inv_of m' g'.
Proof.
  intros Hh Hf Ht Hmin Hneg Hmax Hg [].
  constructor; rewrite ?Hh, ?Hf, ?Ht, ?Hmin, ?Hneg; auto.
  - intros k p Hkp. destruct (inv_index0 k p Hkp) as (h & Hp & Hb).
    specialize (Hg p). rewrite Hp in Hg.
    destruct (g' !! p) as [h'|]; [|contradiction].
    exists h'. split; [reflexivity|].
    destruct Hg as (_ & [Hsame|[Hfree _]]); [congruence|].
    exfalso. apply (proj2 (inv_free0 p Hfree)), (elem_value _ _ _ Hkp).
  - intros p h' Hp' Hb. specialize (Hg p). rewrite Hp' in Hg.
    destruct (g !! p) as [h|] eqn:Hp; [|contradiction].
    destruct Hg as (_ & [Hsame|[_ Hpos]]); [|lia].
    rewrite Hsame. apply inv_negative0; [exact Hp | lia].
  - intros p Hfree. destruct (inv_free0 p Hfree) as ((h & Hp & Hb) & Hnot).
    split; [|exact Hnot]. specialize (Hg p). rewrite Hp in Hg.
    destruct (g' !! p) as [h'|]; [|contradiction].
    exists h'. split; [reflexivity|]. destruct Hg as (_ & [Hsame|[_ Hpos]]); lia.
  - intros p h' Hp'. specialize (Hg p). rewrite Hp' in Hg.
    destruct (g !! p); [|contradiction]. apply Hg.
Qed.

(** A header with a non-negative number is allocated. *)
Lemma inv_alloc m g hp h :
  g !! hp = None -> 0 <= bh_bnum h -> 0 <= bh_page_count h ->
  mf_inv_of m g -> mf_inv_of m (<[hp := h]> g).
Proof.
  intros Hfresh Hb Hpc []. constructor; auto.
  - intros k p Hkp. destruct (inv_index0 k p Hkp) as (h0 & Hp & Hk).
    exists h0. split; [|exact Hk]. rewrite lookup_insert_ne; [exact Hp | congruence].
  - intros p h0 Hp Hneg. apply lookup_insert_Some in Hp as [[<- <-]|[Hne Hp]]; [lia|].
    apply inv_negative0; assumption.
  - intros p Hfree. destruct (inv_free0 p Hfree) as ((h0 & Hp & Hpos) & Hnot).
    split; [|exact Hnot]. exists h0. split; [|exact Hpos].
    rewrite lookup_insert_ne; [exact Hp | congruence].
  - intros p h0 Hp. apply lookup_insert_Some in Hp as [[<- <-]|[Hne Hp]]; [exact Hpc|].
    eapply inv_pages0, Hp.
Qed.

(** A header that is in neither list is deallocated. *)
Lemma inv_dealloc m g p :
  p ∉ List.map snd (mf_hash m) -> p ∉ mf_free_first m ->
  mf_inv_of m g -> mf_inv_of m (delete p g).
Proof.
  intros Hidx Hfree []. constructor; auto.
  - intros k q Hkq. destruct (inv_index0 k q Hkq) as (h & Hq & Hk).
    exists h. split; [|exact Hk]. rewrite lookup_delete_ne; [exact Hq|].
    intros ->. apply Hidx, (elem_value _ _ _ Hkq).
  - intros q h Hq Hneg. apply lookup_delete_Some in Hq as [_ Hq].
    apply inv_negative0; assumption.
  - intros q Hq. destruct (inv_free0 q Hq) as ((h & Hh & Hpos) & Hnot).
    split; [|exact Hnot]. exists h. split; [|exact Hpos].
    rewrite lookup_delete_ne; [exact Hh | congruence].
  - intros q h Hq. apply lookup_delete_Some in Hq as [_ Hq]. eapply inv_pages0, Hq.
Qed.

(** An allocated header with a non-negative number enters the index. *)
Lemma inv_insert m g k hp h :
  g !! hp = Some h -> bh_bnum h = k -> 0 <= k -> hp ∉ mf_free_first m ->
  mf_inv_of m g ->
  mf_inv_of (with_hash (pmap_put k hp (mf_hash m)) m) g /\
  negs (List.map fst (pmap_put k hp (mf_hash m))) = negs (List.map fst (mf_hash m)).
Proof.
  intros Hhp Hb Hk Hfree [].
  assert (Hnegs : negs (List.map fst (pmap_put k hp (mf_hash m)))
                  = negs (List.map fst (mf_hash m))).
  { rewrite pmap_put_keys. destruct (decide _); [reflexivity|].
    rewrite negs_app. rewrite (proj2 (Z.ltb_ge k 0)) by lia. lia. }
  split; [|exact Hnegs]. constructor; cbn -[negs]; auto.
  - apply pmap_put_NoDup, inv_keys0.
  - intros k' p Hkp. apply pmap_put_elem in Hkp as [[-> ->]|Hkp]; [eauto|].
    apply inv_index0, Hkp.
  - intros p h0 Hp Hneg. apply pmap_put_elem_old; [lia|].
    apply inv_negative0; assumption.
  - intros p Hp. destruct (inv_free0 p Hp) as (Hh & Hnot). split; [exact Hh|].
    intros Hin. apply pmap_put_value_elem in Hin as [->|Hin]; contradiction.
  - intros k' Hk' Hneg. apply pmap_put_key_elem in Hk' as [->|Hk']; [lia|].
    apply inv_min_index0; assumption.
  - intros k' Hk'. apply pmap_put_key_elem in Hk' as [->|Hk']; [|apply inv_trans_index0, Hk'].
    destruct (mf_trans m !! k) eqn:E; [|reflexivity].
    pose proof (inv_min_trans0 k (ex_intro _ _ E)). lia.
  - rewrite Hnegs. exact inv_count0.
Qed.

(** The first run leaves the free list. *)
Lemma inv_pop m g :
  mf_inv_of m g -> mf_inv_of (with_free_first (tail (mf_free_first m)) m) g.
Proof.
  intros []. constructor; cbn -[negs]; auto.
  - intros p Hp. apply inv_free0. destruct (mf_free_first m); [exact Hp|].
    apply list_elem_of_further, Hp.
  - destruct (mf_free_first m); [exact inv_free_nodup0|].
    apply NoDup_cons in inv_free_nodup0 as [_ H]. exact H.
Qed.

(** A header with a non-negative number that is in neither list enters the
    free list. *)
Lemma inv_push m g hp h :
  g !! hp = Some h -> 0 <= bh_bnum h ->
  hp ∉ List.map snd (mf_hash m) -> hp ∉ mf_free_first m ->
  mf_inv_of m g -> mf_inv_of (with_free_first (hp :: mf_free_first m) m) g.
Proof.
  intros Hhp Hb Hidx Hfree []. constructor; cbn -[negs]; auto.
  - intros p Hp. apply elem_of_cons in Hp as [->|Hp]; [eauto|]. apply inv_free0, Hp.
  - apply NoDup_cons. auto.
Qed.

(** A non-negative key leaves the index. *)
Lemma inv_remove m g k :
  0 <= k -> mf_inv_of m g ->
  mf_inv_of (with_hash (pmap_del k (mf_hash m)) m) g /\
  negs (List.map fst (pmap_del k (mf_hash m))) = negs (List.map fst (mf_hash m)).
Proof.
  intros Hk [].
  assert (Hnegs : negs (List.map fst (pmap_del k (mf_hash m)))
                  = negs (List.map fst (mf_hash m))).
  { rewrite pmap_del_keys.
    destruct (decide (k ∈ List.map fst (mf_hash m))) as [Hin|Hin].
    - pose proof (negs_remove _ _ inv_keys0 Hin) as H.
      rewrite (proj2 (Z.ltb_ge k 0)) in H by lia. lia.
    - rewrite negs_remove_absent by exact Hin. reflexivity. }
  split; [|exact Hnegs]. constructor; cbn -[negs]; auto.
  - apply pmap_del_NoDup, inv_keys0.
  - intros k' p Hkp. apply pmap_del_elem in Hkp as [Hkp _]. apply inv_index0, Hkp.
  - intros p h Hp Hneg. apply pmap_del_elem. split; [|lia].
    apply inv_negative0; assumption.
  - intros p Hp. destruct (inv_free0 p Hp) as (Hh & Hnot). split; [exact Hh|].
    intros Hin. apply Hnot, (pmap_del_value_elem _ _ _ Hin).
  - intros k' Hk' Hneg. apply pmap_del_key_elem in Hk' as [Hk' _].
    apply inv_min_index0; assumption.
  - intros k' Hk'. apply pmap_del_key_elem in Hk' as [Hk' _].
    apply inv_trans_index0, Hk'.
  - rewrite Hnegs. exact inv_count0.
Qed.

(** A new block takes the number [mf_blocknr_min]. *)
Lemma inv_alloc_neg m g hp h :
  g !! hp = None -> bh_bnum h = mf_blocknr_min m -> 0 <= bh_page_count h ->
  mf_neg_count m < INT64_MAX ->
  mf_inv_of m g ->
  mf_inv_of
    (with_neg_count (mf_neg_count m + 1)
       (with_blocknr_min (mf_blocknr_min m - 1)
          (with_hash (pmap_put (mf_blocknr_min m) hp (mf_hash m)) m)))
    (<[hp := h]> g).
Proof.
  intros Hfresh Hb Hpc Hmax [].
  assert (Hnew : mf_blocknr_min m ∉ List.map fst (mf_hash m)).
  { intros Hin. pose proof (inv_min_index0 _ Hin inv_min0). lia. }
  assert (Hidx : hp ∉ List.map snd (mf_hash m)).
  { intros Hin. apply list_elem_of_fmap in Hin as ([k p] & -> & Hkp).
    destruct (inv_index0 _ _ Hkp) as (h0 & Hp & _). cbn in *. congruence. }
  constructor; cbn -[negs]; auto.
  - apply pmap_put_NoDup, inv_keys0.
  - intros k p Hkp. apply pmap_put_elem in Hkp as [[-> ->]|Hkp].
    + exists h. rewrite lookup_insert_eq. auto.
    + destruct (inv_index0 k p Hkp) as (h0 & Hp & Hk). exists h0. split; [|exact Hk].
      rewrite lookup_insert_ne; [exact Hp | congruence].
  - intros p h0 Hp Hneg. apply lookup_insert_Some in Hp as [[<- <-]|[Hne Hp]].
    + rewrite Hb. apply pmap_put_elem_new.
    + apply pmap_put_elem_old; [|apply inv_negative0; assumption].
      intros Heq. apply Hnew. rewrite <- Heq.
      apply (elem_key _ _ _ (inv_negative0 p h0 Hp Hneg)).
  - intros p Hp. destruct (inv_free0 p Hp) as ((h0 & Hh & Hpos) & Hnot). split.
    + exists h0. split; [|exact Hpos]. rewrite lookup_insert_ne; [exact Hh | congruence].
    + intros Hin. apply pmap_put_value_elem in Hin as [->|Hin]; [congruence | contradiction].
  - intros p h0 Hp. apply lookup_insert_Some in Hp as [[<- <-]|[Hne Hp]]; [exact Hpc|].
    eapply inv_pages0, Hp.
  - lia.
  - intros k Hk Hneg. apply pmap_put_key_elem in Hk as [->|Hk]; [lia|].
    pose proof (inv_min_index0 k Hk Hneg). lia.
  - intros k Hk. pose proof (inv_min_trans0 k Hk). lia.
  - intros k Hk. apply pmap_put_key_elem in Hk as [->|Hk]; [|apply inv_trans_index0, Hk].
    destruct (mf_trans m !! mf_blocknr_min m) eqn:E; [|reflexivity].
    pose proof (inv_min_trans0 _ (ex_intro _ _ E)). lia.
  - rewrite (pmap_put_absent _ _ _ Hnew), List.map_app. cbn [List.map fst].
    rewrite negs_app, (proj2 (Z.ltb_lt _ 0) inv_min0). lia.
  - lia.
Qed.

(** A negative block leaves the index and the heap. *)
Lemma inv_free_neg m g hp h :
  g !! hp = Some h -> bh_bnum h < 0 -> hp ∉ mf_free_first m ->
  mf_inv_of m g ->
  mf_inv_of
    (with_neg_count (mf_neg_count m - 1)
       (with_hash (pmap_del (bh_bnum h) (mf_hash m)) m))
    (delete hp g) /\
  (negs (List.map fst (pmap_del (bh_bnum h) (mf_hash m))) + 1
   = negs (List.map fst (mf_hash m)))%nat.
Proof.
  intros Hhp Hneg Hfree [].
  pose proof (inv_negative0 hp h Hhp Hneg) as Hin.
  assert (Hnegs : (negs (List.map fst (pmap_del (bh_bnum h) (mf_hash m))) + 1
                   = negs (List.map fst (mf_hash m)))%nat).
  { rewrite pmap_del_keys.
    pose proof (negs_remove _ _ inv_keys0 (elem_key _ _ _ Hin)) as H.
    rewrite (proj2 (Z.ltb_lt _ 0) Hneg) in H. exact H. }
  split; [|exact Hnegs]. constructor; cbn -[negs]; auto.
  - apply pmap_del_NoDup, inv_keys0.
  - intros k p Hkp. apply pmap_del_elem in Hkp as [Hkp Hne].
    destruct (inv_index0 k p Hkp) as (h0 & Hp & Hk). exists h0. split; [|exact Hk].
    rewrite lookup_delete_ne; [exact Hp|]. intros <-. congruence.
  - intros p h0 Hp Hn. apply lookup_delete_Some in Hp as [Hne Hp].
    apply pmap_del_elem. split; [apply inv_negative0; assumption|].
    intros Heq. apply Hne.
    pose proof (inv_negative0 p h0 Hp Hn) as Hin'. rewrite Heq in Hin'.
    apply (NoDup_keys_value _ _ _ _ inv_keys0 Hin Hin').
  - intros p Hp. destruct (inv_free0 p Hp) as ((h0 & Hh & Hpos) & Hnot). split.
    + exists h0. split; [|exact Hpos]. rewrite lookup_delete_ne; [exact Hh | congruence].
    + intros Hin'. apply Hnot, (pmap_del_value_elem _ _ _ Hin').
  - intros p h0 Hp. apply lookup_delete_Some in Hp as [_ Hp]. eapply inv_pages0, Hp.
  - intros k Hk Hn. apply pmap_del_key_elem in Hk as [Hk _]. apply inv_min_index0; assumption.
  - intros k Hk. apply pmap_del_key_elem in Hk as [Hk _]. apply inv_trans_index0, Hk.
  - lia.
  - lia.
Qed.

(** A negative block takes the non-negative number [new_bnum]; the
    translation table records it. *)
Lemma inv_renumber m g hp h new_bnum :
  g !! hp = Some h -> bh_bnum h < 0 -> hp ∉ mf_free_first m -> 0 <= new_bnum ->
  mf_inv_of m g ->
  mf_inv_of
    (with_trans (<[bh_bnum h := new_bnum]> (mf_trans m))
       (with_hash (pmap_put new_bnum hp (pmap_del (bh_bnum h) (mf_hash m))) m))
    (<[hp := with_bnum new_bnum h]> g) /\
  (negs (List.map fst (pmap_put new_bnum hp (pmap_del (bh_bnum h) (mf_hash m)))) + 1
   = negs (List.map fst (mf_hash m)))%nat /\
  size (<[bh_bnum h := new_bnum]> (mf_trans m)) = S (size (mf_trans m)).
Proof.
  intros Hhp Hneg Hfree Hnew Hinv.
  pose proof (inv_negative _ _ Hinv hp h Hhp Hneg) as Hin.
  pose proof (inv_trans_index _ _ Hinv _ (elem_key _ _ _ Hin)) as Hnot.
  pose proof (inv_min_index _ _ Hinv _ (elem_key _ _ _ Hin) Hneg) as Hmin.
  destruct (inv_free_neg m g hp h Hhp Hneg Hfree Hinv) as [Hinv1 Hnegs1].
  set (m1 := with_neg_count (mf_neg_count m - 1)
               (with_hash (pmap_del (bh_bnum h) (mf_hash m)) m)) in *.
  assert (Hinv2 : mf_inv_of m1 (<[hp := with_bnum new_bnum h]> (delete hp g))).
  { apply inv_alloc; [apply lookup_delete_eq | exact Hnew | |exact Hinv1].
    apply (inv_pages _ _ Hinv hp h Hhp). }
  destruct (inv_insert m1 _ new_bnum hp (with_bnum new_bnum h)
              (lookup_insert_eq _ _ _) eq_refl Hnew Hfree Hinv2)
    as [Hinv3 Hnegs3].
  rewrite insert_delete_eq in Hinv3. cbn -[negs] in Hnegs3.
  split; [|split; [lia | apply map_size_insert_None, Hnot]].
  destruct Hinv3. constructor; cbn -[negs] in *; auto.
  - intros k Hk. apply lookup_insert_is_Some in Hk as [<-|[_ Hk]]; [lia|].
    apply inv_min_trans0, Hk.
  - intros k Hk. rewrite lookup_insert_ne; [apply inv_trans_index0, Hk|].
    intros <-. apply pmap_put_key_elem in Hk as [Hk|Hk]; [lia|].
    apply pmap_del_key_elem in Hk as [_ Hk]. congruence.
  - rewrite (map_size_insert_None _ _ _ Hnot). lia.
  - pose proof (inv_count_max _ _ Hinv). lia.
Qed.

(** A block of the index is put in again under its own key. *)
Lemma inv_relocate m g k hp :
  (k, hp) ∈ mf_hash m ->
  mf_inv_of m g ->
  mf_inv_of (with_hash (pmap_put k hp (pmap_del k (mf_hash m))) m) g.
Proof.
  intros Hin [].
  assert (Helem : forall k' p, (k', p) ∈ pmap_put k hp (pmap_del k (mf_hash m))
                               -> (k', p) ∈ mf_hash m).
  { intros k' p H. apply pmap_put_elem in H as [[-> ->]|H]; [exact Hin|].
    apply pmap_del_elem in H as [H _]. exact H. }
  assert (Hkey : forall k', k' ∈ List.map fst (pmap_put k hp (pmap_del k (mf_hash m)))
                            <-> k' ∈ List.map fst (mf_hash m)).
  { intros k'. rewrite pmap_put_key_elem, pmap_del_key_elem.
    pose proof (elem_key _ _ _ Hin). destruct (decide (k' = k)) as [->|]; tauto. }
  constructor; cbn -[negs]; auto.
  - apply pmap_put_NoDup, pmap_del_NoDup, inv_keys0.
  - intros p h Hp Hneg. pose proof (inv_negative0 p h Hp Hneg) as H.
    destruct (decide (bh_bnum h = k)) as [Heq|Hne].
    + rewrite Heq in *. rewrite (NoDup_keys_value _ _ _ _ inv_keys0 H Hin).
      apply pmap_put_elem_new.
    + apply pmap_put_elem_old; [exact Hne|]. apply pmap_del_elem. auto.
  - intros p Hp. destruct (inv_free0 p Hp) as (Hh & Hnot). split; [exact Hh|].
    intros Hv. apply list_elem_of_fmap in Hv as ([k' p'] & -> & Hkp).
    apply Hnot, (elem_value _ _ _ (Helem _ _ Hkp)).
  - intros k' Hk'. apply inv_min_index0, Hkey, Hk'.
  - intros k' Hk'. apply inv_trans_index0, Hkey, Hk'.
  - rewrite inv_count0. f_equal. f_equal.
    rewrite pmap_put_keys, pmap_del_keys.
    pose proof (negs_remove _ _ inv_keys0 (elem_key _ _ _ Hin)) as Hrem.
    destruct (decide _) as [Hk|Hk].
    { apply list_elem_of_In, List.filter_In in Hk as [_ Hk].
      rewrite Z.eqb_refl in Hk. discriminate. }
    rewrite negs_app. lia.
Qed.

(** An entry leaves the translation table. *)
Lemma inv_trans_del m g old_nr new_bnum :
  mf_trans m !! old_nr = Some new_bnum ->
  mf_inv_of m g ->
  mf_inv_of (with_trans (delete old_nr (mf_trans m))
               (with_neg_count (mf_neg_count m - 1) m)) g /\
  S (size (delete old_nr (mf_trans m))) = size (mf_trans m).
Proof.
  intros Hfound [].
  assert (Hsize : S (size (delete old_nr (mf_trans m))) = size (mf_trans m)).
  { rewrite map_size_delete, Hfound.
    pose proof (map_size_ne_0_lookup_2 (mf_trans m) old_nr (ex_intro _ _ Hfound)).
    cbn. lia. }
  split; [|exact Hsize]. constructor; cbn -[negs]; auto.
  - intros k Hk. apply lookup_delete_is_Some in Hk as [_ Hk]. apply inv_min_trans0, Hk.
  - intros k Hk. apply lookup_delete_None. right. apply inv_trans_index0, Hk.
  - lia.
  - lia.
Qed.

(** *** The calls keep the invariant *)

Lemma alter_as_insert {A} (f : A -> A) (i : positive) (x : A) (g : gmap positive A) :
  g !! i = Some x -> alter f i g = <[i := f x]> g.
Proof.
  intros Hi. apply map_eq. intros j. destruct (decide (i = j)) as [->|Hne].
  - rewrite lookup_alter_eq, lookup_insert_eq, Hi. reflexivity.
  - rewrite lookup_alter_ne, lookup_insert_ne by assumption. reflexivity.
Qed.

(** Fields of the memory file that the invariant does not read. *)
Lemma inv_fields m g m' :
  mf_hash m' = mf_hash m ->
  mf_free_first m' = mf_free_first m ->
  mf_trans m' = mf_trans m ->
  mf_blocknr_min m' = mf_blocknr_min m ->
  mf_neg_count m' = mf_neg_count m ->
  0 <= mf_blocknr_max m' ->
  mf_inv_of m g -> mf_inv_of m' g.
Proof.
  intros Hh Hf Ht Hmin Hneg Hmax Hinv.
  apply (inv_frame m g m' g); auto.
  intros p. destruct (g !! p) as [h|] eqn:Hp; [|exact I].
  split; [apply (inv_pages _ _ Hinv p h Hp) | left; reflexivity].
Qed.

(** A header changes in place and keeps its number. *)
Lemma inv_upd m g hp (f : bhdr_T -> bhdr_T) :
  (forall h, bh_bnum (f h) = bh_bnum h) ->
  (forall h, 0 <= bh_page_count h -> 0 <= bh_page_count (f h)) ->
  mf_inv_of m g -> mf_inv_of m (alter f hp g).
Proof.
  intros Hb Hpc Hinv.
  apply (inv_frame m g m (alter f hp g)); auto; [apply (inv_max _ _ Hinv)|].
  intros p. destruct (decide (hp = p)) as [->|Hne].
  - rewrite lookup_alter_eq. destruct (g !! p) as [h|] eqn:Hp; cbn; [|exact I].
    split; [apply Hpc, (inv_pages _ _ Hinv p h Hp) | left; apply Hb].
  - rewrite lookup_alter_ne by assumption.
    destruct (g !! p) as [h|] eqn:Hp; [|exact I].
    split; [apply (inv_pages _ _ Hinv p h Hp) | left; reflexivity].
Qed.

Lemma inv_count_pos m g :
  mf_inv_of m g -> 0 <= mf_neg_count m <= INT64_MAX.
Proof. intros []. lia. Qed.

(** [mf_trans_del]. *)
Lemma mf_trans_del_inv old_nr s :
  mf_inv s -> mf_inv (snd (mf_trans_del old_nr s)).
Proof.
  unfold mf_inv, mf_trans_del. intros Hinv.
  destruct (mf_trans (mfp s) !! old_nr) as [new_bnum|] eqn:Hfound; [|exact Hinv].
  destruct (inv_trans_del _ _ _ _ Hfound Hinv) as [Hinv' Hsize].
  cbn. rewrite int64_id; [exact Hinv'|].
  pose proof (inv_count _ _ Hinv). pose proof (inv_count_max _ _ Hinv).
  unfold is_int64, INT64_MIN, INT64_MAX in *. lia.
Qed.

(** [mf_free] of a live header. *)
Lemma mf_free_inv hp s :
  live s hp -> mf_inv s -> mf_inv (mf_free hp s).
Proof.
  unfold mf_inv, mf_free. intros [[h Hh] Hlive] Hinv.
  set (g1 := alter (with_data []) hp (heap s)).
  assert (Hinv1 : mf_inv_of (mfp s) g1) by (apply inv_upd; auto).
  assert (Hh1 : g1 !! hp = Some (with_data [] h)).
  { subst g1. rewrite lookup_alter_eq, Hh. reflexivity. }
  assert (Hhdr : hdr (upd_hdr hp (with_data []) s) hp = with_data [] h)
    by (apply hdr_Some, Hh1).
  assert (Hhdr' : forall m', hdr (set_mfp m' (upd_hdr hp (with_data []) s)) hp
                            = with_data [] h) by (intros; apply hdr_Some, Hh1).
  rewrite Hhdr, Hhdr'. cbn [bh_bnum with_data].
  destruct (bh_bnum h <? 0) eqn:Hneg.
  - apply Z.ltb_lt in Hneg.
    destruct (inv_free_neg _ _ hp _ Hh1 Hneg Hlive Hinv1) as [Hinv2 _].
    cbn. rewrite int64_id; [exact Hinv2|].
    pose proof (inv_count _ _ Hinv). pose proof (inv_count_max _ _ Hinv).
    pose proof (negs_remove _ _ (inv_keys _ _ Hinv)
                  (elem_key _ _ _ (inv_negative _ _ Hinv hp h Hh Hneg))) as Hrem.
    rewrite (proj2 (Z.ltb_lt _ 0) Hneg) in Hrem.
    unfold is_int64, INT64_MIN, INT64_MAX in *. lia.
  - apply Z.ltb_ge in Hneg.
    destruct (inv_remove _ _ (bh_bnum h) Hneg Hinv1) as [Hinv2 _].
    set (m2 := with_hash (pmap_del (bh_bnum h) (mf_hash (mfp s))) (mfp s)) in *.
    assert (Hidx : hp ∉ List.map snd (mf_hash m2)).
    { cbn. intros Hin. apply list_elem_of_fmap in Hin as ([k p] & Heq & Hkp).
      cbn in Heq. subst p. apply pmap_del_elem in Hkp as [Hkp Hne].
      destruct (inv_index _ _ Hinv1 _ _ Hkp) as (h0 & Hh0 & Hk).
      rewrite Hh1 in Hh0. injection Hh0 as <-. cbn in Hk. congruence. }
    exact (inv_push m2 g1 hp _ Hh1 Hneg Hidx Hlive Hinv2).
Qed.

(** [mf_trans_add] of a live negative block: the invariant holds after it,
    one unit has moved from the negative blocks to the translation table,
    and [mf_neg_count] is what it was. *)
Lemma mf_trans_add_inv hp h s :
  heap s !! hp = Some h ->
  hp ∉ mf_free_first (mfp s) ->
  bh_bnum h < 0 ->
  number_fits (bh_page_count h) s ->
  mf_inv s ->
  mf_inv (snd (mf_trans_add hp s)) /\
  (neg_blocks (snd (mf_trans_add hp s)) + 1 = neg_blocks s)%nat /\
  trans_entries (snd (mf_trans_add hp s)) = S (trans_entries s) /\
  mf_neg_count (mfp (snd (mf_trans_add hp s))) = mf_neg_count (mfp s).
Proof.
  intros Hh Hlive Hneg Hfits Hinv. unfold mf_inv in Hinv.
  unfold mf_trans_add. rewrite (hdr_Some _ _ _ Hh).
  rewrite (proj2 (Z.leb_gt 0 (bh_bnum h)) Hneg).
  pose proof (inv_pages _ _ Hinv hp h Hh) as Hpc.
  set (choice := match head (mf_free_first (mfp s)) with
                 | Some freep => _
                 | None => _
                 end).
  assert (Hchoice : exists new_bnum s1,
            choice = (new_bnum, s1) /\ 0 <= new_bnum /\
            mf_inv_of (mfp s1) (heap s1) /\
            heap s1 !! hp = Some h /\
            (hp ∉ mf_free_first (mfp s1)) /\
            mf_hash (mfp s1) = mf_hash (mfp s) /\
            mf_trans (mfp s1) = mf_trans (mfp s) /\
            mf_neg_count (mfp s1) = mf_neg_count (mfp s)).
  { subst choice. unfold number_fits in Hfits.
    assert (Hmax : forall m', m' = with_blocknr_max
                       (int64 (mf_blocknr_max (mfp s) + bh_page_count h)) (mfp s) ->
              mf_blocknr_max (mfp s) + bh_page_count h <= INT64_MAX ->
              mf_inv_of m' (heap s)).
    { intros m' -> Hle. apply (inv_fields (mfp s)); try reflexivity; [|exact Hinv].
      cbn. pose proof (inv_max _ _ Hinv). rewrite int64_id; [lia|].
      unfold is_int64, INT64_MIN, INT64_MAX in *. lia. }
    destruct (mf_free_first (mfp s)) as [|freep free] eqn:Hfree; cbn [head] in *.
    { eexists _, _. split; [reflexivity|]. cbn. rewrite Hfree.
      split; [apply (inv_max _ _ Hinv)|]. split; [apply Hmax; [reflexivity | exact Hfits]|].
      auto. }
    assert (Hfreep : freep ∈ mf_free_first (mfp s))
      by (rewrite Hfree; apply list_elem_of_here).
    destruct (inv_free _ _ Hinv freep Hfreep) as ((hf & Hhf & Hbf) & Hnotidx).
    assert (Hne : freep <> hp)
      by (intros ->; try rewrite Hfree in Hlive; apply Hlive, list_elem_of_here).
    rewrite (hdr_Some _ _ _ Hhf) in *.
    destruct (bh_page_count h <=? bh_page_count hf) eqn:Hle.
    2:{ eexists _, _. split; [reflexivity|]. cbn. rewrite Hfree.
        split; [apply (inv_max _ _ Hinv)|].
        split; [apply Hmax; [reflexivity | exact Hfits]|]. auto. }
    destruct (bh_page_count h <? bh_page_count hf) eqn:Hlt.
    - (* the run is longer: it is shortened in place *)
      eexists _, _. split; [reflexivity|]. split; [exact Hbf|]. cbn.
      rewrite Hfree. split; [|heap_lookup; auto].
      apply (inv_frame (mfp s) (heap s)); try reflexivity; [apply (inv_max _ _ Hinv)| |exact Hinv].
      intros p. destruct (decide (freep = p)) as [<-|Hnp].
      + heap_lookup. rewrite Hhf. cbn.
        split; [apply uint_range|]. right. split; [exact Hfreep|].
        rewrite int64_id; [lia|]. unfold is_int64, INT64_MIN, INT64_MAX in *. lia.
      + heap_lookup. destruct (heap s !! p) as [h0|] eqn:Hp; [|exact I].
        split; [apply (inv_pages _ _ Hinv p h0 Hp) | left; reflexivity].
    - (* the run fits: its header is freed *)
      cbn. rewrite Hfree. cbn.
      eexists _, _. split; [reflexivity|]. split; [exact Hbf|]. cbn.
      pose proof (inv_free_nodup _ _ Hinv) as Hnd. rewrite Hfree in Hnd.
      apply NoDup_cons in Hnd as [Hnotin Hnd].
      split.
      + apply inv_dealloc; cbn; [exact Hnotidx | rewrite Hfree; exact Hnotin|].
        apply (inv_pop _ _ Hinv).
      + split; [rewrite lookup_delete_ne by exact Hne; exact Hh|].
        split; [|auto]. rewrite Hfree. cbn. intros Hin. apply Hlive. try rewrite Hfree.
        apply list_elem_of_further, Hin. }
  destruct Hchoice as (new_bnum & s1 & -> & Hnew & Hinv1 & Hh1 & Hlive1 & Hhash1 & Htrans1 & Hneg1).
  rewrite (hdr_Some _ _ _ Hh1).
  destruct (inv_renumber _ _ hp h new_bnum Hh1 Hneg Hlive1 Hnew Hinv1)
    as (Hinv2 & Hnegs & Hsize).
  unfold mf_inv, neg_blocks, trans_entries. cbn -[negs].
  rewrite (alter_as_insert _ _ _ _ Hh1).
  rewrite Hhash1, Htrans1 in *.
  split; [exact Hinv2|]. split; [exact Hnegs|]. split; [exact Hsize | exact Hneg1].
Qed.

Lemma number_fits_upd page_count hp (f : bhdr_T -> bhdr_T) s :
  hp ∉ mf_free_first (mfp s) ->
  number_fits page_count s -> number_fits page_count (upd_hdr hp f s).
Proof.
  unfold number_fits. cbn [mfp upd_hdr set_heap].
  destruct (mf_free_first (mfp s)) as [|freep free]; cbn [head]; [auto|].
  intros Hlive. assert (Hne : hp <> freep) by (intros ->; apply Hlive, list_elem_of_here).
  unfold hdr. cbn. rewrite lookup_alter_ne by exact Hne. auto.
Qed.

Lemma mf_put_core hp h f infile s1 :
  heap s1 !! hp = Some h ->
  hp ∉ mf_free_first (mfp s1) ->
  (infile = true -> bh_bnum h < 0 -> number_fits (bh_page_count h) s1) ->
  mf_inv s1 ->
  mf_inv (if infile then snd (mf_trans_add hp (upd_hdr hp (with_flags f) s1))
          else upd_hdr hp (with_flags f) s1).
Proof.
  intros Hh Hlive Hfits Hinv.
  assert (Hinv2 : mf_inv (upd_hdr hp (with_flags f) s1)).
  { unfold mf_inv in *. cbn. apply inv_upd; auto. }
  assert (Hh2 : heap (upd_hdr hp (with_flags f) s1) !! hp = Some (with_flags f h)).
  { cbn. rewrite lookup_alter_eq, Hh. reflexivity. }
  destruct infile; [|exact Hinv2].
  destruct (Z.ltb_spec (bh_bnum h) 0) as [Hneg|Hpos].
  - apply (mf_trans_add_inv hp _ _ Hh2); [exact Hlive | exact Hneg | | exact Hinv2].
    apply number_fits_upd; [exact Hlive|]. apply Hfits; [reflexivity | exact Hneg].
  - unfold mf_trans_add. rewrite (hdr_Some _ _ _ Hh2). cbn [bh_bnum with_flags].
    rewrite (proj2 (Z.leb_le 0 (bh_bnum h)) Hpos). exact Hinv2.
Qed.

(** [mf_put] of a live header. *)
Lemma mf_put_inv hp dirty infile s :
  live s hp ->
  (infile = true -> bh_bnum (hdr s hp) < 0 ->
   number_fits (bh_page_count (hdr s hp)) s) ->
  mf_inv s -> mf_inv (mf_put hp dirty infile s).
Proof.
  intros [[h Hh] Hlive] Hfits Hinv. rewrite (hdr_Some _ _ _ Hh) in Hfits.
  unfold mf_put. rewrite (hdr_Some _ _ _ Hh).
  assert (Hdirty : forall s0, mf_inv s0 -> mf_inv (set_mfp (with_dirty MF_DIRTY_YES) s0)).
  { intros s0 H0. unfold mf_inv in *. cbn.
    apply (inv_fields (mfp s0)); try reflexivity; [apply (inv_max _ _ H0) | exact H0]. }
  destruct (Z.land (bh_flags h) BH_LOCKED =? 0), dirty; cbv beta iota zeta;
    try destruct (decide (mf_dirty _ = MF_DIRTY_YES_NOSYNC));
    apply (mf_put_core hp h); try assumption; try (apply Hdirty; assumption);
    try (apply Hdirty, Hinv).
Qed.

(** The second half of [mf_new] on a header with a non-negative number. *)
Lemma mf_new_init_inv page_count hp h1 s1 :
  heap s1 !! hp = Some h1 ->
  0 <= bh_bnum h1 ->
  0 <= page_count ->
  hp ∉ mf_free_first (mfp s1) ->
  mf_inv s1 -> mf_inv (mf_new_init page_count hp s1).
Proof.
  intros Hh Hb Hpc Hlive Hinv. unfold mf_inv, mf_new_init in *.
  set (f1 := with_flags (Z.lor BH_LOCKED BH_DIRTY)).
  set (f2 := with_page_count page_count).
  set (g2 := alter f2 hp (alter f1 hp (heap s1))).
  assert (Hh2 : g2 !! hp = Some (f2 (f1 h1))).
  { subst g2. rewrite !lookup_alter_eq, Hh. reflexivity. }
  assert (Hinv2 : mf_inv_of (with_dirty MF_DIRTY_YES (mfp s1)) g2).
  { subst g2. apply inv_upd; [reflexivity | intros; exact Hpc|].
    apply inv_upd; [reflexivity | auto|].
    apply (inv_fields (mfp s1)); try reflexivity; [apply (inv_max _ _ Hinv) | exact Hinv]. }
  destruct (inv_insert (with_dirty MF_DIRTY_YES (mfp s1)) g2 (bh_bnum h1) hp _
              Hh2 eq_refl Hb Hlive Hinv2) as [Hinv3 _].
  cbn -[memset]. unfold hdr. cbn -[memset]. fold f1 f2 g2. rewrite Hh2. cbn -[memset].
  apply inv_upd; [reflexivity | auto | exact Hinv3].
Qed.

(** [mf_new]. *)
Lemma mf_new_inv (negative : bool) page_count s :
  is_uint page_count ->
  (if negative
   then INT64_MIN < mf_blocknr_min (mfp s) /\ mf_neg_count (mfp s) < INT64_MAX
   else number_fits page_count s) ->
  mf_inv s -> mf_inv (snd (mf_new negative page_count s)).
Proof.
  intros [Hpc _] Hguard Hinv. rewrite mf_new_halves.
  pose proof (fresh_heap_None s) as Hfresh.
  set (hp0 := fresh (dom (heap s))) in *.
  set (h0 := Bhdr (int64 (uninit s 0%nat))
                  (xmalloc (mf_page_size (mfp s) * page_count) s)
                  page_count (uint (uninit s 1%nat))).
  assert (Hnotfree : hp0 ∉ mf_free_first (mfp s)).
  { intros Hin. destruct (inv_free _ _ Hinv hp0 Hin) as ((h & Hh & _) & _). congruence. }
  (* a new positive number *)
  assert (Hpositive :
    mf_blocknr_max (mfp s) + page_count <= INT64_MAX ->
    mf_inv (mf_new_init page_count hp0
              (set_mfp (fun m => with_blocknr_max
                                   (int64 (mf_blocknr_max m + page_count)) m)
                 (upd_hdr hp0 (with_bnum (mf_blocknr_max (mfp s)))
                    (set_heap (insert hp0 h0) s))))).
  { intros Hfit. pose proof (inv_max _ _ Hinv) as Hmax.
    eapply (mf_new_init_inv _ _ (with_bnum (mf_blocknr_max (mfp s)) h0));
      [cbn; rewrite alter_insert_eq, lookup_insert_eq; reflexivity
      |exact Hmax | exact Hpc | exact Hnotfree|].
    unfold mf_inv. cbn. rewrite alter_insert_eq.
    apply (inv_fields (mfp s)); try reflexivity.
    - cbn. rewrite int64_id; [lia|]. unfold is_int64, INT64_MIN, INT64_MAX in *. lia.
    - apply inv_alloc; [exact Hfresh | exact Hmax | exact Hpc | exact Hinv]. }
  unfold mf_new_number, mf_alloc_bhdr. fold hp0 h0.
  destruct negative.
  - (* a new negative number *)
    destruct Hguard as [Hmin Hcount].
    assert (Hnew : forall s', s' =
              mf_new_init page_count hp0
                (set_mfp (fun m => with_neg_count (int64 (mf_neg_count m + 1)) m)
                   (set_mfp (fun m => with_blocknr_min (int64 (mf_blocknr_min m - 1)) m)
                      (upd_hdr hp0 (with_bnum (mf_blocknr_min (mfp s)))
                         (set_heap (insert hp0 h0) s)))) ->
              mf_inv s').
    { intros s' ->. unfold mf_inv, mf_new_init, hdr. cbn -[memset].
      rewrite !alter_insert_eq, lookup_insert_eq. cbn -[memset].
      pose proof (inv_count_pos _ _ Hinv) as Hcnt. pose proof (inv_min _ _ Hinv).
      rewrite !int64_id by (unfold is_int64, INT64_MIN, INT64_MAX in *; lia).
      eapply inv_fields;
        [| | | | | |apply (inv_alloc_neg (mfp s) (heap s) hp0); [exact Hfresh| | |exact Hcount|exact Hinv]];
        try reflexivity; [apply (inv_max _ _ Hinv) | exact Hpc]. }
    destruct (head (mf_free_first (mfp s))); cbn [negb andb snd]; apply Hnew; reflexivity.
  - unfold number_fits in Hguard.
    destruct (mf_free_first (mfp s)) as [|freep free] eqn:Hfree; cbn [head negb andb] in *;
      [apply Hpositive, Hguard|].
    assert (Hfreep : freep ∈ mf_free_first (mfp s))
      by (rewrite Hfree; apply list_elem_of_here).
    destruct (inv_free _ _ Hinv freep Hfreep) as ((hf & Hhf & Hbf) & Hnotidx).
    rewrite (hdr_Some _ _ _ Hhf) in *.
    destruct (page_count <=? bh_page_count hf) eqn:Hle; [|apply Hpositive, Hguard].
    assert (Hne : freep <> hp0) by congruence.
    destruct (page_count <? bh_page_count hf) eqn:Hlt; cbn [snd].
    + (* the run is longer: take the pages needed *)
      assert (Hhf' : hdr (set_heap (insert hp0 h0) s) freep = hf).
      { apply hdr_Some. cbn. rewrite lookup_insert_ne by congruence. exact Hhf. }
      rewrite Hhf'.
      eapply (mf_new_init_inv _ _ (with_bnum (bh_bnum hf) h0));
        [cbn; heap_lookup; reflexivity | exact Hbf | exact Hpc
        |cbn; rewrite ?Hfree; exact Hnotfree|].
      unfold mf_inv. cbn.
      apply (inv_frame (mfp s) (<[hp0 := with_bnum (bh_bnum hf) h0]> (heap s)));
        try reflexivity; [apply (inv_max _ _ Hinv)| |].
      * intros p. rewrite alter_insert_eq.
        destruct (decide (freep = p)) as [<-|Hnp].
        -- heap_lookup. rewrite Hhf. cbn. split; [apply uint_range|].
           right. split; [exact Hfreep|]. rewrite int64_id; [lia|].
           unfold is_int64, INT64_MIN, INT64_MAX in *. lia.
        -- heap_lookup.
           destruct (<[hp0:=with_bnum (bh_bnum hf) h0]> (heap s) !! p) as [hx|] eqn:Hp;
             [|exact I].
           split; [|left; reflexivity].
           apply lookup_insert_Some in Hp as [[_ <-]|[_ Hp]]; [exact Hpc|].
           apply (inv_pages _ _ Hinv p hx Hp).
      * apply inv_alloc; [exact Hfresh | exact Hbf | exact Hpc | exact Hinv].
    + (* the run fits: use its header *)
      unfold mf_rem_free. rewrite Hfree. cbn [head tail default].
      pose proof (inv_free_nodup _ _ Hinv) as Hnd. rewrite Hfree in Hnd.
      apply NoDup_cons in Hnd as [Hnotin _].
      eapply (mf_new_init_inv _ _ (with_data _ hf));
        [cbn; rewrite lookup_alter_eq, Hhf; reflexivity | exact Hbf | exact Hpc
        |cbn; rewrite Hfree; exact Hnotin|].
      unfold mf_inv. cbn. apply inv_upd; [reflexivity | auto|].
      apply (inv_pop _ _ Hinv).
Qed.

Lemma mf_read_frame hp s r s' :
  mf_read hp s = Some (r, s') ->
  mfp s' = mfp s /\
  (heap s' = heap s \/ exists buf, heap s' = alter (with_data buf) hp (heap s)).
Proof.
  unfold mf_read.
  destruct (mf_fd (mfp s) <? 0); [intros [= <- <-]; auto|].
  pose proof (vim_lseek_spec (int64 (mf_page_size (mfp s) * bh_bnum (hdr s hp))) s) as L.
  destruct (vim_lseek _ s) as [r1 s1]. cbn [fst snd] in L. destruct L as (Lm & Lh & _).
  destruct (negb _); [intros [= <- <-]; cbn; auto|].
  destruct (_ || _); [discriminate|].
  unfold read_eintr, os_next.
  destruct (hd 0 (os_replies s1) =? 0); cbv beta iota zeta;
    destruct (negb _); intros [= <- <-]; cbn; rewrite Lm, Lh; eauto.
Qed.

(** [mf_get]. *)
Lemma mf_get_inv nr page_count s r s' :
  is_uint page_count ->
  mf_get nr page_count s = Some (r, s') ->
  mf_inv s -> mf_inv s'.
Proof.
  intros [Hpc _]. unfold mf_get.
  destruct (_ || _); [intros [= <- <-]; auto|].
  destruct (pmap_get nr (mf_hash (mfp s))) as [hp|] eqn:Hget.
  - (* in the index: taken out and put in again *)
    intros [= <- <-] Hinv. unfold mf_inv in *.
    apply pmap_get_elem in Hget.
    destruct (inv_index _ _ Hinv _ _ Hget) as (h & Hh & Hb).
    unfold hdr. cbn. rewrite lookup_alter_eq, Hh. cbn. rewrite Hb.
    apply inv_upd; [reflexivity | auto|].
    exact (inv_relocate (mfp s) (heap s) nr hp Hget Hinv).
  - destruct (_ || _) eqn:Hfile; [intros [= <- <-]; auto|].
    apply orb_false_elim in Hfile as [Hnr _]. apply Z.ltb_ge in Hnr.
    destruct (negb _); [intros [= <- <-]; auto|].
    unfold mf_alloc_bhdr.
    pose proof (fresh_heap_None s) as Hfresh.
    set (hp0 := fresh (dom (heap s))) in *.
    set (h0 := Bhdr _ _ _ _).
    set (s3 := upd_hdr hp0 (with_page_count page_count) _).
    set (h3 := with_page_count page_count (with_flags 0 (with_bnum nr h0))).
    assert (Hheap3 : heap s3 = <[hp0 := h3]> (heap s)).
    { subst s3. cbn. rewrite !alter_insert_eq. reflexivity. }
    assert (Hmfp3 : mfp s3 = mfp s) by reflexivity.
    destruct (mf_read hp0 s3) as [[[] s4]|] eqn:Hread; [| |discriminate];
      apply mf_read_frame in Hread as [Hmfp4 Hheap4]; rewrite Hmfp3 in Hmfp4;
      rewrite Hheap3 in Hheap4; intros [= <- <-] Hinv; unfold mf_inv in *.
    + (* read from the file *)
      assert (Hh4 : exists h4, heap s4 = <[hp0 := h4]> (heap s) /\
                               bh_bnum h4 = nr /\ bh_page_count h4 = page_count).
      { destruct Hheap4 as [->|[buf ->]]; [exists h3; auto|].
        rewrite alter_insert_eq. eexists. split; [reflexivity|]. auto. }
      destruct Hh4 as (h4 & Hheap & Hb4 & Hpc4).
      unfold hdr. cbn. rewrite Hheap, alter_insert_eq, lookup_insert_eq. cbn.
      rewrite Hmfp4, Hb4.
      set (h5 := with_flags _ h4).
      assert (Hinv5 : mf_inv_of (mfp s) (<[hp0 := h5]> (heap s))).
      { apply inv_alloc; [exact Hfresh | cbn; lia | cbn; lia | exact Hinv]. }
      assert (Hnotfree : hp0 ∉ mf_free_first (mfp s)).
      { intros Hin. destruct (inv_free _ _ Hinv hp0 Hin) as ((h & Hh & _) & _). congruence. }
      exact (proj1 (inv_insert (mfp s) _ nr hp0 h5 (lookup_insert_eq _ _ _) Hb4 Hnr
                      Hnotfree Hinv5)).
    + (* cannot read the block: the header is freed *)
      cbn. rewrite Hmfp4.
      assert (Hback : delete hp0 (heap s4) = heap s).
      { destruct Hheap4 as [->|[buf ->]]; rewrite ?alter_insert_eq;
          rewrite delete_insert_eq; apply delete_id, Hfresh. }
      rewrite Hback. exact Hinv.
Qed.

Lemma quot_nonneg a b : 0 <= a -> 0 < b -> 0 <= a `quot` b.
Proof. intros. apply Z.quot_pos; lia. Qed.

(** What [mf_open] leaves. *)
Lemma mf_open_spec lo hi fname flags env s :
  mf_open lo hi fname flags env = Some (true, s) ->
  heap s = heap env /\
  mf_hash (mfp s) = [] /\ mf_free_first (mfp s) = [] /\ mf_trans (mfp s) = ∅ /\
  mf_blocknr_min (mfp s) = -1 /\ mf_neg_count (mfp s) = 0 /\
  0 <= mf_blocknr_max (mfp s) /\
  mf_infile_count (mfp s) = mf_blocknr_max (mfp s).
Proof.
  unfold mf_open.
  destruct (if fname then mf_do_open flags env else _) as [opened s0] eqn:Hdo.
  assert (Hheap0 : heap s0 = heap env).
  { destruct fname; [|injection Hdo as _ <-; reflexivity].
    unfold mf_do_open, os_next in Hdo. revert Hdo. split_cases; intros; simplify_eq; reflexivity. }
  destruct opened; cbn [negb]; [|discriminate].
  set (s1 := set_mfp (with_page_size MEMFILE_PAGE_SIZE) _).
  set (s2 := if 0 <=? mf_fd (mfp s1) then _ else s1).
  assert (H2 : heap s2 = heap env /\
               mf_hash (mfp s2) = [] /\ mf_free_first (mfp s2) = [] /\
               mf_trans (mfp s2) = ∅ /\
               (mf_page_size (mfp s2) = MEMFILE_PAGE_SIZE \/
                exists b, mf_page_size (mfp s2) = uint b)).
  { subst s2. unfold os_next. split_cases; cbn; rewrite ?Hheap0; eauto 10. }
  destruct H2 as (Hh2 & Hhash2 & Hfree2 & Htrans2 & Hps2).
  set (sized := if _ || _ then _ else _).
  assert (Hsized : forall b s3, sized = Some (b, s3) ->
            heap s3 = heap env /\
            mf_hash (mfp s3) = [] /\ mf_free_first (mfp s3) = [] /\
            mf_trans (mfp s3) = ∅ /\ 0 <= mf_blocknr_max (mfp s3)).
  { intros b s3. subst sized. unfold os_next.
    destruct (_ || _); [intros [= <- <-]; cbn; auto with lia|].
    cbv beta iota zeta. cbn [fst snd].
    destruct (int64 _ <=? 0) eqn:Hsize; [intros [= <- <-]; cbn; auto with lia|].
    apply Z.leb_gt in Hsize.
    destruct (_ && _) eqn:Hassert; [|discriminate].
    apply andb_prop in Hassert as [Hpos Hfit]. cbn in Hpos, Hfit.
    apply Z.ltb_lt in Hpos. apply Z.leb_le in Hfit.
    intros [= <- <-]. cbn. repeat (split; [assumption|]).
    apply quot_nonneg; [|exact Hpos].
    assert (Hu : is_uint (mf_page_size (mfp s2) - 1)).
    { destruct Hps2 as [->|[b0 Hb0]].
      - unfold is_uint, MEMFILE_PAGE_SIZE, UINT_MAX. lia.
      - pose proof (uint_range b0) as Hr. rewrite <- Hb0 in Hr.
        unfold is_uint in *. lia. }
    rewrite (uint_id _ Hu) in Hfit.
    rewrite int64_id; [lia|]. unfold is_uint, is_int64, INT64_MIN, INT64_MAX in *. lia. }
  destruct sized as [[b s3]|]; [|discriminate].
  destruct (Hsized b s3 eq_refl) as (Hh3 & Hhash3 & Hfree3 & Htrans3 & Hmax3).
  intros [= <-]. cbn. auto 10.
Qed.

Lemma mf_open_inv lo hi fname flags env s :
  heap env = ∅ ->
  mf_open lo hi fname flags env = Some (true, s) ->
  mf_inv s.
Proof.
  intros Hempty Hopen.
  apply mf_open_spec in Hopen as (Hheap & Hhash & Hfree & Htrans & Hmin & Hneg & Hmax & _).
  rewrite Hempty in Hheap. unfold mf_inv.
  constructor; rewrite ?Hhash, ?Hfree, ?Htrans, ?Hmin, ?Hneg, ?Hheap; cbn;
    try (intros; exfalso; eapply not_elem_of_nil; eassumption).
  - constructor.
  - intros p h Hp. rewrite lookup_empty in Hp. discriminate.
  - constructor.
  - intros p h Hp. rewrite lookup_empty in Hp. discriminate.
  - lia.
  - intros k [x Hk]. rewrite lookup_empty in Hk. discriminate.
  - exact Hmax.
  - rewrite map_size_empty. reflexivity.
  - unfold INT64_MAX. lia.
Qed.

Lemma mf_trans_add_step_inv hp s :
  live s hp ->
  (bh_bnum (hdr s hp) < 0 -> number_fits (bh_page_count (hdr s hp)) s) ->
  mf_inv s -> mf_inv (snd (mf_trans_add hp s)).
Proof.
  intros [[h Hh] Hnotfree] Hfits Hinv.
  rewrite (hdr_Some _ _ _ Hh) in Hfits.
  destruct (Z.lt_ge_cases (bh_bnum h) 0) as [Hneg|Hpos].
  - exact (proj1 (mf_trans_add_inv hp h s Hh Hnotfree Hneg (Hfits Hneg) Hinv)).
  - unfold mf_trans_add. rewrite (hdr_Some _ _ _ Hh).
    rewrite (proj2 (Z.leb_le 0 _) Hpos). exact Hinv.
Qed.

(** The invariant holds in every reachable state. *)
Lemma reachable_inv s : reachable s -> mf_inv s.
Proof.
  induction 1 as [lo hi fname flags env s Hempty Hopen|s s' _ IH Hstep].
  - eapply mf_open_inv; eassumption.
  - destruct Hstep.
    + apply mf_new_inv; assumption.
    + eapply mf_get_inv; eassumption.
    + apply mf_put_inv; assumption.
    + apply mf_free_inv; assumption.
    + apply mf_trans_add_step_inv; assumption.
    + apply mf_trans_del_inv; assumption.
Qed.

(** [mf_free] of a block with a negative number takes it out of the index
    and counts it off. *)
Lemma mf_free_negative hp s :
  live s hp -> bh_bnum (hdr s hp) < 0 -> mf_inv s ->
  mf_neg_count (mfp (mf_free hp s)) = mf_neg_count (mfp s) - 1 /\
  (neg_blocks (mf_free hp s) + 1 = neg_blocks s)%nat /\
  mf_trans (mfp (mf_free hp s)) = mf_trans (mfp s).
Proof.
  intros [[h Hh] Hnotfree] Hneg Hinv. rewrite (hdr_Some _ _ _ Hh) in Hneg.
  unfold mf_inv in Hinv. unfold mf_free, neg_blocks.
  assert (Hh1 : alter (with_data []) hp (heap s) !! hp = Some (with_data [] h)).
  { rewrite lookup_alter_eq, Hh. reflexivity. }
  assert (Hhdr : hdr (upd_hdr hp (with_data []) s) hp = with_data [] h)
    by (apply hdr_Some, Hh1).
  assert (Hhdr' : forall m', hdr (set_mfp m' (upd_hdr hp (with_data []) s)) hp
                            = with_data [] h) by (intros; apply hdr_Some, Hh1).
  rewrite Hhdr, Hhdr'. cbn [bh_bnum with_data].
  rewrite (proj2 (Z.ltb_lt _ 0) Hneg). cbn -[negs].
  pose proof (inv_count _ _ Hinv) as Hcount.
  pose proof (inv_count_max _ _ Hinv) as Hmax.
  pose proof (negs_remove _ _ (inv_keys _ _ Hinv)
                (elem_key _ _ _ (inv_negative _ _ Hinv hp h Hh Hneg))) as Hrem.
  rewrite (proj2 (Z.ltb_lt _ 0) Hneg) in Hrem.
  rewrite <- pmap_del_keys in Hrem.
  split; [|split; [|reflexivity]].
  - apply int64_id. unfold is_int64, INT64_MIN, INT64_MAX in *. lia.
  - lia.
Qed.

(** [mf_trans_del] of a number that has an entry takes the entry out and
    counts it off. *)
Lemma mf_trans_del_found old_nr s :
  is_Some (mf_trans (mfp s) !! old_nr) -> mf_inv s ->
  mf_neg_count (mfp (snd (mf_trans_del old_nr s))) = mf_neg_count (mfp s) - 1 /\
  neg_blocks (snd (mf_trans_del old_nr s)) = neg_blocks s /\
  S (trans_entries (snd (mf_trans_del old_nr s))) = trans_entries s.
Proof.
  intros [new_bnum Hfound] Hinv. unfold mf_inv in Hinv.
  unfold mf_trans_del, neg_blocks, trans_entries. rewrite Hfound. cbn -[negs].
  destruct (inv_trans_del _ _ _ _ Hfound Hinv) as [_ Hsize].
  pose proof (inv_count _ _ Hinv) as Hcount.
  pose proof (inv_count_max _ _ Hinv) as Hmax.
  split; [|split; [reflexivity|exact Hsize]].
  apply int64_id. unfold is_int64, INT64_MIN, INT64_MAX in *. lia.
Qed.

(** C10. In every state reachable from [mf_open] by calls of [mf_new],
    [mf_get], [mf_put], [mf_free], [mf_trans_del] and the internal
    [mf_trans_add], [mf_neg_count] is the number of negative-numbered blocks
    in the block index plus the number of entries of the translation table.
    In such a state, [mf_trans_add] of a live block with a negative number
    leaves [mf_neg_count] as it is, with one negative block less in the index
    and one entry more in the table; [mf_free] of a live block with a
    negative number lowers [mf_neg_count] by one, with one negative block
    less in the index and the table untouched; and [mf_trans_del] of a number
    that has an entry lowers [mf_neg_count] by one, with one entry less in
    the table and the index untouched. *)
Theorem neg_count_invariant :
  (forall s, reachable s ->
     mf_neg_count (mfp s)
     = Z.of_nat (neg_blocks s) + Z.of_nat (trans_entries s)) /\
  (forall s hp, reachable s -> live s hp ->
     bh_bnum (hdr s hp) < 0 -> number_fits (bh_page_count (hdr s hp)) s ->
     mf_neg_count (mfp (snd (mf_trans_add hp s))) = mf_neg_count (mfp s) /\
     (neg_blocks (snd (mf_trans_add hp s)) + 1 = neg_blocks s)%nat /\
     trans_entries (snd (mf_trans_add hp s)) = S (trans_entries s)) /\
  (forall s hp, reachable s -> live s hp -> bh_bnum (hdr s hp) < 0 ->
     mf_neg_count (mfp (mf_free hp s)) = mf_neg_count (mfp s) - 1 /\
     (neg_blocks (mf_free hp s) + 1 = neg_blocks s)%nat /\
     trans_entries (mf_free hp s) = trans_entries s) /\
  (forall s old_nr, reachable s -> is_Some (mf_trans (mfp s) !! old_nr) ->
     mf_neg_count (mfp (snd (mf_trans_del old_nr s))) = mf_neg_count (mfp s) - 1 /\
     neg_blocks (snd (mf_trans_del old_nr s)) = neg_blocks s /\
     S (trans_entries (snd (mf_trans_del old_nr s))) = trans_entries s).
Proof.
  split; [|split; [|split]].
  - intros s Hs. exact (inv_count _ _ (reachable_inv s Hs)).
  - intros s hp Hs [[h Hh] Hnotfree] Hneg Hfits.
    rewrite (hdr_Some _ _ _ Hh) in Hneg, Hfits.
    destruct (mf_trans_add_inv hp h s Hh Hnotfree Hneg Hfits (reachable_inv s Hs))
      as (_ & Hblocks & Hentries & Hcount).
    auto.
  - intros s hp Hs Hlive Hneg.
    destruct (mf_free_negative hp s Hlive Hneg (reachable_inv s Hs))
      as (Hcount & Hblocks & Htrans).
    unfold trans_entries. rewrite Htrans. auto.
  - intros s old_nr Hs Hfound.
    exact (mf_trans_del_found old_nr s Hfound (reachable_inv s Hs)).
Qed.

Lemma neg_count_invariant_witness :
  reachable Demo.one_negative /\
  mf_neg_count (mfp Demo.one_negative) = 1 /\
  neg_blocks Demo.one_negative = 1%nat /\
  mf_neg_count (mfp Demo.one_negative)
  = Z.of_nat (neg_blocks Demo.one_negative)
    + Z.of_nat (trans_entries Demo.one_negative).
Proof.
  assert (Hreach : reachable Demo.one_negative).
  { unfold Demo.one_negative.
    apply reach_step with (s := Demo.memory_only).
    - apply (reach_open 1048 50000 false 0 (Demo.env [])); vm_compute; reflexivity.
    - apply (step_new true 1 Demo.memory_only); vm_compute; intuition congruence. }
  split; [exact Hreach|]. split; [vm_compute; reflexivity|].
  split; [vm_compute; reflexivity|].
  exact (proj1 neg_count_invariant Demo.one_negative Hreach).
Defined.

(** * Further properties of the memory file *)

(** ** The index, the free list and the numbers in use *)

Lemma pmap_get_unique k p m :
  NoDup (List.map fst m) -> (k, p) ∈ m -> pmap_get k m = Some p.
Proof.
  intros Hnd Hin.
  destruct (pmap_get k m) as [q|] eqn:Hget.
  - apply pmap_get_elem in Hget. f_equal. exact (NoDup_keys_value _ _ _ _ Hnd Hget Hin).
  - apply pmap_get_None in Hget. exfalso. apply Hget. exact (elem_key _ _ _ Hin).
Qed.

(** X1. In every reachable state the block index is sound: a number that
    the index holds leads to an allocated header that carries this number,
    is not on the free list and has no translation pending; one header is
    never filed under two numbers; and every allocated header with a
    negative number is found in the index under its number. *)
Theorem index_sound s :
  reachable s ->
  (forall nr hp, pmap_get nr (mf_hash (mfp s)) = Some hp ->
     (exists h, heap s !! hp = Some h /\ bh_bnum h = nr) /\
     (hp ∉ mf_free_first (mfp s)) /\
     mf_trans (mfp s) !! nr = None) /\
  (forall nr1 nr2 hp,
     pmap_get nr1 (mf_hash (mfp s)) = Some hp ->
     pmap_get nr2 (mf_hash (mfp s)) = Some hp -> nr1 = nr2) /\
  (forall hp h, heap s !! hp = Some h -> bh_bnum h < 0 ->
     pmap_get (bh_bnum h) (mf_hash (mfp s)) = Some hp).
Proof.
  intros Hs. pose proof (reachable_inv s Hs) as Hinv. unfold mf_inv in Hinv.
  split; [|split].
  - intros nr hp Hget. apply pmap_get_elem in Hget.
    split; [exact (inv_index _ _ Hinv _ _ Hget)|]. split.
    + intros Hfree. apply (inv_free _ _ Hinv) in Hfree as [_ Hnot].
      apply Hnot. exact (elem_value _ _ _ Hget).
    + apply (inv_trans_index _ _ Hinv). exact (elem_key _ _ _ Hget).
  - intros nr1 nr2 hp H1 H2.
    apply pmap_get_elem in H1, H2.
    destruct (inv_index _ _ Hinv _ _ H1) as (h1 & Hh1 & <-).
    destruct (inv_index _ _ Hinv _ _ H2) as (h2 & Hh2 & <-).
    congruence.
  - intros hp h Hh Hneg.
    apply pmap_get_unique; [exact (inv_keys _ _ Hinv)|].
    exact (inv_negative _ _ Hinv hp h Hh Hneg).
Qed.

Lemma one_negative_reachable : reachable Demo.one_negative.
Proof.
  unfold Demo.one_negative.
  apply reach_step with (s := Demo.memory_only).
  - apply (reach_open 1048 50000 false 0 (Demo.env [])); vm_compute; reflexivity.
  - apply (step_new true 1 Demo.memory_only); vm_compute; intuition congruence.
Defined.

Lemma index_sound_witness :
  exists h, heap Demo.one_negative !! 1%positive = Some h /\ bh_bnum h = -1.
Proof.
  apply (proj1 (index_sound Demo.one_negative one_negative_reachable) (-1) 1%positive).
  vm_compute. reflexivity.
Defined.

(** X2. In every reachable state the free list is sound: its headers are
    allocated, pairwise distinct, carry numbers that are not negative, and
    none of them is in the block index. *)
Theorem free_list_sound s :
  reachable s ->
  NoDup (mf_free_first (mfp s)) /\
  forall hp, hp ∈ mf_free_first (mfp s) ->
    (exists h, heap s !! hp = Some h /\ 0 <= bh_bnum h) /\
    forall nr, pmap_get nr (mf_hash (mfp s)) <> Some hp.
Proof.
  intros Hs. pose proof (reachable_inv s Hs) as Hinv. unfold mf_inv in Hinv.
  split; [exact (inv_free_nodup _ _ Hinv)|].
  intros hp Hfree. destruct (inv_free _ _ Hinv hp Hfree) as [Hh Hnot].
  split; [exact Hh|].
  intros nr Hget. apply pmap_get_elem in Hget.
  apply Hnot. exact (elem_value _ _ _ Hget).
Qed.

Lemma put_back_reachable : reachable Scene.put_back.
Proof.
  unfold Scene.put_back, Scene.new_block.
  apply reach_step with (s := snd (mf_new false 2 Demo.memory_only)).
  - apply reach_step with (s := Demo.memory_only).
    + apply (reach_open 1048 50000 false 0 (Demo.env [])); vm_compute; reflexivity.
    + apply (step_new false 2 Demo.memory_only); vm_compute; intuition congruence.
  - apply step_put; [|intros H; exfalso; exact (Bool.diff_false_true H)].
    split; [vm_compute; eexists; reflexivity|].
    vm_compute. intros Hin. apply elem_of_nil in Hin. exact Hin.
Defined.

Lemma one_freed_reachable : reachable Scene.one_freed.
Proof.
  unfold Scene.one_freed.
  apply reach_step with (s := Scene.put_back); [exact put_back_reachable|].
  apply step_free.
  split; [vm_compute; eexists; reflexivity|].
  vm_compute. intros Hin. apply elem_of_nil in Hin. exact Hin.
Defined.

Lemma free_list_sound_witness :
  exists h, heap Scene.one_freed !! 1%positive = Some h /\ 0 <= bh_bnum h.
Proof.
  apply (proj2 (free_list_sound Scene.one_freed one_freed_reachable) 1%positive).
  vm_compute. apply list_elem_of_here.
Defined.

(** [mf_new] for a negative number: the header is a fresh one and takes the
    number [mf_blocknr_min]. *)
Lemma mf_new_negative page_count s :
  fst (mf_new true page_count s) = fresh (dom (heap s)) /\
  bh_bnum (hdr (snd (mf_new true page_count s)) (fresh (dom (heap s))))
  = mf_blocknr_min (mfp s) /\
  mf_free_first (mfp (snd (mf_new true page_count s))) = mf_free_first (mfp s).
Proof.
  unfold mf_new. cbn [negb andb].
  assert (Hsame : forall (o : option ptr) (x : ptr * state),
            match o with Some _ => x | None => x end = x) by (intros [?|] ?; reflexivity).
  rewrite Hsame. unfold mf_alloc_bhdr. cbn.
  split; [reflexivity|]. split; [|reflexivity].
  unfold hdr. cbn. heap_lookup. reflexivity.
Qed.

(** X3. In every reachable state [mf_new] with [negative] returns a header
    that was not allocated, under a number ([mf_blocknr_min]) that no
    allocated block carries, that the block index does not hold and that has
    no translation pending: negative numbers are never used twice. *)
Theorem negative_number_fresh page_count s hp s' :
  reachable s ->
  mf_new true page_count s = (hp, s') ->
  heap s !! hp = None /\
  bh_bnum (hdr s' hp) = mf_blocknr_min (mfp s) /\
  (forall p h, heap s !! p = Some h -> bh_bnum h <> bh_bnum (hdr s' hp)) /\
  pmap_get (bh_bnum (hdr s' hp)) (mf_hash (mfp s)) = None /\
  mf_trans (mfp s) !! bh_bnum (hdr s' hp) = None.
Proof.
  intros Hs Hnew. pose proof (reachable_inv s Hs) as Hinv. unfold mf_inv in Hinv.
  destruct (mf_new_negative page_count s) as (Hhp & Hnum & _).
  rewrite Hnew in Hhp, Hnum. cbn in Hhp, Hnum. subst hp. rewrite Hnum.
  split; [apply fresh_heap_None|]. split; [reflexivity|].
  pose proof (inv_min _ _ Hinv) as Hmin.
  assert (Hkeys : mf_blocknr_min (mfp s) ∉ List.map fst (mf_hash (mfp s))).
  { intros Hin. pose proof (inv_min_index _ _ Hinv _ Hin Hmin). lia. }
  split; [|split].
  - intros p h Hp Heq. destruct (Z.lt_ge_cases (bh_bnum h) 0) as [Hneg|Hpos]; [|lia].
    apply Hkeys. rewrite <- Heq.
    exact (elem_key _ _ _ (inv_negative _ _ Hinv p h Hp Hneg)).
  - apply pmap_get_None. exact Hkeys.
  - destruct (mf_trans (mfp s) !! mf_blocknr_min (mfp s)) as [v|] eqn:Hv; [|reflexivity].
    pose proof (inv_min_trans _ _ Hinv _ (ex_intro _ v Hv)). lia.
Qed.

Lemma negative_number_fresh_witness :
  heap Demo.one_negative !! fst (mf_new true 1 Demo.one_negative) = None.
Proof.
  exact (proj1 (negative_number_fresh 1 Demo.one_negative _ _
                  one_negative_reachable (surjective_pairing _))).
Defined.

(** ** Translation of negative numbers *)

(** What [mf_trans_add] does to a live block with a negative number. *)
Lemma mf_trans_add_result hp h s :
  heap s !! hp = Some h ->
  hp ∉ mf_free_first (mfp s) ->
  bh_bnum h < 0 ->
  let s' := snd (mf_trans_add hp s) in
  let new := next_number (bh_page_count h) s in
  heap s' !! hp = Some (with_bnum new h) /\
  mf_hash (mfp s') = pmap_put new hp (pmap_del (bh_bnum h) (mf_hash (mfp s))) /\
  mf_trans (mfp s') = <[bh_bnum h := new]> (mf_trans (mfp s)) /\
  mf_neg_count (mfp s') = mf_neg_count (mfp s).
Proof.
  intros Hh Hlive Hneg. unfold mf_trans_add, next_number.
  rewrite (hdr_Some _ _ _ Hh).
  rewrite (proj2 (Z.leb_gt 0 (bh_bnum h)) Hneg).
  set (choice := match head (mf_free_first (mfp s)) with
                 | Some freep => _
                 | None => _
                 end).
  set (new := match head (mf_free_first (mfp s)) with
              | Some freep => _
              | None => _
              end).
  assert (Hchoice : exists s1,
            choice = (new, s1) /\ heap s1 !! hp = Some h /\
            mf_hash (mfp s1) = mf_hash (mfp s) /\
            mf_trans (mfp s1) = mf_trans (mfp s) /\
            mf_neg_count (mfp s1) = mf_neg_count (mfp s)).
  { subst choice new.
    destruct (mf_free_first (mfp s)) as [|freep free] eqn:Hfree; cbn [head].
    { eexists. split; [reflexivity|]. cbn. auto. }
    assert (Hne : freep <> hp)
      by (intros ->; try rewrite Hfree in Hlive; apply Hlive, list_elem_of_here).
    destruct (bh_page_count h <=? bh_page_count (hdr s freep)) eqn:Hle.
    2:{ eexists. split; [reflexivity|]. cbn. auto. }
    destruct (bh_page_count h <? bh_page_count (hdr s freep)) eqn:Hlt.
    - eexists. split; [reflexivity|]. cbn. heap_lookup. auto.
    - cbn. rewrite Hfree. cbn. eexists. split; [reflexivity|]. cbn.
      rewrite lookup_delete_ne by exact Hne. auto. }
  destruct Hchoice as (s1 & -> & Hh1 & Hhash & Htrans & Hcount).
  rewrite (hdr_Some _ _ _ Hh1). cbn.
  rewrite Hhash, Htrans, Hcount. heap_lookup. rewrite Hh1. auto.
Qed.

Lemma next_number_flags page_count hp f s0 s :
  heap s0 = heap s ->
  mf_free_first (mfp s0) = mf_free_first (mfp s) ->
  mf_blocknr_max (mfp s0) = mf_blocknr_max (mfp s) ->
  next_number page_count (upd_hdr hp (with_flags f) s0) = next_number page_count s.
Proof.
  intros Hheap Hfree Hmax. unfold next_number, hdr. cbn. rewrite Hfree, Hmax, Hheap.
  destruct (head (mf_free_first (mfp s))) as [freep|]; [|reflexivity].
  destruct (decide (hp = freep)) as [->|Hne].
  - rewrite lookup_alter_eq. destruct (heap s !! freep); reflexivity.
  - rewrite lookup_alter_ne by exact Hne. reflexivity.
Qed.

(** What [mf_put] with [infile] does to a live block with a negative
    number. *)
Lemma mf_put_translates hp h dirty s :
  heap s !! hp = Some h ->
  hp ∉ mf_free_first (mfp s) ->
  bh_bnum h < 0 ->
  let s' := mf_put hp dirty true s in
  let new := next_number (bh_page_count h) s in
  (exists f, heap s' !! hp = Some (with_bnum new (with_flags f h))) /\
  mf_hash (mfp s') = pmap_put new hp (pmap_del (bh_bnum h) (mf_hash (mfp s))) /\
  mf_trans (mfp s') = <[bh_bnum h := new]> (mf_trans (mfp s)) /\
  mf_neg_count (mfp s') = mf_neg_count (mfp s).
Proof.
  intros Hh Hlive Hneg.
  assert (Hgen : forall f s0,
            heap s0 = heap s ->
            mf_free_first (mfp s0) = mf_free_first (mfp s) ->
            mf_blocknr_max (mfp s0) = mf_blocknr_max (mfp s) ->
            mf_hash (mfp s0) = mf_hash (mfp s) ->
            mf_trans (mfp s0) = mf_trans (mfp s) ->
            mf_neg_count (mfp s0) = mf_neg_count (mfp s) ->
            let s' := snd (mf_trans_add hp (upd_hdr hp (with_flags f) s0)) in
            let new := next_number (bh_page_count h) s in
            (exists f, heap s' !! hp = Some (with_bnum new (with_flags f h))) /\
            mf_hash (mfp s') = pmap_put new hp (pmap_del (bh_bnum h) (mf_hash (mfp s))) /\
            mf_trans (mfp s') = <[bh_bnum h := new]> (mf_trans (mfp s)) /\
            mf_neg_count (mfp s') = mf_neg_count (mfp s)).
  { intros f s0 Hheap Hfree Hmax Hhash Htrans Hcount.
    assert (Hh1 : heap (upd_hdr hp (with_flags f) s0) !! hp = Some (with_flags f h)).
    { cbn. rewrite Hheap, lookup_alter_eq, Hh. reflexivity. }
    assert (Hlive1 : hp ∉ mf_free_first (mfp (upd_hdr hp (with_flags f) s0)))
      by (cbn; rewrite Hfree; exact Hlive).
    destruct (mf_trans_add_result hp _ _ Hh1 Hlive1 Hneg) as (H1 & H2 & H3 & H4).
    cbn [bh_page_count bh_bnum with_flags] in H1, H2, H3.
    rewrite (next_number_flags _ _ _ _ s Hheap Hfree Hmax) in H1, H2, H3.
    cbn. split; [exists f; exact H1|].
    rewrite H2, H3, H4. cbn. rewrite Hhash, Htrans, Hcount. auto. }
  unfold mf_put.
  destruct (Z.land (bh_flags (hdr s hp)) BH_LOCKED =? 0), dirty;
    cbv beta iota zeta; try destruct (decide _); apply Hgen; reflexivity.
Qed.

(** X4. The translation round trip.  In a reachable state, when a live block
    with a negative number [old] is put back with [infile], it has a number
    [new] that is not negative afterwards, the block index holds it under
    [new] and no longer under [old], and [mf_trans_del old] returns [new],
    counts the block off [mf_neg_count] and leaves the translation table as
    it was before the block was put back. *)
Theorem translation_round_trip hp dirty s :
  reachable s ->
  live s hp ->
  bh_bnum (hdr s hp) < 0 ->
  number_fits (bh_page_count (hdr s hp)) s ->
  let old := bh_bnum (hdr s hp) in
  let s1 := mf_put hp dirty true s in
  let new := bh_bnum (hdr s1 hp) in
  let s2 := snd (mf_trans_del old s1) in
  0 <= new /\
  pmap_get new (mf_hash (mfp s1)) = Some hp /\
  pmap_get old (mf_hash (mfp s1)) = None /\
  fst (mf_trans_del old s1) = new /\
  mf_neg_count (mfp s2) = mf_neg_count (mfp s) - 1 /\
  mf_trans (mfp s2) = mf_trans (mfp s) /\
  mf_hash (mfp s2) = mf_hash (mfp s1).
Proof.
  intros Hs [[h Hh] Hnotfree] Hneg Hfits.
  pose proof (reachable_inv s Hs) as Hinv. unfold mf_inv in Hinv.
  rewrite (hdr_Some _ _ _ Hh) in *.
  destruct (mf_put_translates hp h dirty s Hh Hnotfree Hneg)
    as ((f & Hh1) & Hhash & Htrans & Hcount).
  cbv zeta. rewrite (hdr_Some _ _ _ Hh1). cbn [bh_bnum with_bnum].
  set (new := next_number (bh_page_count h) s) in *.
  assert (Hnew : 0 <= new).
  { subst new. unfold next_number.
    destruct (mf_free_first (mfp s)) as [|freep free] eqn:Hfree; cbn [head];
      [exact (inv_max _ _ Hinv)|].
    destruct (_ <=? _); [|exact (inv_max _ _ Hinv)].
    assert (Hfreep : freep ∈ mf_free_first (mfp s))
      by (rewrite Hfree; apply list_elem_of_here).
    destruct (inv_free _ _ Hinv freep Hfreep) as ((hf & Hhf & Hbf) & _).
    rewrite (hdr_Some _ _ _ Hhf). exact Hbf. }
  assert (Hold : mf_trans (mfp s) !! bh_bnum h = None).
  { apply (inv_trans_index _ _ Hinv).
    exact (elem_key _ _ _ (inv_negative _ _ Hinv hp h Hh Hneg)). }
  split; [exact Hnew|]. split; [rewrite Hhash; apply pmap_get_put_eq|].
  split.
  { rewrite Hhash. apply pmap_get_None. rewrite pmap_put_keys.
    assert (Hdel : bh_bnum h ∉ List.map fst (pmap_del (bh_bnum h) (mf_hash (mfp s)))).
    { rewrite pmap_del_keys. intros Hin.
      apply list_elem_of_In, List.filter_In in Hin as [_ Hin].
      rewrite Z.eqb_refl in Hin. discriminate. }
    intros Hin. destruct (decide _) in Hin; [exact (Hdel Hin)|].
    apply elem_of_app in Hin as [Hin|Hin]; [exact (Hdel Hin)|].
    apply list_elem_of_singleton in Hin. lia. }
  unfold mf_trans_del. rewrite Htrans, lookup_insert_eq. cbn.
  split; [reflexivity|]. rewrite Hcount, Htrans, delete_insert_eq.
  split; [|split; [apply delete_id; exact Hold|reflexivity]].
  apply int64_id.
  pose proof (inv_count _ _ Hinv). pose proof (inv_count_max _ _ Hinv).
  unfold is_int64, INT64_MIN, INT64_MAX in *. lia.
Qed.

Lemma translation_round_trip_witness :
  0 <= bh_bnum (hdr (mf_put 1%positive true true Demo.one_negative) 1%positive).
Proof.
  refine (proj1 (translation_round_trip 1%positive true Demo.one_negative
                   one_negative_reachable _ _ _)).
  - split; [vm_compute; eexists; reflexivity|].
    vm_compute. intros Hin. apply elem_of_nil in Hin. exact Hin.
  - vm_compute; reflexivity.
  - vm_compute; intros H; discriminate H.
Defined.

(** ** Block numbers are recycled *)

(** [mf_free] of an allocated block with a number that is not negative. *)
Lemma mf_free_positive hp h s :
  heap s !! hp = Some h -> 0 <= bh_bnum h ->
  heap (mf_free hp s) = <[hp := with_data [] h]> (heap s) /\
  mfp (mf_free hp s)
  = with_free_first (hp :: mf_free_first (mfp s))
      (with_hash (pmap_del (bh_bnum h) (mf_hash (mfp s))) (mfp s)) /\
  os_replies (mf_free hp s) = os_replies s /\
  uninit (mf_free hp s) = uninit s.
Proof.
  intros Hh Hpos. unfold mf_free.
  assert (Hh1 : heap (upd_hdr hp (with_data []) s) !! hp = Some (with_data [] h)).
  { cbn. rewrite lookup_alter_eq, Hh. reflexivity. }
  rewrite (hdr_Some (upd_hdr hp (with_data []) s) hp _ Hh1).
  assert (Hhdr' : forall m', hdr (set_mfp m' (upd_hdr hp (with_data []) s)) hp
                            = with_data [] h) by (intros; apply hdr_Some, Hh1).
  rewrite Hhdr'. cbn [bh_bnum with_data].
  rewrite (proj2 (Z.ltb_ge _ 0) Hpos). cbn.
  rewrite (alter_as_insert _ _ _ _ Hh). auto.
Qed.

(** [mf_new] when the first free block has exactly the pages asked for. *)
Lemma mf_new_reuse page_count s freep free hf :
  mf_free_first (mfp s) = freep :: free ->
  heap s !! freep = Some hf ->
  bh_page_count hf = page_count ->
  let s' := snd (mf_new false page_count s) in
  fst (mf_new false page_count s) = freep /\
  heap s' = <[freep := Bhdr (bh_bnum hf)
                         (replicate (Z.to_nat (mf_page_size (mfp s) * page_count)) 0)
                         page_count (Z.lor BH_LOCKED BH_DIRTY)]> (heap s) /\
  mfp s' = with_hash (pmap_put (bh_bnum hf) freep (mf_hash (mfp s)))
             (with_dirty MF_DIRTY_YES (with_free_first free (mfp s))).
Proof.
  intros Hfree Hhf Hpc. rewrite mf_new_halves.
  assert (Hnum : mf_new_number false page_count s
                 = (freep, upd_hdr freep
                             (with_data (xmalloc (mf_page_size (mfp s) * page_count) s))
                             (set_mfp (fun m => with_free_first (tail (mf_free_first m)) m) s))).
  { unfold mf_new_number. rewrite Hfree. cbn [head negb andb].
    rewrite (hdr_Some _ _ _ Hhf), Hpc, Z.leb_refl, Z.ltb_irrefl.
    unfold mf_rem_free. rewrite Hfree. reflexivity. }
  rewrite Hnum. cbn [fst snd]. split; [reflexivity|].
  set (s1 := upd_hdr freep _ _).
  assert (Hh1 : heap s1 !! freep
                = Some (with_data (xmalloc (mf_page_size (mfp s) * page_count) s) hf)).
  { subst s1. cbn. rewrite lookup_alter_eq, Hhf. reflexivity. }
  unfold mf_new_init. cbn. split.
  - rewrite (alter_as_insert _ _ _ _ Hhf), !alter_insert_eq. cbn.
    rewrite memset_all by apply length_xmalloc. reflexivity.
  - unfold hdr. cbn. heap_lookup. rewrite Hhf, Hfree. reflexivity.
Qed.

(** [mf_new] when the first free block has more pages than asked for. *)
Lemma mf_new_split page_count s freep free hf :
  mf_free_first (mfp s) = freep :: free ->
  heap s !! freep = Some hf ->
  page_count < bh_page_count hf ->
  let hp := fresh (dom (heap s)) in
  let s' := snd (mf_new false page_count s) in
  fst (mf_new false page_count s) = hp /\
  heap s' !! hp = Some (Bhdr (bh_bnum hf)
                          (replicate (Z.to_nat (mf_page_size (mfp s) * page_count)) 0)
                          page_count (Z.lor BH_LOCKED BH_DIRTY)) /\
  heap s' !! freep = Some (Bhdr (int64 (bh_bnum hf + page_count)) (bh_data hf)
                             (uint (bh_page_count hf - page_count)) (bh_flags hf)) /\
  (forall p, p <> hp -> p <> freep -> heap s' !! p = heap s !! p) /\
  mfp s' = with_hash (pmap_put (bh_bnum hf) hp (mf_hash (mfp s)))
             (with_dirty MF_DIRTY_YES (mfp s)).
Proof.
  intros Hfree Hhf Hpc hp.
  assert (Hne : hp <> freep).
  { intros Heq. pose proof (fresh_heap_None s) as Hnone. fold hp in Hnone.
    rewrite Heq, Hhf in Hnone. discriminate. }
  unfold mf_new. rewrite Hfree. cbn [head negb andb].
  rewrite (hdr_Some _ _ _ Hhf).
  rewrite (proj2 (Z.leb_le _ _) (Z.lt_le_incl _ _ Hpc)), (proj2 (Z.ltb_lt _ _) Hpc).
  unfold mf_alloc_bhdr. fold hp. cbn. split; [reflexivity|].
  unfold hdr. cbn. heap_lookup. rewrite Hhf. cbn. heap_lookup. cbn.
  split; [|split; [|split]].
  - rewrite memset_all by apply length_xmalloc. reflexivity.
  - reflexivity.
  - intros p Hp1 Hp2. heap_lookup. reflexivity.
  - reflexivity.
Qed.

(** X5. A number is recycled with its header.  When a live block with
    a number that is not negative is freed and a block of as many pages is
    asked for next, [mf_new] returns the same header under the same number,
    locked, dirty and filled with zeros; no header is allocated, the free
    list is the one before [mf_free], and [mf_blocknr_max] has not moved. *)
Theorem mf_free_new_reuses hp h s :
  heap s !! hp = Some h ->
  hp ∉ mf_free_first (mfp s) ->
  0 <= bh_bnum h ->
  let r := mf_new false (bh_page_count h) (mf_free hp s) in
  fst r = hp /\
  heap (snd r) = <[hp := Bhdr (bh_bnum h)
                     (replicate (Z.to_nat (mf_page_size (mfp s) * bh_page_count h)) 0)
                     (bh_page_count h) (Z.lor BH_LOCKED BH_DIRTY)]> (heap s) /\
  pmap_get (bh_bnum h) (mf_hash (mfp (snd r))) = Some hp /\
  mf_free_first (mfp (snd r)) = mf_free_first (mfp s) /\
  mf_blocknr_max (mfp (snd r)) = mf_blocknr_max (mfp s).
Proof.
  intros Hh _ Hpos.
  destruct (mf_free_positive hp h s Hh Hpos) as (Hheap & Hmfp & _).
  assert (Hfree : mf_free_first (mfp (mf_free hp s)) = hp :: mf_free_first (mfp s))
    by (rewrite Hmfp; reflexivity).
  assert (Hh1 : heap (mf_free hp s) !! hp = Some (with_data [] h))
    by (rewrite Hheap; apply lookup_insert_eq).
  destruct (mf_new_reuse (bh_page_count h) _ _ _ _ Hfree Hh1 eq_refl)
    as (Hfst & Hheap' & Hmfp').
  cbv zeta. split; [exact Hfst|].
  rewrite Hheap', Hmfp', Hheap, Hmfp. cbn.
  split; [apply insert_insert_eq|]. split; [apply pmap_get_put_eq|]. auto.
Qed.

Lemma mf_free_new_reuses_witness :
  fst (mf_new false (bh_page_count (hdr Scene.put_back 1%positive))
         (mf_free 1%positive Scene.put_back)) = 1%positive.
Proof.
  refine (proj1 (mf_free_new_reuses 1%positive (hdr Scene.put_back 1%positive)
                   Scene.put_back _ _ _)).
  - vm_compute. reflexivity.
  - vm_compute. intros Hin. apply elem_of_nil in Hin. exact Hin.
  - vm_compute. intros H. discriminate H.
Defined.

(** X6. A free run of pages is split, and no page is lost.  When a
    live block with a number [b] that is not negative and with [c]
    pages is freed and a block of fewer pages is asked for next, [mf_new]
    allocates a new header and gives it the number [b]; the freed header
    stays first on the free list, now for the pages that are left: it has
    the number [b + page_count] and [c - page_count] pages.
    [mf_blocknr_max] has not moved. *)
Theorem mf_free_new_splits hp h page_count s :
  heap s !! hp = Some h ->
  hp ∉ mf_free_first (mfp s) ->
  0 <= bh_bnum h ->
  0 <= page_count < bh_page_count h ->
  is_uint (bh_page_count h) ->
  bh_bnum h + page_count <= INT64_MAX ->
  let r := mf_new false page_count (mf_free hp s) in
  heap s !! fst r = None /\
  (exists h', heap (snd r) !! fst r = Some h' /\
     bh_bnum h' = bh_bnum h /\ bh_page_count h' = page_count) /\
  pmap_get (bh_bnum h) (mf_hash (mfp (snd r))) = Some (fst r) /\
  (exists hf, heap (snd r) !! hp = Some hf /\
     bh_bnum hf = bh_bnum h + page_count /\
     bh_page_count hf = bh_page_count h - page_count) /\
  mf_free_first (mfp (snd r)) = hp :: mf_free_first (mfp s) /\
  mf_blocknr_max (mfp (snd r)) = mf_blocknr_max (mfp s).
Proof.
  intros Hh _ Hpos Hpc Hcount Hfit.
  destruct (mf_free_positive hp h s Hh Hpos) as (Hheap & Hmfp & _).
  assert (Hfree : mf_free_first (mfp (mf_free hp s)) = hp :: mf_free_first (mfp s))
    by (rewrite Hmfp; reflexivity).
  assert (Hh1 : heap (mf_free hp s) !! hp = Some (with_data [] h))
    by (rewrite Hheap; apply lookup_insert_eq).
  destruct (mf_new_split page_count _ _ _ _ Hfree Hh1 (proj2 Hpc))
    as (Hfst & Hnew & Hold & _ & Hmfp').
  cbv zeta. rewrite Hfst, Hmfp', Hmfp. cbn.
  assert (Hfresh : heap s !! fresh (dom (heap (mf_free hp s))) = None).
  { pose proof (fresh_heap_None (mf_free hp s)) as Hnone.
    rewrite Hheap in Hnone at 2.
    destruct (decide (hp = fresh (dom (heap (mf_free hp s))))) as [Heq|Hne].
    - rewrite <- Heq, lookup_insert_eq in Hnone. discriminate.
    - rewrite lookup_insert_ne in Hnone by exact Hne. exact Hnone. }
  split; [exact Hfresh|].
  split; [eexists; split; [exact Hnew|split; reflexivity]|].
  split; [apply pmap_get_put_eq|].
  split; [|auto].
  eexists; split; [exact Hold|]. cbn. split.
  - apply int64_id. unfold is_int64, INT64_MIN, INT64_MAX in *. lia.
  - apply uint_id. unfold is_uint in *. lia.
Qed.

Lemma mf_free_new_splits_witness :
  heap Scene.put_back
  !! fst (mf_new false 1 (mf_free 1%positive Scene.put_back)) = None.
Proof.
  refine (proj1 (mf_free_new_splits 1%positive (hdr Scene.put_back 1%positive) 1
                   Scene.put_back _ _ _ _ _ _)).
  - vm_compute. reflexivity.
  - vm_compute. intros Hin. apply elem_of_nil in Hin. exact Hin.
  - vm_compute. intros H. discriminate H.
  - vm_compute. split; [intros H; discriminate H | reflexivity].
  - vm_compute. split; intros H; discriminate H.
  - vm_compute. intros H. discriminate H.
Defined.

(** ** [mf_get] *)

Lemma pmap_get_del k k' m :
  pmap_get k (pmap_del k' m) = if decide (k = k') then None else pmap_get k m.
Proof.
  unfold pmap_get, pmap_del.
  induction m as [|[k0 v0] m IH]; cbn; [destruct (decide _); reflexivity|].
  destruct (Z.eqb_spec k0 k') as [->|Hne]; cbn.
  - rewrite IH. destruct (decide (k = k')) as [->|Hk]; [reflexivity|].
    rewrite (proj2 (Z.eqb_neq k' k)) by congruence. reflexivity.
  - destruct (Z.eqb_spec k0 k) as [->|Hne2].
    + destruct (decide (k = k')); [congruence|reflexivity].
    + exact IH.
Qed.

Lemma pmap_get_put k k' v m :
  pmap_get k (pmap_put k' v m) = if decide (k = k') then Some v else pmap_get k m.
Proof.
  destruct (decide (k = k')) as [->|Hne]; [apply pmap_get_put_eq|].
  unfold pmap_get.
  induction m as [|[k0 v0] m IH]; cbn.
  - rewrite (proj2 (Z.eqb_neq k' k)) by congruence. reflexivity.
  - destruct (Z.eqb_spec k0 k') as [->|Hne2]; cbn.
    + rewrite (proj2 (Z.eqb_neq k' k)) by congruence. reflexivity.
    + destruct (k0 =? k); [reflexivity|exact IH].
Qed.

Lemma has_flag_lor_locked f : has_flag (Z.lor f BH_LOCKED) BH_LOCKED = true.
Proof.
  unfold has_flag. apply negb_true_iff, Z.eqb_neq. intros H.
  apply (f_equal (fun z => Z.testbit z 1)) in H.
  rewrite Z.land_spec, Z.lor_spec in H. cbn in H.
  rewrite orb_true_r in H. discriminate.
Qed.

(** X7. A block that the index holds is handed out without any I/O.  For a
    number within the range in use that the index holds with its header,
    [mf_get] returns this header with [BH_LOCKED] set and nothing else of it
    changed, whatever [page_count] is given; the numbers lead to the same
    headers as before; and no call is made to the operating system: the
    file, its position, the messages and the answers still to come are
    untouched. *)
Theorem mf_get_cached nr page_count s hp h :
  mf_blocknr_min (mfp s) < nr < mf_blocknr_max (mfp s) ->
  pmap_get nr (mf_hash (mfp s)) = Some hp ->
  heap s !! hp = Some h ->
  bh_bnum h = nr ->
  exists s',
    mf_get nr page_count s = Some (Some hp, s') /\
    heap s' = <[hp := with_flags (Z.lor (bh_flags h) BH_LOCKED) h]> (heap s) /\
    (forall k, pmap_get k (mf_hash (mfp s')) = pmap_get k (mf_hash (mfp s))) /\
    mf_free_first (mfp s') = mf_free_first (mfp s) /\
    mf_trans (mfp s') = mf_trans (mfp s) /\
    mf_dirty (mfp s') = mf_dirty (mfp s) /\
    swap_bytes s' = swap_bytes s /\ swap_pos s' = swap_pos s /\
    swap_writes s' = swap_writes s /\
    msgs s' = msgs s /\ os_replies s' = os_replies s.
Proof.
  intros [Hmin Hmax] Hget Hh Hnum. unfold mf_get.
  rewrite (proj2 (Z.leb_gt _ _) Hmax), (proj2 (Z.leb_gt _ _) Hmin). cbn [orb].
  rewrite Hget. eexists. split; [reflexivity|].
  cbn -[pmap_get pmap_put pmap_del]. unfold hdr. cbn -[pmap_get pmap_put pmap_del].
  heap_lookup. rewrite Hh. cbn -[pmap_get pmap_put pmap_del].
  split; [exact (alter_as_insert (fun h => with_flags (Z.lor (bh_flags h) BH_LOCKED) h) _ _ _ Hh)|].
  split; [|auto 10].
  intros k. rewrite Hnum, pmap_get_put, pmap_get_del.
  destruct (decide (k = nr)) as [->|Hne]; [symmetry; exact Hget|reflexivity].
Qed.

Lemma mf_get_cached_witness :
  exists s', mf_get 0 7 Scene.put_back = Some (Some 1%positive, s').
Proof.
  destruct (mf_get_cached 0 7 Scene.put_back 1%positive (hdr Scene.put_back 1%positive))
    as (s' & Hs' & _).
  - vm_compute. split; reflexivity.
  - vm_compute. reflexivity.
  - vm_compute. reflexivity.
  - vm_compute. reflexivity.
  - exists s'. exact Hs'.
Defined.

Lemma mf_read_file hp s r s' :
  mf_read hp s = Some (r, s') ->
  swap_bytes s' = swap_bytes s /\ swap_writes s' = swap_writes s.
Proof.
  unfold mf_read, vim_lseek, read_eintr, os_next.
  split_cases; intros; simplify_eq; cbn; auto.
Qed.

(** X8. When [mf_get] returns NULL it has changed nothing of the memory
    file: the block index, the free list and the other fields are as before,
    the header that it allocated for a block that then could not be read has
    been freed again (the heap is the one before the call), and nothing has
    been written to the swap file. *)
Theorem mf_get_null nr page_count s s' :
  mf_get nr page_count s = Some (None, s') ->
  mfp s' = mfp s /\ heap s' = heap s /\
  swap_bytes s' = swap_bytes s /\ swap_writes s' = swap_writes s.
Proof.
  unfold mf_get.
  destruct (_ || _); [intros [= <-]; auto|].
  destruct (pmap_get nr (mf_hash (mfp s))) as [hp|]; [discriminate|].
  destruct (_ || _); [intros [= <-]; auto|].
  destruct (negb _); [intros [= <-]; auto|].
  unfold mf_alloc_bhdr. cbv beta iota zeta.
  set (hp := fresh (dom (heap s))).
  set (s3 := upd_hdr hp (with_page_count page_count) _).
  assert (Hs3 : mfp s3 = mfp s /\ swap_bytes s3 = swap_bytes s /\
                swap_writes s3 = swap_writes s) by auto.
  destruct Hs3 as (Hm3 & Hb3 & Hw3).
  assert (Hh3 : exists h3, heap s3 = <[hp := h3]> (heap s)).
  { subst s3. cbn. rewrite !alter_insert_eq. eauto. }
  destruct Hh3 as [h3 Hh3]. clearbody s3.
  destruct (mf_read hp s3) as [[[] s4]|] eqn:Hread; [discriminate| |discriminate].
  intros [= <-].
  destruct (mf_read_frame _ _ _ _ Hread) as [Hmfp Hheap].
  destruct (mf_read_file _ _ _ _ Hread) as [Hbytes Hwrites].
  assert (Hfresh : heap s !! hp = None) by apply fresh_heap_None.
  cbn. rewrite Hmfp, Hbytes, Hwrites, Hm3, Hb3, Hw3.
  split; [reflexivity|]. split; [|auto].
  destruct Hheap as [->|[buf ->]]; rewrite Hh3, ?alter_insert_eq;
    apply delete_insert_id; exact Hfresh.
Qed.

Lemma mf_get_null_witness :
  exists s',
    mf_get 0 1 (Scene.on_disk [1]) = Some (None, s') /\
    msgs s' = [e_seek_read] /\
    heap s' = heap (Scene.on_disk [1]).
Proof.
  eexists. split; [vm_compute; reflexivity|]. split; [reflexivity|].
  refine (proj1 (proj2 (mf_get_null 0 1 (Scene.on_disk [1]) _ _))).
  vm_compute. reflexivity.
Defined.

(** ** Reading a block back from the swap file *)

Lemma load_bytes_length f : forall n off,
  (forall k, off <= k < off + Z.of_nat n -> is_Some (f !! k)) ->
  length (load_bytes n off f) = n.
Proof.
  induction n as [|n IH]; intros off Hall; cbn [load_bytes]; [reflexivity|].
  destruct (Hall off ltac:(lia)) as [b ->]. cbn. f_equal.
  apply IH. intros k Hk. apply Hall. lia.
Qed.

Lemma load_bytes_lookup f : forall n off (i : nat) b,
  load_bytes n off f !! i = Some b -> f !! (off + Z.of_nat i) = Some b.
Proof.
  induction n as [|n IH]; intros off i b; cbn [load_bytes]; [discriminate|].
  destruct (f !! off) as [b0|] eqn:Hoff; [|discriminate].
  destruct i as [|i]; cbn.
  - intros [= <-]. rewrite Z.add_0_r. exact Hoff.
  - intros Hi. apply IH in Hi. rewrite <- Hi. f_equal. lia.
Qed.

(** [mf_read] when the file holds the block and the operating system does
    what it is asked. *)
Lemma mf_read_loads hp h s rest :
  heap s !! hp = Some h ->
  0 <= mf_fd (mfp s) ->
  0 < mf_page_size (mfp s) ->
  0 <= bh_bnum h ->
  0 <= bh_page_count h ->
  mf_page_size (mfp s) * bh_bnum h <= INT64_MAX ->
  mf_page_size (mfp s) * bh_page_count h <= UINT_MAX ->
  length (bh_data h) = Z.to_nat (mf_page_size (mfp s) * bh_page_count h) ->
  os_replies s = 0 :: 0 :: rest ->
  (forall off, mf_page_size (mfp s) * bh_bnum h <= off
               < mf_page_size (mfp s) * (bh_bnum h + bh_page_count h) ->
               written s off) ->
  exists s',
    mf_read hp s = Some (OK, s') /\
    mfp s' = mfp s /\
    heap s' = <[hp := with_data
                  (load_bytes (Z.to_nat (mf_page_size (mfp s) * bh_page_count h))
                     (mf_page_size (mfp s) * bh_bnum h) (swap_bytes s)) h]> (heap s) /\
    swap_bytes s' = swap_bytes s /\ swap_writes s' = swap_writes s /\
    msgs s' = msgs s /\ os_replies s' = rest.
Proof.
  intros Hh Hfd Hps Hnr Hpc Hoff Hsize Hlen Hos Hfile.
  unfold mf_read. rewrite (proj2 (Z.ltb_ge _ 0) Hfd). rewrite (hdr_Some _ _ _ Hh).
  set (ps := mf_page_size (mfp s)) in *.
  assert (Hoffset : int64 (ps * bh_bnum h) = ps * bh_bnum h).
  { apply int64_id. unfold is_int64, INT64_MIN, INT64_MAX in *. nia. }
  rewrite Hoffset.
  unfold vim_lseek, os_next. rewrite Hos. cbn [hd tl Z.eqb andb].
  rewrite (proj2 (Z.leb_le 0 (ps * bh_bnum h))) by nia. cbn [andb].
  rewrite Z.eqb_refl. cbn [negb].
  rewrite (proj2 (Z.eqb_neq ps 0)) by lia. cbn [orb].
  assert (Hquot : bh_page_count h <= UINT_MAX `quot` ps).
  { rewrite Z.quot_div_nonneg by (unfold UINT_MAX; lia).
    apply Z.div_le_lower_bound; lia. }
  unfold hdr. cbn [heap]. rewrite Hh. cbn [default]. change (id h) with h.
  rewrite (proj2 (Z.leb_le _ _) Hquot). cbn [negb].
  assert (Huint : uint (ps * bh_page_count h) = ps * bh_page_count h).
  { apply uint_id. unfold is_uint. nia. }
  rewrite Huint.
  unfold read_eintr, os_next. cbn [os_replies hd tl Z.eqb swap_pos swap_bytes].
  set (got := load_bytes _ _ _).
  assert (Hgot : length got = Z.to_nat (ps * bh_page_count h)).
  { subst got. apply load_bytes_length. intros k Hk. apply Hfile. nia. }
  cbv beta iota zeta. rewrite Hgot, Z2Nat.id by nia.
  rewrite Huint, Z.eqb_refl. cbn [negb].
  eexists. split; [reflexivity|]. cbn.
  rewrite <- Hlen, drop_all, app_nil_r.
  split; [reflexivity|]. split; [|auto].
  apply (alter_as_insert _ _ _ _ Hh).
Qed.

(** [mf_get] when the file holds the block and the operating system does
    what it is asked. *)
Lemma mf_get_loads nr page_count s rest :
  mf_blocknr_min (mfp s) < nr < mf_blocknr_max (mfp s) ->
  pmap_get nr (mf_hash (mfp s)) = None ->
  0 <= nr < mf_infile_count (mfp s) ->
  0 < page_count ->
  0 <= mf_fd (mfp s) ->
  0 < mf_page_size (mfp s) ->
  mf_page_size (mfp s) * nr <= INT64_MAX ->
  mf_page_size (mfp s) * page_count <= UINT_MAX ->
  os_replies s = 0 :: 0 :: rest ->
  (forall off, mf_page_size (mfp s) * nr <= off
               < mf_page_size (mfp s) * (nr + page_count) -> written s off) ->
  let hp := fresh (dom (heap s)) in
  let data := load_bytes (Z.to_nat (mf_page_size (mfp s) * page_count))
                (mf_page_size (mfp s) * nr) (swap_bytes s) in
  exists s',
    mf_get nr page_count s = Some (Some hp, s') /\
    heap s' = <[hp := Bhdr nr data page_count BH_LOCKED]> (heap s) /\
    mf_hash (mfp s') = pmap_put nr hp (mf_hash (mfp s)) /\
    swap_bytes s' = swap_bytes s /\ swap_writes s' = swap_writes s /\
    msgs s' = msgs s /\ os_replies s' = rest.
Proof.
  intros [Hmin Hmax] Hget [Hnr Hinfile] Hpc Hfd Hps Hoff Hsize Hos Hfile hp data.
  unfold mf_get.
  rewrite (proj2 (Z.leb_gt _ _) Hmax), (proj2 (Z.leb_gt _ _) Hmin). cbn [orb].
  rewrite Hget.
  rewrite (proj2 (Z.ltb_ge _ _) Hnr), (proj2 (Z.leb_gt _ _) Hinfile). cbn [orb].
  rewrite (proj2 (Z.ltb_lt _ _) Hpc). cbn [negb].
  unfold mf_alloc_bhdr. fold hp. cbv beta iota zeta.
  set (s3 := upd_hdr hp (with_page_count page_count) _).
  set (h3 := Bhdr nr (xmalloc (mf_page_size (mfp s) * page_count) s) page_count 0).
  assert (Hh3 : heap s3 = <[hp := h3]> (heap s)).
  { subst s3 h3. cbn. rewrite !alter_insert_eq. reflexivity. }
  assert (Hlook : heap s3 !! hp = Some h3) by (rewrite Hh3; apply lookup_insert_eq).
  assert (Hs3 : mfp s3 = mfp s /\ swap_bytes s3 = swap_bytes s /\
                swap_writes s3 = swap_writes s /\ msgs s3 = msgs s /\
                os_replies s3 = os_replies s) by (subst s3; cbn; auto).
  destruct Hs3 as (Hm3 & Hb3 & Hw3 & Hmsg3 & Hos3).
  pose proof (mf_read_loads hp h3 s3 rest Hlook) as HR.
  rewrite Hm3, Hb3 in HR. subst h3. cbn [bh_bnum bh_page_count bh_data] in HR.
  assert (Hfile3 : forall off, mf_page_size (mfp s) * nr <= off
                     < mf_page_size (mfp s) * (nr + page_count) -> written s3 off).
  { intros off Hrange. unfold written. rewrite Hb3. apply Hfile, Hrange. }
  destruct (HR Hfd Hps Hnr (Z.lt_le_incl _ _ Hpc) Hoff Hsize (length_xmalloc _ _)
              (eq_trans Hos3 Hos) Hfile3)
    as (s4 & Hread & Hm4 & Hh4 & Hb4 & Hw4 & Hmsg4 & Hos4).
  clear HR.
  clearbody s3. rewrite Hread.
  eexists. split; [reflexivity|].
  cbn -[pmap_put]. unfold hdr. cbn -[pmap_put].
  rewrite Hm4, Hb4, Hw4, Hw3, Hmsg4, Hmsg3, Hh4, Hh3. heap_lookup.
  cbn -[pmap_put]. fold data.
  split; [rewrite alter_insert_eq, insert_insert_eq; reflexivity|].
  auto.
Qed.

(** X9. A block that is in the file but not in memory is read in.  For a
    number [nr] within the range in use that the index does not hold, with
    [0 <= nr < mf_infile_count], a positive [page_count] and sizes that the
    types of the I/O calls hold, when the file has the bytes of the block
    and the seek and the read succeed, [mf_get] returns a header that was
    not allocated before, with the number [nr], [page_count] pages, the
    flag [BH_LOCKED] and no other, and with the [page_size * page_count]
    bytes of the file from offset [page_size * nr] on as its data; the
    index holds it under [nr], and nothing is written. *)
Theorem mf_get_reads nr page_count s rest :
  mf_blocknr_min (mfp s) < nr < mf_blocknr_max (mfp s) ->
  pmap_get nr (mf_hash (mfp s)) = None ->
  0 <= nr < mf_infile_count (mfp s) ->
  0 < page_count ->
  0 <= mf_fd (mfp s) ->
  0 < mf_page_size (mfp s) ->
  mf_page_size (mfp s) * nr <= INT64_MAX ->
  mf_page_size (mfp s) * page_count <= UINT_MAX ->
  os_replies s = 0 :: 0 :: rest ->
  (forall off, mf_page_size (mfp s) * nr <= off
               < mf_page_size (mfp s) * (nr + page_count) -> written s off) ->
  let hp := fresh (dom (heap s)) in
  let data := load_bytes (Z.to_nat (mf_page_size (mfp s) * page_count))
                (mf_page_size (mfp s) * nr) (swap_bytes s) in
  exists s',
    mf_get nr page_count s = Some (Some hp, s') /\
    heap s !! hp = None /\
    heap s' = <[hp := Bhdr nr data page_count BH_LOCKED]> (heap s) /\
    length data = Z.to_nat (mf_page_size (mfp s) * page_count) /\
    (forall (i : nat) b, data !! i = Some b ->
       swap_bytes s !! (mf_page_size (mfp s) * nr + Z.of_nat i) = Some b) /\
    pmap_get nr (mf_hash (mfp s')) = Some hp /\
    swap_bytes s' = swap_bytes s /\ swap_writes s' = swap_writes s /\
    msgs s' = msgs s /\ os_replies s' = rest.
Proof.
  intros Hrange Hget Hnr Hpc Hfd Hps Hoff Hsize Hos Hfile hp data.
  destruct (mf_get_loads nr page_count s rest Hrange Hget Hnr Hpc Hfd Hps Hoff
              Hsize Hos Hfile)
    as (s' & Hres & Hheap & Hhash & Hframe).
  exists s'. split; [exact Hres|].
  split; [apply fresh_heap_None|]. split; [exact Hheap|].
  split; [apply load_bytes_length; intros k Hk; apply Hfile; nia|].
  split; [intros i b; apply load_bytes_lookup|].
  split; [rewrite Hhash; apply pmap_get_put_eq|].
  exact Hframe.
Qed.

Lemma mf_get_reads_witness :
  exists s',
    mf_get 0 1 (Scene.on_disk [0; 0]) = Some (Some 1%positive, s') /\
    heap s' = {[ 1%positive := Bhdr 0 [5; 6] 1 BH_LOCKED ]}.
Proof.
  destruct (mf_get_reads 0 1 (Scene.on_disk [0; 0]) [])
    as (s' & Hget & _ & Hheap & _).
  - vm_compute. split; reflexivity.
  - vm_compute. reflexivity.
  - vm_compute. split; [intros H; discriminate H | reflexivity].
  - reflexivity.
  - vm_compute. intros H. discriminate H.
  - vm_compute. reflexivity.
  - vm_compute. intros H. discriminate H.
  - vm_compute. intros H. discriminate H.
  - reflexivity.
  - intros off Hoff. change (mf_page_size (mfp (Scene.on_disk [0; 0]))) with 2 in Hoff.
    assert (off = 0 \/ off = 1) as [-> | ->] by lia; vm_compute; eexists; reflexivity.
  - exists s'. split; [exact Hget|]. rewrite Hheap. vm_compute. reflexivity.
Defined.

(** ** What [mf_write] leaves in the file *)

Lemma load_store_bytes data : forall off f,
  load_bytes (length data) off (store_bytes off data f) = data.
Proof.
  induction data as [|b data IH]; intros off f; cbn; [reflexivity|].
  rewrite store_bytes_outside by lia. rewrite lookup_insert_eq. f_equal. apply IH.
Qed.

(** One round of the loop of [mf_write] on a block that is ready to be
    written: the round fails, or it writes a block in front of [*hp] and the
    loop goes on with [*hp] as it was, or it writes [*hp] itself. *)
Lemma mf_write_round_data fuel hp s :
  write_ready s hp ->
  let ps := mf_page_size (mfp s) in
  let gap := mf_infile_count (mfp s) <? bh_bnum (hdr s hp) in
  (exists s', mf_write_loop (S fuel) ps hp s = Some (FAIL, s')) \/
  (exists s',
      mf_write_loop (S fuel) ps hp s =
        (if gap then mf_write_loop fuel ps hp s' else Some (OK, s')) /\
      write_ready s' hp /\
      mf_page_size (mfp s') = ps /\
      bh_bnum (hdr s' hp) = bh_bnum (hdr s hp) /\
      bh_page_count (hdr s' hp) = bh_page_count (hdr s hp) /\
      bh_data (hdr s' hp) = bh_data (hdr s hp) /\
      (gap = false ->
       swap_bytes s' = store_bytes (ps * bh_bnum (hdr s hp)) (bh_data (hdr s hp))
                         (swap_bytes s))).
Proof.
  intros (Hps & Hhp & Hidx & Hb & Hbound & Hinf). cbv zeta.
  pose proof (mf_write_round fuel (mf_page_size (mfp s)) hp s) as R.
  cbv zeta in R.
  set (ps := mf_page_size (mfp s)) in *.
  set (gap := mf_infile_count (mfp s) <? bh_bnum (hdr s hp)) in *.
  set (nr := if gap then mf_infile_count (mfp s) else bh_bnum (hdr s hp)) in *.
  set (hp2 := if gap then pmap_get nr (mf_hash (mfp s)) else Some hp) in *.
  set (page_count := match hp2 with
                     | Some hp3 => bh_page_count (hdr s hp3)
                     | None => 1
                     end) in *.
  set (data := match hp2 with
               | Some hp3 => bh_data (hdr s hp3)
               | None => bh_data (hdr s hp)
               end) in *.
  destruct R as [(s' & Hloop & _)
                |[(s' & n & pos & Hloop & _)
                 |(s' & pos & Hloop & Hpos & Hbytes & Hi & Hhash & Hpsize & Hhdr)]];
    [left; exists s'; exact Hloop | left; exists s'; exact Hloop |].
  right. exists s'. split; [exact Hloop|].
  pose proof (sized_hdr _ _ Hhp) as (Hhp1 & Hhp2 & Hhp3). fold ps in Hhp2, Hhp3.
  assert (Hnr : 0 <= nr <= bh_bnum (hdr s hp)).
  { subst nr. unfold gap. destruct (Z.ltb_spec (mf_infile_count (mfp s))
                                      (bh_bnum (hdr s hp))); lia. }
  assert (Hpc : 1 <= page_count /\ ps * page_count <= UINT_MAX).
  { subst page_count data hp2. destruct gap.
    - destruct (pmap_get nr (mf_hash (mfp s))) as [p2|] eqn:Hget.
      + apply pmap_get_elem, Hidx, sized_hdr in Hget. fold ps in Hget. lia.
      + split; [lia|]. nia.
    - lia. }
  destruct Hpc as (Hpc1 & Hpc2).
  assert (Hend : int64 (nr + page_count) = nr + page_count).
  { apply int64_id. unfold is_int64, INT64_MIN, INT64_MAX, UINT_MAX in *. nia. }
  rewrite Hend in Hi.
  split.
  { split; [rewrite Hpsize; exact Hps|].
    assert (Hsized : forall p, sized s p -> sized s' p).
    { intros p. destruct (Hhdr p) as (_ & Hp1 & Hp2 & Hp3).
      apply sized_frame; assumption. }
    split; [apply Hsized, Hhp|].
    split; [intros k p Hkp; apply Hsized, (Hidx k); rewrite <- Hhash; exact Hkp|].
    rewrite (proj1 (Hhdr hp)), Hpsize. fold ps.
    split; [exact Hb|]. split; [exact Hbound|]. lia. }
  split; [exact Hpsize|]. split; [apply Hhdr|]. split; [apply Hhdr|].
  split; [apply Hhdr|].
  intros Hgap. subst nr page_count data hp2. rewrite Hgap in *.
  assert (Hoffset : int64 (ps * bh_bnum (hdr s hp)) = ps * bh_bnum (hdr s hp)).
  { apply int64_id. unfold is_int64, INT64_MIN, INT64_MAX, UINT_MAX in *. nia. }
  rewrite Hoffset in Hpos. rewrite (Hpos ltac:(nia)) in Hbytes.
  rewrite uint_id in Hbytes by (unfold is_uint; nia).
  rewrite <- Hhp3, firstn_all in Hbytes. exact Hbytes.
Qed.

Lemma mf_write_loop_stores fuel hp : forall s s',
  write_ready s hp ->
  mf_write_loop fuel (mf_page_size (mfp s)) hp s = Some (OK, s') ->
  mf_page_size (mfp s') = mf_page_size (mfp s) /\
  bh_bnum (hdr s' hp) = bh_bnum (hdr s hp) /\
  bh_page_count (hdr s' hp) = bh_page_count (hdr s hp) /\
  bh_data (hdr s' hp) = bh_data (hdr s hp) /\
  load_bytes (length (bh_data (hdr s hp)))
    (mf_page_size (mfp s) * bh_bnum (hdr s hp)) (swap_bytes s')
  = bh_data (hdr s hp).
Proof.
  induction fuel as [|fuel IH]; intros s s' Hready; [discriminate|].
  destruct (mf_write_round_data fuel hp s Hready)
    as [(s1 & ->)|(s1 & -> & Hready1 & Hps & Hb & Hpc & Hdata & Hbytes)];
    [discriminate|].
  destruct (mf_infile_count (mfp s) <? bh_bnum (hdr s hp)) eqn:Hlt.
  - rewrite <- Hps. intros Hrest.
    destruct (IH _ _ Hready1 Hrest) as (Hps' & Hb' & Hpc' & Hdata' & Hload).
    rewrite Hps, Hb, Hdata in *. split; [congruence|]. split; [congruence|].
    split; [congruence|]. split; [congruence|]. exact Hload.
  - intros [= <-]. split; [exact Hps|]. split; [exact Hb|]. split; [exact Hpc|].
    split; [exact Hdata|]. rewrite (Hbytes eq_refl). apply load_store_bytes.
Qed.

Lemma has_flag_clear_dirty f : has_flag (clear_flag f BH_DIRTY) BH_DIRTY = false.
Proof.
  unfold has_flag, clear_flag. apply negb_false_iff, Z.eqb_eq.
  rewrite <- Z.land_assoc. change (Z.land (uint (Z.lnot BH_DIRTY)) BH_DIRTY) with 0.
  apply Z.land_0_r.
Qed.

Lemma hdr_if_set_mfp (b : bool) f st hp :
  hdr (if b then set_mfp f st else st) hp = hdr st hp.
Proof. destruct b; reflexivity. Qed.

(** After a successful [mf_write] the block is not dirty. *)
Lemma mf_write_loop_clean fuel page_size hp : forall s s',
  mf_write_loop fuel page_size hp s = Some (OK, s') ->
  has_flag (bh_flags (hdr s' hp)) BH_DIRTY = false.
Proof.
  induction fuel as [|fuel IH]; intros s s'; [discriminate|].
  cbn [mf_write_loop].
  destruct (mf_infile_count (mfp s) <? bh_bnum (hdr s hp)) eqn:Hgap.
  - (* a block in front of [*hp] is written: this is not the last round *)
    apply Z.ltb_lt in Hgap.
    match goal with
    | |- context [vim_lseek ?o s] => pose proof (vim_lseek_spec o s) as L
    end.
    destruct (vim_lseek _ s) as [r s1]. cbn [fst snd] in L. destruct L as (_ & Lh & _).
    destruct (negb _); [discriminate|].
    match goal with
    | |- context [write_eintr ?d ?z s1] => pose proof (write_eintr_spec d z s1) as W
    end.
    destruct (write_eintr _ _ s1) as [n s2]. cbn [fst snd] in W.
    destruct W as (_ & Wh & _).
    destruct (negb _); [discriminate|].
    match goal with
    | |- (if ?c then _ else _) = _ -> _ => destruct c eqn:Hdone; [|apply IH]
    end.
    exfalso. apply Z.eqb_eq in Hdone. rewrite hdr_if_set_mfp in Hdone.
    assert (Hsame : bh_bnum (hdr (set_did_swapwrite_msg false s2) hp)
                    = bh_bnum (hdr s hp)).
    { f_equal. apply hdr_same_heap. cbn. congruence. }
    destruct (pmap_get _ _) as [p2|]; [rewrite bnum_upd_flags in Hdone|]; lia.
  - match goal with
    | |- context [vim_lseek ?o s] => destruct (vim_lseek o s) as [r s1]
    end.
    destruct (negb _); [discriminate|].
    destruct (write_eintr _ _ s1) as [n s2]. destruct (negb _); [discriminate|].
    match goal with
    | |- (if ?c then _ else _) = _ -> _ => destruct c eqn:Hdone; [|apply IH]
    end.
    intros [= <-]. rewrite hdr_if_set_mfp.
    unfold hdr. cbn. heap_lookup.
    destruct (heap s2 !! hp); cbn; [apply has_flag_clear_dirty | reflexivity].
Qed.

(** X10. After a successful [mf_write] the block is in the file.  For a
    block that is ready to be written (once [mf_trans_add] has given it its
    number in the file), when [mf_write] returns OK the block has a number
    that is not negative, the file holds the data of the block from offset
    [page_size * bh_bnum] on, all [page_size * bh_page_count] bytes of it,
    and the [BH_DIRTY] flag of the block is clear. *)
Theorem mf_write_stores fuel hp s s' :
  write_ready (snd (mf_trans_add hp s)) hp ->
  mf_write fuel hp s = Some (OK, s') ->
  0 <= bh_bnum (hdr s' hp) /\
  length (bh_data (hdr s' hp))
  = Z.to_nat (mf_page_size (mfp s') * bh_page_count (hdr s' hp)) /\
  load_bytes (length (bh_data (hdr s' hp)))
    (mf_page_size (mfp s') * bh_bnum (hdr s' hp)) (swap_bytes s')
  = bh_data (hdr s' hp) /\
  has_flag (bh_flags (hdr s' hp)) BH_DIRTY = false.
Proof.
  intros Hready Hwrite.
  assert (Hfd : 0 <= mf_fd (mfp s)).
  { destruct (Z.lt_ge_cases (mf_fd (mfp s)) 0) as [Hneg|Hpos]; [|exact Hpos].
    unfold mf_write in Hwrite. rewrite (proj2 (Z.ltb_lt _ 0) Hneg) in Hwrite.
    discriminate. }
  rewrite (mf_write_unfold _ _ _ Hfd) in Hwrite.
  destruct (mf_write_loop_stores _ _ _ _ Hready Hwrite)
    as (Hps & Hb & Hpc & Hdata & Hload).
  pose proof Hready as (_ & Hsized & _ & Hpos & _).
  apply sized_hdr in Hsized as (_ & _ & Hlen).
  rewrite Hps, Hb, Hpc, Hdata.
  split; [exact Hpos|]. split; [exact Hlen|]. split; [exact Hload|].
  exact (mf_write_loop_clean _ _ _ _ _ Hwrite).
Qed.

Lemma mf_write_stores_witness :
  exists s',
    mf_write 3 3%positive (Demo.gap []) = Some (OK, s') /\
    bh_data (hdr s' 3%positive) = [5; 6] /\
    load_bytes (length (bh_data (hdr s' 3%positive)))
      (mf_page_size (mfp s') * bh_bnum (hdr s' 3%positive)) (swap_bytes s')
    = bh_data (hdr s' 3%positive).
Proof.
  eexists. split; [vm_compute; reflexivity|]. split; [reflexivity|].
  refine (proj1 (proj2 (proj2 (mf_write_stores 3 3%positive (Demo.gap []) _
                                 gap_write_ready _)))).
  vm_compute. reflexivity.
Defined.

(** ** The round trip through the swap file *)

Lemma load_bytes_full f : forall n off,
  length (load_bytes n off f) = n ->
  forall k, off <= k < off + Z.of_nat n -> is_Some (f !! k).
Proof.
  induction n as [|n IH]; intros off Hlen k Hk; [lia|].
  cbn [load_bytes] in Hlen.
  destruct (f !! off) as [b|] eqn:Hoff; [|discriminate].
  cbn in Hlen. destruct (decide (k = off)) as [->|Hne]; [eauto|].
  apply (IH (off + 1)); [lia|lia].
Qed.

Lemma with_infile_count_same m : with_infile_count (mf_infile_count m) m = m.
Proof. destruct m; reflexivity. Qed.

(** Of the fields of the memory file, [mf_write]'s loop changes
    [mf_infile_count] only. *)
Lemma mf_write_loop_mfp fuel page_size hp : forall s r s',
  mf_write_loop fuel page_size hp s = Some (r, s') ->
  exists n, mfp s' = with_infile_count n (mfp s).
Proof.
  induction fuel as [|fuel IH]; intros s r s'; [discriminate|].
  cbn [mf_write_loop].
  set (nh := if mf_infile_count (mfp s) <? _ then _ else _).
  destruct nh as [nr hp2].
  pose proof (vim_lseek_spec (int64 (page_size * nr)) s) as L.
  destruct (vim_lseek _ s) as [r1 s1]. cbn [fst snd] in L.
  destruct L as (Lm & _).
  assert (Hsame : forall st, mfp st = mfp s ->
            exists n, mfp st = with_infile_count n (mfp s)).
  { intros st ->. eexists. symmetry. apply with_infile_count_same. }
  destruct (negb _); [intros [= <- <-]; apply Hsame; cbn; exact Lm|].
  set (size := uint _). set (data := match hp2 with Some _ => _ | None => _ end).
  pose proof (write_eintr_spec data size s1) as W.
  destruct (write_eintr data size s1) as [n s2]. cbn [fst snd] in W.
  destruct W as (Wm & _).
  destruct (negb _).
  { intros [= <- <-]. apply Hsame. destruct (did_swapwrite_msg s2); cbn; congruence. }
  set (s3 := match hp2 with Some _ => _ | None => _ end).
  assert (H3 : mfp s3 = mfp s) by (subst s3; destruct hp2; cbn; congruence).
  set (s4 := if mf_infile_count (mfp s3) <? _ then _ else s3).
  assert (H4 : exists n, mfp s4 = with_infile_count n (mfp s)).
  { subst s4. destruct (mf_infile_count (mfp s3) <? _).
    - cbn. rewrite H3. eauto.
    - apply Hsame, H3. }
  destruct (nr =? _); [intros [= <- <-]; exact H4|].
  intros Hrest. apply IH in Hrest as [n' Hn']. destruct H4 as [n4 Hn4].
  exists n'. rewrite Hn', Hn4. reflexivity.
Qed.

Lemma mf_trans_add_fd hp s :
  mf_fd (mfp (snd (mf_trans_add hp s))) = mf_fd (mfp s).
Proof. unfold mf_trans_add, mf_rem_free. split_cases; reflexivity. Qed.

(** X11. The round trip through the swap file.  When a block that is ready
    to be written has been written by [mf_write] and is then taken out of
    memory as [mf_release_all] does it (out of the index, header and data
    freed), [mf_get] with the number and the page count of the block, with a
    seek and a read that succeed, returns a block with this number and page
    count whose data are those of the block that was written. *)
Theorem swap_round_trip fuel hp s s1 rest :
  write_ready (snd (mf_trans_add hp s)) hp ->
  mf_write fuel hp s = Some (OK, s1) ->
  mf_blocknr_min (mfp s1) < bh_bnum (hdr s1 hp) < mf_blocknr_max (mfp s1) ->
  os_replies s1 = 0 :: 0 :: rest ->
  let nr := bh_bnum (hdr s1 hp) in
  let s2 := mf_free_bhdr hp
              (set_mfp (fun m => with_hash (pmap_del nr (mf_hash m)) m) s1) in
  exists hp' s3 h',
    mf_get nr (bh_page_count (hdr s1 hp)) s2 = Some (Some hp', s3) /\
    heap s3 !! hp' = Some h' /\
    bh_bnum h' = nr /\
    bh_page_count h' = bh_page_count (hdr s1 hp) /\
    bh_data h' = bh_data (hdr s1 hp).
Proof.
  intros Hready Hwrite Hrange Hos nr s2.
  assert (Hfd : 0 <= mf_fd (mfp s)).
  { destruct (Z.lt_ge_cases (mf_fd (mfp s)) 0) as [Hneg|Hpos]; [|exact Hpos].
    unfold mf_write in Hwrite. rewrite (proj2 (Z.ltb_lt _ 0) Hneg) in Hwrite.
    discriminate. }
  rewrite (mf_write_unfold _ _ _ Hfd) in Hwrite.
  set (s0 := snd (mf_trans_add hp s)) in *.
  destruct (mf_write_loop_stores _ _ _ _ Hready Hwrite)
    as (Hps & Hb & Hpc & Hdata & Hload).
  destruct (mf_write_loop_fills _ _ _ _ _ Hready Hwrite) as (_ & Hreach & _).
  specialize (Hreach eq_refl).
  destruct (mf_write_loop_mfp _ _ _ _ _ _ Hwrite) as [n Hmfp].
  pose proof Hready as (Hpsize & Hsized & _ & Hpos & Hbound & _).
  apply sized_hdr in Hsized as (Hpc1 & Hsize & Hlen).
  rewrite <- Hps, <- Hb, <- Hpc, <- Hdata in *. fold nr in Hrange, Hreach, Hload, Hpos, Hbound.
  set (pc := bh_page_count (hdr s1 hp)) in *.
  set (ps := mf_page_size (mfp s1)) in *.
  assert (Hfd1 : 0 <= mf_fd (mfp s1)).
  { rewrite Hmfp. cbn. subst s0. rewrite mf_trans_add_fd. exact Hfd. }
  assert (Hfile : forall off, ps * nr <= off < ps * (nr + pc) -> written s2 off).
  { intros off Hoff. unfold written. subst s2. cbn.
    apply (load_bytes_full _ (length (bh_data (hdr s1 hp))) (ps * nr));
      [rewrite Hload; reflexivity|].
    rewrite Hlen, Z2Nat.id by nia. nia. }
  destruct (mf_get_loads nr pc s2 rest) as (s3 & Hget & Hheap & _);
    subst s2; cbn -[pmap_get pmap_del]; fold ps; try assumption; try lia.
  - rewrite pmap_get_del. destruct (decide (nr = nr)); [reflexivity|congruence].
  - unfold UINT_MAX, INT64_MAX in *. nia.
  - exists (fresh (dom (delete hp (heap s1)))), s3. eexists.
    split; [exact Hget|]. rewrite Hheap. split; [apply lookup_insert_eq|].
    cbn. split; [reflexivity|]. split; [reflexivity|].
    fold ps. rewrite <- Hlen. exact Hload.
Qed.

Lemma scene_gap_write_ready :
  write_ready (snd (mf_trans_add 3%positive Scene.gap)) 3%positive.
Proof.
  assert (Hsized : forall p, p = 1%positive \/ p = 3%positive ->
            sized (snd (mf_trans_add 3%positive Scene.gap)) p).
  { intros p [-> | ->]; (eexists; split; [vm_compute; reflexivity|]);
      vm_compute; repeat split; discriminate. }
  split; [reflexivity|]. split; [apply Hsized; auto|].
  split; [|vm_compute; repeat split; discriminate].
  intros k p Hkp. apply Hsized.
  change (mf_hash (mfp (snd (mf_trans_add 3%positive Scene.gap))))
    with [(0, 1%positive); (2, 3%positive)] in Hkp.
  apply list_elem_of_In in Hkp. cbn in Hkp.
  destruct Hkp as [[= <- <-]|[[= <- <-]|[]]]; auto.
Qed.

Lemma swap_round_trip_witness :
  exists hp' s3 h',
    mf_get (bh_bnum (hdr Scene.gap_written 3%positive))
      (bh_page_count (hdr Scene.gap_written 3%positive))
      (mf_free_bhdr 3%positive
         (set_mfp (fun m => with_hash
                     (pmap_del (bh_bnum (hdr Scene.gap_written 3%positive))
                        (mf_hash m)) m) Scene.gap_written))
    = Some (Some hp', s3) /\
    heap s3 !! hp' = Some h' /\
    bh_bnum h' = bh_bnum (hdr Scene.gap_written 3%positive) /\
    bh_page_count h' = bh_page_count (hdr Scene.gap_written 3%positive) /\
    bh_data h' = bh_data (hdr Scene.gap_written 3%positive).
Proof.
  refine (swap_round_trip 3 3%positive Scene.gap Scene.gap_written []
            scene_gap_write_ready _ _ _).
  - vm_compute. reflexivity.
  - vm_compute. split; reflexivity.
  - vm_compute. reflexivity.
Defined.

(** ** [mf_set_dirty] *)

(** What [mf_set_dirty] does to the header [hp] that reads [h]. *)
Lemma set_dirty_walk : forall (l : list ptr) s,
  let s' := fold_left
              (fun s hp =>
                 if 0 <? bh_bnum (hdr s hp)
                 then upd_hdr hp (fun h => with_flags (Z.lor (bh_flags h) BH_DIRTY) h) s
                 else s) l s in
  mfp s' = mfp s /\
  forall hp, heap s' !! hp
    = (fun h => if bool_decide (hp ∈ l) && (0 <? bh_bnum h)
                then with_flags (Z.lor (bh_flags h) BH_DIRTY) h else h)
      <$> heap s !! hp.
Proof.
  induction l as [|p l IH]; intros s; cbn [fold_left].
  - split; [reflexivity|]. intros hp.
    rewrite bool_decide_eq_false_2 by apply not_elem_of_nil.
    destruct (heap s !! hp); reflexivity.
  - set (s1 := if 0 <? bh_bnum (hdr s p) then _ else s).
    destruct (IH s1) as [Hm Hh]. cbv zeta.
    assert (Hm1 : mfp s1 = mfp s) by (subst s1; destruct (0 <? _); reflexivity).
    split; [congruence|]. intros hp. rewrite Hh.
    assert (H1 : heap s1 !! hp
                 = (fun h => if bool_decide (hp = p) && (0 <? bh_bnum h)
                             then with_flags (Z.lor (bh_flags h) BH_DIRTY) h else h)
                   <$> heap s !! hp).
    { subst s1. unfold hdr. destruct (decide (hp = p)) as [->|Hne].
      - rewrite bool_decide_eq_true_2 by reflexivity.
        destruct (heap s !! p) as [h|] eqn:Hp; cbn.
        + destruct (0 <? bh_bnum h); cbn; [rewrite lookup_alter_eq|]; rewrite Hp; reflexivity.
        + rewrite Hp. reflexivity.
      - rewrite bool_decide_eq_false_2 by exact Hne. cbn.
        destruct (0 <? _); cbn; [rewrite lookup_alter_ne by congruence|];
          destruct (heap s !! hp); reflexivity. }
    rewrite H1. destruct (heap s !! hp) as [h|]; [|reflexivity]. cbn. f_equal.
    assert (Hor : bool_decide (hp ∈ p :: l)
                  = bool_decide (hp = p) || bool_decide (hp ∈ l)).
    { destruct (decide (hp = p)) as [->|Hne].
      - rewrite (bool_decide_eq_true_2 (p ∈ p :: l)) by apply list_elem_of_here.
        rewrite (bool_decide_eq_true_2 (p = p)) by reflexivity. reflexivity.
      - rewrite (bool_decide_eq_false_2 (hp = p)) by exact Hne. cbn.
        apply bool_decide_ext. rewrite elem_of_cons. tauto. }
    rewrite Hor.
    destruct (bool_decide (hp = p)), (bool_decide (hp ∈ l)),
      (0 <? bh_bnum h) eqn:Hpos; cbn; rewrite ?Hpos; try reflexivity.
    unfold with_flags. cbn. rewrite <- Z.lor_assoc, Z.lor_diag. reflexivity.
Qed.

(** X12. [mf_set_dirty] sets the [BH_DIRTY] flag of exactly the blocks of
    the index whose number is greater than zero.  Block 0, the blocks with
    a negative number and the headers outside the index keep their flags;
    no header loses a flag, appears or disappears; number, data and page
    count of every block are as before; and of the memory file only the
    dirty state changes, to [MF_DIRTY_YES]. *)
Theorem mf_set_dirty_marks s :
  mfp (mf_set_dirty s) = with_dirty MF_DIRTY_YES (mfp s) /\
  forall hp, heap (mf_set_dirty s) !! hp
    = (fun h => if bool_decide (hp ∈ List.map snd (mf_hash (mfp s)))
                   && (0 <? bh_bnum h)
                then with_flags (Z.lor (bh_flags h) BH_DIRTY) h else h)
      <$> heap s !! hp.
Proof.
  unfold mf_set_dirty.
  destruct (set_dirty_walk (List.map snd (mf_hash (mfp s))) s) as [Hm Hh].
  cbv zeta in Hm, Hh. cbn. rewrite Hm. split; [reflexivity|]. exact Hh.
Qed.

(** ** Opening *)

(** What [mf_do_open] leaves: only the descriptor, the messages and the
    answers of the operating system change. *)
Lemma mf_do_open_frame flags s :
  let r := mf_do_open flags s in
  heap (snd r) = heap s /\
  (exists fd, mfp (snd r) = with_fd fd (mfp s) /\ fst r = negb (fd <? 0)) /\
  swap_bytes (snd r) = swap_bytes s /\ swap_writes (snd r) = swap_writes s.
Proof.
  unfold mf_do_open, os_next. cbv zeta.
  destruct (has_flag flags O_CREAT).
  - destruct (negb (hd 0 (os_replies s) =? 0)).
    + cbn. split; [reflexivity|]. split; [exists (-1); split; reflexivity|auto].
    + cbn. destruct (hd 0 (tail (os_replies s)) <? 0) eqn:E; cbn;
        (split; [reflexivity|]; split; [|auto]);
        eexists; (split; [reflexivity|]); rewrite E; reflexivity.
  - cbn. destruct (hd 0 (os_replies s) <? 0) eqn:E; cbn;
      (split; [reflexivity|]; split; [|auto]);
      eexists; (split; [reflexivity|]); rewrite E; reflexivity.
Qed.

(** More of what [mf_open] leaves. *)
Lemma mf_open_more lo hi fname flags env s :
  mf_open lo hi fname flags env = Some (true, s) ->
  mf_dirty (mfp s) = MF_DIRTY_NO /\
  (mf_page_size (mfp s) = MEMFILE_PAGE_SIZE \/
   exists b, lo <= b <= hi /\ mf_page_size (mfp s) = uint b) /\
  (if fname then 0 <= mf_fd (mfp s)
   else mf_fd (mfp s) = -1 /\ mf_blocknr_max (mfp s) = 0 /\
        mf_page_size (mfp s) = MEMFILE_PAGE_SIZE /\
        os_replies s = os_replies env) /\
  swap_bytes s = swap_bytes env /\ swap_writes s = swap_writes env.
Proof.
  unfold mf_open.
  destruct (if fname then mf_do_open flags env else _) as [opened s0] eqn:Hdo.
  assert (H0 : (if fname then 0 <= mf_fd (mfp s0) \/ opened = false
                else mf_fd (mfp s0) = -1 /\ os_replies s0 = os_replies env) /\
               swap_bytes s0 = swap_bytes env /\ swap_writes s0 = swap_writes env).
  { destruct fname; [|injection Hdo as <- <-; cbn; auto].
    pose proof (mf_do_open_frame flags env) as F. cbv zeta in F. rewrite Hdo in F.
    cbn [fst snd] in F. destruct F as (_ & (fd & Hm & Hop) & Hb & Hw).
    split; [|auto]. rewrite Hm. cbn. subst opened.
    destruct (Z.ltb_spec fd 0); [right; reflexivity | left; assumption]. }
  destruct H0 as (Hfd0 & Hb0 & Hw0).
  destruct opened; cbn [negb]; [|discriminate].
  set (s1 := set_mfp (with_page_size MEMFILE_PAGE_SIZE) _).
  assert (H1 : mf_fd (mfp s1) = mf_fd (mfp s0) /\ mf_dirty (mfp s1) = MF_DIRTY_NO /\
               mf_page_size (mfp s1) = MEMFILE_PAGE_SIZE /\
               os_replies s1 = os_replies s0 /\
               swap_bytes s1 = swap_bytes s0 /\ swap_writes s1 = swap_writes s0)
    by (subst s1; cbn; auto 10).
  destruct H1 as (Hfd1 & Hd1 & Hps1 & Hos1 & Hb1 & Hw1). clearbody s1.
  set (s2 := if 0 <=? mf_fd (mfp s1) then _ else s1).
  assert (H2 : mf_fd (mfp s2) = mf_fd (mfp s1) /\ mf_dirty (mfp s2) = MF_DIRTY_NO /\
               (mf_page_size (mfp s2) = MEMFILE_PAGE_SIZE \/
                exists b, lo <= b <= hi /\ mf_page_size (mfp s2) = uint b) /\
               (mf_fd (mfp s1) < 0 -> mf_page_size (mfp s2) = MEMFILE_PAGE_SIZE /\
                                      os_replies s2 = os_replies s1) /\
               swap_bytes s2 = swap_bytes s1 /\ swap_writes s2 = swap_writes s1).
  { subst s2. unfold os_next.
    destruct (Z.leb_spec 0 (mf_fd (mfp s1))) as [Hpos|Hneg].
    - cbv beta iota zeta. destruct (_ =? 0); cbn; [|auto 10 with lia].
      destruct (_ && _) eqn:Hin; cbn; [|auto 10 with lia].
      apply andb_prop in Hin as [Hlo Hhi]. apply Z.leb_le in Hlo, Hhi.
      split; [reflexivity|]. split; [exact Hd1|]. split; [right; eauto|].
      split; [lia|auto].
    - auto 10. }
  destruct H2 as (Hfd2 & Hd2 & Hps2 & Hmem2 & Hb2 & Hw2). clearbody s2.
  set (sized := if _ || _ then _ else _).
  assert (Hsized : forall b s3, sized = Some (b, s3) ->
            mf_fd (mfp s3) = mf_fd (mfp s2) /\ mf_dirty (mfp s3) = MF_DIRTY_NO /\
            mf_page_size (mfp s3) = mf_page_size (mfp s2) /\
            (mf_fd (mfp s2) < 0 -> mf_blocknr_max (mfp s3) = 0 /\
                                   os_replies s3 = os_replies s2) /\
            swap_bytes s3 = swap_bytes s2 /\ swap_writes s3 = swap_writes s2).
  { intros b s3. subst sized. unfold os_next.
    destruct (Z.ltb_spec (mf_fd (mfp s2)) 0) as [Hneg|Hpos]; cbn [orb].
    - intros [= <- <-]. cbn. auto 10.
    - destruct (has_flag _ _); [intros [= <- <-]; cbn; auto 10 with lia|].
      cbv beta iota zeta. cbn [fst snd].
      destruct (int64 _ <=? 0); [intros [= <- <-]; cbn; auto 10 with lia|].
      destruct (_ && _); [|discriminate].
      intros [= <- <-]. cbn. auto 10 with lia. }
  destruct sized as [[b s3]|]; [|discriminate].
  destruct (Hsized b s3 eq_refl) as (Hfd3 & Hd3 & Hps3 & Hmem3 & Hb3 & Hw3).
  intros [= <-]. cbn.
  split; [exact Hd3|]. split; [rewrite Hps3; exact Hps2|].
  split; [|split; congruence].
  destruct fname.
  - destruct Hfd0 as [Hfd0|Hfd0]; [|discriminate]. congruence.
  - destruct Hfd0 as [Hfd0 Hos0].
    assert (Hn1 : mf_fd (mfp s1) < 0) by lia.
    assert (Hn2 : mf_fd (mfp s2) < 0) by lia.
    destruct (Hmem2 Hn1) as [Hp2 Ho2]. destruct (Hmem3 Hn2) as [Hm3 Ho3].
    split; [congruence|]. split; [exact Hm3|]. split; congruence.
Qed.

(** X13. [mf_open] returns an empty memory file.  When [mf_open] returns a
    memory file, its block index, free list and translation table are
    empty, it is not dirty, [mf_blocknr_min] is -1, [mf_neg_count] is 0,
    [mf_infile_count] equals [mf_blocknr_max], which is not negative, and
    the page size is the default or a device block size within the limits.
    With a file name the descriptor is not negative; without one it is -1,
    [mf_blocknr_max] is 0, the page size is the default and the operating
    system is not called.  No block header is touched and nothing is
    written. *)
Theorem mf_open_fresh lo hi fname flags env s :
  mf_open lo hi fname flags env = Some (true, s) ->
  mf_hash (mfp s) = [] /\ mf_free_first (mfp s) = [] /\ mf_trans (mfp s) = ∅ /\
  mf_dirty (mfp s) = MF_DIRTY_NO /\
  mf_blocknr_min (mfp s) = -1 /\ mf_neg_count (mfp s) = 0 /\
  0 <= mf_blocknr_max (mfp s) /\
  mf_infile_count (mfp s) = mf_blocknr_max (mfp s) /\
  (mf_page_size (mfp s) = MEMFILE_PAGE_SIZE \/
   exists b, lo <= b <= hi /\ mf_page_size (mfp s) = uint b) /\
  (if fname then 0 <= mf_fd (mfp s)
   else mf_fd (mfp s) = -1 /\ mf_blocknr_max (mfp s) = 0 /\
        mf_page_size (mfp s) = MEMFILE_PAGE_SIZE /\
        os_replies s = os_replies env) /\
  heap s = heap env /\
  swap_bytes s = swap_bytes env /\ swap_writes s = swap_writes env.
Proof.
  intros Hopen.
  destruct (mf_open_spec _ _ _ _ _ _ Hopen)
    as (Hheap & Hhash & Hfree & Htrans & Hmin & Hneg & Hmax & Hinfile).
  destruct (mf_open_more _ _ _ _ _ _ Hopen) as (Hdirty & Hps & Hfd & Hbytes & Hwrites).
  auto 20.
Qed.

Lemma mf_open_fresh_witness :
  mf_hash (mfp Demo.memory_only) = [].
Proof.
  refine (proj1 (mf_open_fresh 1048 50000 false 0 (Demo.env []) Demo.memory_only _)).
  vm_compute. reflexivity.
Defined.

Ltac open_simpl :=
  cbn -[int64 uint Z.quot has_flag Z.leb Z.ltb Z.add Z.sub Z.mul INT64_MAX
        MEMFILE_PAGE_SIZE].

Lemma round_up size ps :
  0 < size -> 0 < ps ->
  ps * ((size + ps - 1) `quot` ps - 1) < size <= ps * ((size + ps - 1) `quot` ps).
Proof.
  intros Hsize Hps. rewrite Z.quot_div_nonneg by lia.
  pose proof (Z.div_mod (size + ps - 1) ps ltac:(lia)) as Hdm.
  pose proof (Z.mod_pos_bound (size + ps - 1) ps Hps) as Hmod.
  nia.
Qed.

(** X14. The number of blocks of an existing file is rounded up.  When
    [mf_open] opens a file without creating or truncating it, the descriptor
    is good and the file has [size > 0] bytes, [mf_blocknr_max] is the size
    divided by the page size, rounded up: the least number of pages that
    hold the file.  The page size is the block size of the device when
    [os_fileinfo_fd] succeeds and the block size is within the limits, the
    default otherwise. *)
Theorem mf_open_rounds_up lo hi flags env fd (fileinfo : option Z) size rest :
  has_flag flags O_CREAT = false ->
  has_flag flags (Z.lor O_TRUNC O_EXCL) = false ->
  0 <= fd ->
  os_replies env = fd :: match fileinfo with
                         | Some blocksize => 0 :: blocksize :: size :: rest
                         | None => 1 :: size :: rest
                         end ->
  let ps := match fileinfo with
            | Some blocksize =>
                if (lo <=? blocksize) && (blocksize <=? hi)
                then uint blocksize else MEMFILE_PAGE_SIZE
            | None => MEMFILE_PAGE_SIZE
            end in
  0 < ps ->
  0 < size <= INT64_MAX - (ps - 1) ->
  exists s,
    mf_open lo hi true flags env = Some (true, s) /\
    mf_fd (mfp s) = fd /\
    mf_page_size (mfp s) = ps /\
    ps * (mf_blocknr_max (mfp s) - 1) < size <= ps * mf_blocknr_max (mfp s) /\
    mf_infile_count (mfp s) = mf_blocknr_max (mfp s) /\
    os_replies s = rest.
Proof.
  intros Hcreat Hexcl Hfd Hos ps Hps Hsize. subst ps.
  assert (Hfd1 : (fd <? 0) = false) by (apply Z.ltb_ge; exact Hfd).
  assert (Hfd2 : (0 <=? fd) = true) by (apply Z.leb_le; exact Hfd).
  assert (Hpos : (size <=? 0) = false) by (apply Z.leb_gt; lia).
  assert (Hsz : int64 size = size).
  { apply int64_id. unfold is_int64, INT64_MIN, INT64_MAX in *. lia. }
  unfold mf_open, mf_do_open, os_next. rewrite Hcreat, Hos.
  destruct fileinfo as [blocksize|];
    [destruct ((lo <=? blocksize) && (blocksize <=? hi)) eqn:Hin|];
    cbv iota in Hps, Hsize;
    match type of Hps with 0 < ?p => set (ps := p) in * end;
    (assert (Hups : uint (ps - 1) = ps - 1)
       by (apply uint_id; subst ps; try pose proof (uint_range blocksize);
           unfold is_uint, MEMFILE_PAGE_SIZE, UINT_MAX in *; lia));
    (assert (Hsum : int64 (size + ps - 1) = size + ps - 1)
       by (apply int64_id; unfold is_int64, INT64_MIN, INT64_MAX in *; lia));
    (assert (Hps1 : (0 <? ps) = true) by (apply Z.ltb_lt; exact Hps));
    (assert (Hfit : (ps - 1 <=? INT64_MAX - size) = true) by (apply Z.leb_le; lia));
    pose proof (round_up size ps (proj1 Hsize) Hps) as Hround;
    open_simpl;
    repeat (progress (rewrite ?Hfd1, ?Hfd2, ?Hin, ?Hexcl, ?Hsz, ?Hpos; open_simpl));
    fold ps; rewrite Hps1, Hups, Hfit, Hsum; open_simpl;
    eexists; (split; [reflexivity|]); open_simpl; auto.
Qed.

Lemma mf_open_rounds_up_witness :
  exists s,
    mf_open 1048 50000 true O_RDWR (Demo.env [3; 1; 5000]) = Some (true, s) /\
    mf_blocknr_max (mfp s) = 2.
Proof.
  destruct (mf_open_rounds_up 1048 50000 O_RDWR (Demo.env [3; 1; 5000]) 3 None 5000 [])
    as (s & Hopen & _ & _ & Hmax & _).
  - reflexivity.
  - reflexivity.
  - lia.
  - reflexivity.
  - reflexivity.
  - unfold MEMFILE_PAGE_SIZE, INT64_MAX. lia.
  - exists s. split; [exact Hopen|]. unfold MEMFILE_PAGE_SIZE in Hmax. lia.
Defined.

(** X15. A swap file is never created through an existing name.  When
    [O_CREAT] is among the flags and [os_fileinfo_link] finds the name,
    [mf_do_open] does not call [os_open]: it fails with the descriptor -1
    and the message E300, having asked the operating system once.
    [mf_open] then returns NULL, and [mf_open_file], which always creates,
    returns FAIL and leaves the dirty state of the memory file as it is. *)
Theorem symlink_refused flags s :
  has_flag flags O_CREAT = true ->
  hd 0 (os_replies s) <> 0 ->
  let s' := snd (mf_do_open flags s) in
  fst (mf_do_open flags s) = false /\
  mf_fd (mfp s') = -1 /\
  msgs s' = e_swap_exists :: msgs s /\
  os_replies s' = tail (os_replies s) /\
  (forall lo hi, mf_open lo hi true flags s = Some (false, s')) /\
  fst (mf_open_file s) = FAIL /\
  mf_fd (mfp (snd (mf_open_file s))) = -1 /\
  msgs (snd (mf_open_file s)) = e_swap_exists :: msgs s /\
  mf_dirty (mfp (snd (mf_open_file s))) = mf_dirty (mfp s).
Proof.
  intros Hcreat Hlink. apply Z.eqb_neq in Hlink.
  assert (Hdo : forall fl, has_flag fl O_CREAT = true ->
            mf_do_open fl s
            = (false, set_mfp (with_fd (-1)) (emsg e_swap_exists (snd (os_next s))))).
  { intros fl Hfl. unfold mf_do_open. rewrite Hfl. unfold os_next at 1.
    cbv beta iota zeta. rewrite Hlink. reflexivity. }
  cbv zeta. rewrite (Hdo flags Hcreat). cbn [fst snd].
  split; [reflexivity|]. split; [reflexivity|]. split; [reflexivity|].
  split; [reflexivity|].
  split.
  { intros lo hi. unfold mf_open. rewrite (Hdo flags Hcreat). reflexivity. }
  unfold mf_open_file.
  rewrite (Hdo (Z.lor O_RDWR (Z.lor O_CREAT O_EXCL)) eq_refl). cbn. auto.
Qed.

Lemma symlink_refused_witness :
  fst (mf_do_open (Z.lor O_RDWR O_CREAT) (Demo.env [1])) = false.
Proof.
  refine (proj1 (symlink_refused (Z.lor O_RDWR O_CREAT) (Demo.env [1]) _ _)).
  - reflexivity.
  - cbn. discriminate.
Defined.

(** X16. [mf_open_file] attaches a swap file or changes nothing but the
    descriptor.  It returns OK exactly when the descriptor it leaves is not
    negative, and then the memory file is dirty ([MF_DIRTY_YES]), so that
    its blocks get written to the new file; when it returns FAIL the dirty
    state is as before.  In both cases the block index, the free list, the
    translation table, the counters, the page size, the block headers and
    the file contents are untouched. *)
Theorem mf_open_file_attaches s :
  let r := fst (mf_open_file s) in
  let s' := snd (mf_open_file s) in
  (r = OK <-> 0 <= mf_fd (mfp s')) /\
  (r = OK -> mf_dirty (mfp s') = MF_DIRTY_YES) /\
  (r = FAIL -> mf_dirty (mfp s') = mf_dirty (mfp s)) /\
  mf_hash (mfp s') = mf_hash (mfp s) /\
  mf_free_first (mfp s') = mf_free_first (mfp s) /\
  mf_trans (mfp s') = mf_trans (mfp s) /\
  mf_blocknr_max (mfp s') = mf_blocknr_max (mfp s) /\
  mf_blocknr_min (mfp s') = mf_blocknr_min (mfp s) /\
  mf_neg_count (mfp s') = mf_neg_count (mfp s) /\
  mf_infile_count (mfp s') = mf_infile_count (mfp s) /\
  mf_page_size (mfp s') = mf_page_size (mfp s) /\
  heap s' = heap s /\
  swap_bytes s' = swap_bytes s /\ swap_writes s' = swap_writes s.
Proof.
  unfold mf_open_file.
  pose proof (mf_do_open_frame (Z.lor O_RDWR (Z.lor O_CREAT O_EXCL)) s) as F.
  cbv zeta in F.
  destruct (mf_do_open _ s) as [opened s1]. cbn [fst snd] in F.
  destruct F as (Hheap & (fd & Hm & Hop) & Hb & Hw).
  destruct opened; cbn; rewrite Hm; cbn.
  - symmetry in Hop. apply negb_true_iff, Z.ltb_ge in Hop.
    split; [tauto|]. split; [reflexivity|]. split; [discriminate|]. auto 15.
  - symmetry in Hop. apply negb_false_iff, Z.ltb_lt in Hop.
    split; [split; [discriminate|lia]|]. split; [discriminate|]. auto 15.
Qed.

(** ** What [mf_write] does to the block headers *)

Lemma cleaned_cleaned h : cleaned (cleaned h) = cleaned h.
Proof.
  unfold cleaned, with_flags, clear_flag. cbn. f_equal.
  rewrite <- Z.land_assoc, Z.land_diag. reflexivity.
Qed.

(** The loop of [mf_write] allocates and frees no header, and all it does to
    a header is to clear the [BH_DIRTY] flag of [*hp] and of blocks that the
    index holds under numbers from [mf_infile_count] on. *)
Lemma mf_write_loop_heap fuel page_size hp : forall s r s',
  mf_write_loop fuel page_size hp s = Some (r, s') ->
  forall p,
    match heap s !! p, heap s' !! p with
    | Some h, Some h' =>
        h' = h \/
        (h' = cleaned h /\
         (p = hp \/ exists k, mf_infile_count (mfp s) <= k /\
                              pmap_get k (mf_hash (mfp s)) = Some p))
    | None, None => True
    | _, _ => False
    end.
Proof.
  induction fuel as [|fuel IH]; intros s r s'; [discriminate|].
  assert (Hrefl : forall st, heap st = heap s -> forall p,
            match heap s !! p, heap st !! p with
            | Some h, Some h' =>
                h' = h \/
                (h' = cleaned h /\
                 (p = hp \/ exists k, mf_infile_count (mfp s) <= k /\
                                      pmap_get k (mf_hash (mfp s)) = Some p))
            | None, None => True
            | _, _ => False
            end).
  { intros st -> p. destruct (heap s !! p); auto. }
  cbn [mf_write_loop].
  set (gap := mf_infile_count (mfp s) <? bh_bnum (hdr s hp)).
  set (nr := if gap then mf_infile_count (mfp s) else bh_bnum (hdr s hp)).
  set (hp2 := if gap then pmap_get (mf_infile_count (mfp s)) (mf_hash (mfp s))
              else Some hp).
  replace (if gap then _ else _) with (nr, hp2)
    by (subst nr hp2; unfold gap; destruct (_ <? _); reflexivity).
  cbv beta iota zeta.
  pose proof (vim_lseek_spec (int64 (page_size * nr)) s) as L.
  destruct (vim_lseek _ s) as [r1 s1]. cbn [fst snd] in L.
  destruct L as (Lm & Lh & _).
  destruct (negb _); [intros [= <- <-]; apply Hrefl; cbn; exact Lh|].
  set (size := uint _). set (data := match hp2 with Some _ => _ | None => _ end).
  pose proof (write_eintr_spec data size s1) as W.
  destruct (write_eintr data size s1) as [n s2]. cbn [fst snd] in W.
  destruct W as (Wm & Wh & _).
  destruct (negb _).
  { intros [= <- <-]. apply Hrefl. destruct (did_swapwrite_msg s2); cbn; congruence. }
  set (s3 := match hp2 with Some _ => _ | None => _ end).
  set (s4 := if mf_infile_count (mfp s3) <? _ then _ else s3).
  assert (Hhp2 : match hp2 with
                 | Some p2 => p2 = hp \/ exists k, mf_infile_count (mfp s) <= k /\
                                  pmap_get k (mf_hash (mfp s)) = Some p2
                 | None => True
                 end).
  { subst hp2. unfold gap.
    destruct (mf_infile_count (mfp s) <? bh_bnum (hdr s hp)); [|left; reflexivity].
    destruct (pmap_get _ _) as [p2|] eqn:Hget; [|exact I].
    right. exists (mf_infile_count (mfp s)). split; [lia|exact Hget]. }
  assert (H3 : mfp s3 = mfp s) by (subst s3; destruct hp2; cbn; congruence).
  assert (H4m : mf_hash (mfp s4) = mf_hash (mfp s) /\
                mf_infile_count (mfp s) <= mf_infile_count (mfp s4)).
  { subst s4. destruct (mf_infile_count (mfp s3) <? _) eqn:E.
    - apply Z.ltb_lt in E. cbn. rewrite H3 in *. split; [reflexivity|lia].
    - rewrite H3. split; [reflexivity|lia]. }
  assert (H4 : forall p,
            match heap s !! p, heap s4 !! p with
            | Some h, Some h' =>
                h' = h \/
                (h' = cleaned h /\
                 (p = hp \/ exists k, mf_infile_count (mfp s) <= k /\
                                      pmap_get k (mf_hash (mfp s)) = Some p))
            | None, None => True
            | _, _ => False
            end).
  { intros p.
    assert (Hh4 : heap s4 = heap s3)
      by (subst s4; destruct (mf_infile_count (mfp s3) <? _); reflexivity).
    rewrite Hh4. subst s3. destruct hp2 as [p2|]; cbn; rewrite Wh, Lh.
    - destruct (decide (p2 = p)) as [->|Hne].
      + rewrite lookup_alter_eq. destruct (heap s !! p); cbn; [|exact I].
        right. split; [reflexivity|exact Hhp2].
      + rewrite lookup_alter_ne by exact Hne. destruct (heap s !! p); auto.
    - destruct (heap s !! p); auto. }
  destruct (nr =? _); [intros [= <- <-]; exact H4|].
  intros Hrest p. specialize (IH _ _ _ Hrest p). specialize (H4 p).
  destruct H4m as [Hhash4 Hinf4]. rewrite Hhash4 in IH.
  destruct (heap s !! p) as [h|], (heap s4 !! p) as [h4|], (heap s' !! p) as [h'|];
    try contradiction; try exact I.
  destruct IH as [->|(-> & Hq)]; [exact H4|].
  assert (Hq' : p = hp \/ exists k, mf_infile_count (mfp s) <= k /\
                          pmap_get k (mf_hash (mfp s)) = Some p).
  { destruct Hq as [->|(k & Hk & Hget)]; [left; reflexivity|].
    right. exists k. split; [lia|exact Hget]. }
  destruct H4 as [->|(-> & _)]; right; (split; [|exact Hq']);
    [reflexivity|apply cleaned_cleaned].
Qed.

(** ** A sync without MFS_ALL *)

Lemma only_cleaned_refl s s' :
  heap s' = heap s ->
  mf_hash (mfp s') = mf_hash (mfp s) ->
  mf_free_first (mfp s') = mf_free_first (mfp s) ->
  mf_trans (mfp s') = mf_trans (mfp s) ->
  mf_neg_count (mfp s') = mf_neg_count (mfp s) ->
  mf_blocknr_max (mfp s') = mf_blocknr_max (mfp s) ->
  mf_blocknr_min (mfp s') = mf_blocknr_min (mfp s) ->
  mf_fd (mfp s') = mf_fd (mfp s) ->
  mf_page_size (mfp s') = mf_page_size (mfp s) ->
  mf_infile_count (mfp s') = mf_infile_count (mfp s) ->
  only_cleaned s s'.
Proof.
  intros Hheap ? ? ? ? ? ? ? ? Hinf. constructor; try assumption; [lia|].
  intros p. rewrite Hheap. destruct (heap s !! p); auto.
Qed.

Lemma only_cleaned_trans s1 s2 s3 :
  only_cleaned s1 s2 -> only_cleaned s2 s3 -> only_cleaned s1 s3.
Proof.
  intros [] []. constructor; try congruence; [lia|].
  intros p. specialize (oc_heap0 p). specialize (oc_heap1 p).
  destruct (heap s1 !! p) as [h1|], (heap s2 !! p) as [h2|], (heap s3 !! p) as [h3|];
    try contradiction; try exact I.
  destruct oc_heap1 as [->|[-> Hpos2]]; [exact oc_heap0|].
  destruct oc_heap0 as [->|[-> Hpos1]]; [right; auto|].
  right. split; [apply cleaned_cleaned|exact Hpos1].
Qed.

Lemma only_cleaned_numbers s s' :
  only_cleaned s s' -> index_numbers s -> index_numbers s'.
Proof.
  intros [] Hidx k p h' Hget Hh'. rewrite oc_hash0 in Hget.
  specialize (oc_heap0 p). rewrite Hh' in oc_heap0.
  destruct (heap s !! p) as [h|] eqn:Hh; [|contradiction].
  destruct oc_heap0 as [->|[-> _]]; [exact (Hidx k p h Hget Hh)|].
  exact (Hidx k p h Hget Hh).
Qed.

(** [mf_write] of a block with a number that is not negative. *)
Lemma mf_write_only_cleans fuel hp s r s' :
  0 <= bh_bnum (hdr s hp) ->
  index_numbers s ->
  0 <= mf_infile_count (mfp s) ->
  mf_write fuel hp s = Some (r, s') ->
  only_cleaned s s'.
Proof.
  intros Hpos Hidx Hinf. unfold mf_write.
  destruct (mf_fd (mfp s) <? 0); [intros [= <- <-]; apply only_cleaned_refl; reflexivity|].
  rewrite (proj2 (Z.ltb_ge _ 0) Hpos). intros Hloop.
  destruct (mf_write_loop_mfp _ _ _ _ _ _ Hloop) as [n Hm].
  pose proof (mf_write_loop_infile _ _ _ _ _ _ Hloop) as Hle.
  pose proof (mf_write_loop_heap _ _ _ _ _ _ Hloop) as Hheap.
  constructor; try (rewrite Hm; reflexivity); [exact Hle|].
  intros p. specialize (Hheap p).
  destruct (heap s !! p) as [h|] eqn:Hh, (heap s' !! p) as [h'|];
    try contradiction; try exact I.
  destruct Hheap as [->|[-> Hwhich]]; [left; reflexivity|].
  right. split; [reflexivity|].
  destruct Hwhich as [->|(k & Hk & Hget)].
  - rewrite (hdr_Some _ _ _ Hh) in Hpos. exact Hpos.
  - rewrite (Hidx k p h Hget Hh). lia.
Qed.

Lemma mf_sync_walk_only_cleans fuel flags :
  has_flag flags MFS_ALL = false ->
  forall l st s hp st' s',
    index_numbers s ->
    0 <= mf_infile_count (mfp s) ->
    mf_sync_walk fuel flags l st s = Some (hp, st', s') ->
    only_cleaned s s'.
Proof.
  intros Hall. induction l as [|p l IH]; intros st s hp st' s' Hidx Hinf;
    cbn [mf_sync_walk].
  - intros [= <- <- <-]. apply only_cleaned_refl; reflexivity.
  - rewrite Hall. cbn [orb].
    destruct (0 <=? bh_bnum (hdr s p)) eqn:Hpos; cbn [andb]; [|apply IH; assumption].
    apply Z.leb_le in Hpos.
    destruct (has_flag (bh_flags (hdr s p)) BH_DIRTY && _); [|apply IH; assumption].
    destruct (has_flag flags MFS_ZERO && _); [apply IH; assumption|].
    destruct (mf_write fuel p s) as [[r s1]|] eqn:Hwrite; [|discriminate].
    pose proof (mf_write_only_cleans _ _ _ _ _ Hpos Hidx Hinf Hwrite) as H1.
    destruct (_ && _); [intros [= <- <- <-]; exact H1|].
    set (os := if has_flag flags MFS_STOP then os_char_avail s1
               else (false, os_breakcheck s1)).
    assert (Hos : only_cleaned s1 (snd os)).
    { subst os. unfold os_char_avail, os_breakcheck, os_next.
      destruct (has_flag flags MFS_STOP); cbn; [|destruct (_ =? 0)];
        apply only_cleaned_refl; reflexivity. }
    destruct os as [stop s2]. cbn [snd] in Hos.
    pose proof (only_cleaned_trans _ _ _ H1 Hos) as H2.
    destruct stop; [intros [= <- <- <-]; exact H2|].
    destruct (got_int s2); [intros [= <- <- <-]; exact H2|].
    intros Hrest. apply (only_cleaned_trans _ _ _ H2).
    apply (IH _ _ _ _ _ (only_cleaned_numbers _ _ H2 Hidx)) in Hrest; [exact Hrest|].
    pose proof (oc_infile _ _ H2). lia.
Qed.

(** X17. A sync without MFS_ALL leaves the blocks with negative numbers
    alone.  In a memory file whose index files every header under the
    number that the header carries, [mf_sync] without MFS_ALL makes no
    translation: the block index, the free list, the translation table,
    [mf_neg_count], [mf_blocknr_max] and [mf_blocknr_min] are as before, no
    header is allocated or freed, every header with a negative number is
    exactly as before (still dirty when it was), and all that happens to
    another header is that its [BH_DIRTY] flag is cleared. *)
Theorem mf_sync_spares_negative fuel flags s st s' :
  has_flag flags MFS_ALL = false ->
  index_numbers s ->
  0 <= mf_infile_count (mfp s) ->
  mf_sync fuel flags s = Some (st, s') ->
  mf_hash (mfp s') = mf_hash (mfp s) /\
  mf_free_first (mfp s') = mf_free_first (mfp s) /\
  mf_trans (mfp s') = mf_trans (mfp s) /\
  mf_neg_count (mfp s') = mf_neg_count (mfp s) /\
  mf_blocknr_max (mfp s') = mf_blocknr_max (mfp s) /\
  mf_blocknr_min (mfp s') = mf_blocknr_min (mfp s) /\
  (forall p h, heap s !! p = Some h -> bh_bnum h < 0 -> heap s' !! p = Some h) /\
  (forall p h, heap s !! p = Some h ->
     heap s' !! p = Some h \/ heap s' !! p = Some (cleaned h)) /\
  (forall p, heap s !! p = None -> heap s' !! p = None).
Proof.
  intros Hall Hidx Hinf Hsync.
  assert (Hoc : only_cleaned s s').
  { revert Hsync. unfold mf_sync.
    destruct (mf_fd (mfp s) <? 0);
      [intros [= <- <-]; apply only_cleaned_refl; reflexivity|].
    destruct (mf_sync_walk _ _ _ _ _) as [[[hp st1] s1]|] eqn:Hwalk; [|discriminate].
    apply (mf_sync_walk_only_cleans _ _ Hall) in Hwalk; [|exact Hidx|exact Hinf].
    assert (H0 : only_cleaned s (set_got_int false s))
      by (apply only_cleaned_refl; reflexivity).
    pose proof (only_cleaned_trans _ _ _ H0 Hwalk) as H1.
    intros Hres. apply (only_cleaned_trans _ _ _ H1).
    revert Hres. unfold os_fsync, os_next.
    destruct (_ || _), (has_flag flags MFS_FLUSH); cbn; intros [= <- <-];
      apply only_cleaned_refl; reflexivity. }
  destruct Hoc. repeat (split; [assumption|]).
  split; [|split].
  - intros p h Hh Hneg. specialize (oc_heap0 p). rewrite Hh in oc_heap0.
    destruct (heap s' !! p) as [h'|]; [|contradiction].
    destruct oc_heap0 as [->|[_ Hpos]]; [reflexivity|lia].
  - intros p h Hh. specialize (oc_heap0 p). rewrite Hh in oc_heap0.
    destruct (heap s' !! p) as [h'|]; [|contradiction].
    destruct oc_heap0 as [->|[-> _]]; auto.
  - intros p Hh. specialize (oc_heap0 p). rewrite Hh in oc_heap0.
    destruct (heap s' !! p); [contradiction|reflexivity].
Qed.

Lemma negative_dirty_numbers : index_numbers Scene.negative_dirty.
Proof.
  intros k p h Hget Hh.
  change (mf_hash (mfp Scene.negative_dirty)) with [(-1, 1%positive)] in Hget.
  apply pmap_get_elem, list_elem_of_singleton in Hget. injection Hget as -> ->.
  vm_compute in Hh. injection Hh as <-. reflexivity.
Qed.

Lemma mf_sync_spares_negative_witness :
  exists st s',
    mf_sync 1 0 Scene.negative_dirty = Some (st, s') /\
    heap s' !! 1%positive = Some (hdr Scene.negative_dirty 1%positive).
Proof.
  eexists _, _. split; [vm_compute; reflexivity|].
  refine (proj1 (proj2 (proj2 (proj2 (proj2 (proj2 (proj2
            (mf_sync_spares_negative 1 0 Scene.negative_dirty _ _ eq_refl
               negative_dirty_numbers _ _)))))))
            1%positive (hdr Scene.negative_dirty 1%positive) _ _).
  - vm_compute. intros H. discriminate H.
  - vm_compute. reflexivity.
  - vm_compute. reflexivity.
  - vm_compute. reflexivity.
Defined.

(** ** A sync that runs to its end *)

(** Headers come from headers with the same flags. *)
Lemma flags_alter (F : bhdr_T -> bhdr_T) q (g : gmap ptr bhdr_T) p :
  (forall h, bh_flags (F h) = bh_flags h) ->
  bh_flags (default junk_hdr (alter F q g !! p))
  = bh_flags (default junk_hdr (g !! p)).
Proof.
  intros HF. destruct (decide (q = p)) as [->|Hne].
  - rewrite lookup_alter_eq. destruct (g !! p); cbn; [apply HF|reflexivity].
  - rewrite lookup_alter_ne by exact Hne. reflexivity.
Qed.

Lemma clean_delete q (g : gmap ptr bhdr_T) p :
  has_flag (bh_flags (default junk_hdr (g !! p))) BH_DIRTY = false ->
  has_flag (bh_flags (default junk_hdr (delete q g !! p))) BH_DIRTY = false.
Proof.
  intros H. destruct (decide (q = p)) as [->|Hne].
  - rewrite lookup_delete_eq. reflexivity.
  - rewrite lookup_delete_ne by exact Hne. exact H.
Qed.

Lemma mf_trans_add_keeps_clean hp s p :
  clean s p -> clean (snd (mf_trans_add hp s)) p.
Proof.
  unfold clean, hdr, mf_trans_add, mf_rem_free. intros Hclean.
  destruct (0 <=? _); [exact Hclean|].
  destruct (head (mf_free_first (mfp s))) as [freep|]; cbv beta iota zeta.
  - destruct (_ <=? _); [destruct (_ <? _)|]; cbn;
      rewrite ?flags_alter by reflexivity; try apply clean_delete;
      rewrite ?flags_alter by reflexivity; exact Hclean.
  - cbn. rewrite ?flags_alter by reflexivity. exact Hclean.
Qed.

Lemma mf_write_loop_keeps_clean fuel page_size hp s r s' p :
  mf_write_loop fuel page_size hp s = Some (r, s') -> clean s p -> clean s' p.
Proof.
  intros Hloop. pose proof (mf_write_loop_heap _ _ _ _ _ _ Hloop p) as H.
  unfold clean, hdr.
  destruct (heap s !! p) as [h|], (heap s' !! p) as [h'|]; try contradiction; auto.
  destruct H as [->|[-> _]]; [auto|]. intros _. apply has_flag_clear_dirty.
Qed.

Lemma mf_write_loop_bnum fuel page_size hp s r s' p :
  mf_write_loop fuel page_size hp s = Some (r, s') ->
  bh_bnum (hdr s' p) = bh_bnum (hdr s p).
Proof.
  intros Hloop. pose proof (mf_write_loop_heap _ _ _ _ _ _ Hloop p) as H.
  unfold hdr.
  destruct (heap s !! p) as [h|], (heap s' !! p) as [h'|]; try contradiction; auto.
  destruct H as [->|[-> _]]; reflexivity.
Qed.

Lemma mf_write_keeps_clean fuel hp s r s' p :
  mf_write fuel hp s = Some (r, s') -> clean s p -> clean s' p.
Proof.
  unfold mf_write. destruct (mf_fd (mfp s) <? 0); [intros [= <- <-]; auto|].
  destruct (bh_bnum (hdr s hp) <? 0).
  - pose proof (mf_trans_add_keeps_clean hp s p) as Hadd.
    destruct (mf_trans_add hp s) as [[] s0]; cbn [snd] in Hadd.
    + intros Hloop Hclean. eapply mf_write_loop_keeps_clean; eauto.
    + intros [= <- <-]. exact Hadd.
  - apply mf_write_loop_keeps_clean.
Qed.

Lemma mf_write_cleans fuel hp s s' :
  mf_write fuel hp s = Some (OK, s') -> clean s' hp.
Proof.
  unfold mf_write, clean. destruct (mf_fd (mfp s) <? 0); [discriminate|].
  destruct (bh_bnum (hdr s hp) <? 0).
  - destruct (mf_trans_add hp s) as [[] s0]; [|discriminate].
    apply mf_write_loop_clean.
  - apply mf_write_loop_clean.
Qed.

Lemma mf_write_bnum fuel hp s r s' p :
  0 <= bh_bnum (hdr s hp) ->
  mf_write fuel hp s = Some (r, s') ->
  bh_bnum (hdr s' p) = bh_bnum (hdr s p).
Proof.
  intros Hpos. unfold mf_write.
  destruct (mf_fd (mfp s) <? 0); [intros [= <- <-]; reflexivity|].
  rewrite (proj2 (Z.ltb_ge _ 0) Hpos). apply mf_write_loop_bnum.
Qed.

(** The two ways in which the walk of [mf_sync] goes on after a write. *)
Lemma sync_poll_heap flags s1 :
  heap (snd (if has_flag flags MFS_STOP then os_char_avail s1
             else (false, os_breakcheck s1))) = heap s1.
Proof.
  unfold os_char_avail, os_breakcheck, os_next.
  destruct (has_flag flags MFS_STOP); cbn; [|destruct (_ =? 0)]; reflexivity.
Qed.

Lemma mf_sync_walk_keeps_clean fuel flags p : forall l st s hp st' s',
  mf_sync_walk fuel flags l st s = Some (hp, st', s') -> clean s p -> clean s' p.
Proof.
  induction l as [|q l IH]; intros st s hp st' s'; cbn [mf_sync_walk].
  - intros [= <- <- <-]. auto.
  - destruct (_ && _ && _); [|apply IH].
    destruct (_ && negb _); [apply IH|].
    destruct (mf_write fuel q s) as [[r s1]|] eqn:Hwrite; [|discriminate].
    pose proof (mf_write_keeps_clean _ _ _ _ _ p Hwrite) as H1.
    destruct (_ && _); [intros [= <- <- <-]; exact H1|].
    pose proof (sync_poll_heap flags s1) as Hos.
    destruct (if has_flag flags MFS_STOP then _ else _) as [stop s2]. cbn [snd] in Hos.
    assert (H2 : clean s p -> clean s2 p).
    { intros Hc. unfold clean. rewrite (hdr_same_heap s1 s2 p Hos). apply H1, Hc. }
    destruct stop; [intros [= <- <- <-]; exact H2|].
    destruct (got_int s2); [intros [= <- <- <-]; exact H2|].
    intros Hrest Hc. apply (IH _ _ _ _ _ Hrest), H2, Hc.
Qed.

(** A walk that ends with the status OK and without an interrupt has gone
    through the whole list, and it has left every block clean that it was to
    write. *)
Lemma mf_sync_walk_cleans fuel flags :
  has_flag flags MFS_ZERO = false ->
  has_flag flags MFS_STOP = false ->
  forall l st s hp s',
    mf_sync_walk fuel flags l st s = Some (hp, OK, s') ->
    got_int s' = false ->
    hp = None /\ st = OK /\
    forall p, p ∈ l ->
      has_flag flags MFS_ALL = true \/ 0 <= bh_bnum (hdr s p) ->
      clean s' p.
Proof.
  intros Hzero Hstop.
  induction l as [|q l IH]; intros st s hp s'; cbn [mf_sync_walk].
  - intros [= <- <- <-] _. split; [reflexivity|]. split; [reflexivity|].
    intros p Hin. apply elem_of_nil in Hin. contradiction.
  - destruct ((has_flag flags MFS_ALL || (0 <=? bh_bnum (hdr s q)))
              && has_flag (bh_flags (hdr s q)) BH_DIRTY
              && (bool_decide (st = OK)
                  || ((0 <=? bh_bnum (hdr s q))
                      && (bh_bnum (hdr s q) <? mf_infile_count (mfp s))))) eqn:Hcond.
    + (* the block is written *)
      rewrite Hzero. cbn [andb].
      destruct (mf_write fuel q s) as [[r s1]|] eqn:Hwrite; [|discriminate].
      destruct (bool_decide (r = FAIL) && bool_decide (st = FAIL)) eqn:Hdouble.
      { intros [= _ -> _]. apply andb_prop in Hdouble as [_ Hst].
        apply bool_decide_eq_true in Hst. discriminate. }
      rewrite Hstop.
      set (st1 := if bool_decide (r = FAIL) then FAIL else st).
      cbv beta iota zeta.
      destruct (got_int (os_breakcheck s1)) eqn:Hint.
      { intros [= _ _ <-] Hgot. congruence. }
      intros Hrest Hgot.
      destruct (IH _ _ _ _ Hrest Hgot) as (-> & Hst1 & Hclean).
      assert (Hr : r = OK /\ st = OK).
      { subst st1. destruct r; cbn in Hst1; [auto|discriminate]. }
      destruct Hr as [-> ->].
      split; [reflexivity|]. split; [reflexivity|].
      assert (Hheap : heap (os_breakcheck s1) = heap s1).
      { unfold os_breakcheck, os_next. destruct (_ =? 0); reflexivity. }
      intros p Hin Hp. apply elem_of_cons in Hin as [->|Hin].
      * apply (mf_sync_walk_keeps_clean _ _ _ _ _ _ _ _ _ Hrest).
        unfold clean. rewrite (hdr_same_heap s1 _ q Hheap).
        exact (mf_write_cleans _ _ _ _ Hwrite).
      * apply Hclean; [exact Hin|].
        destruct Hp as [Hall|Hpos]; [left; exact Hall|].
        destruct (has_flag flags MFS_ALL) eqn:Hall; [left; reflexivity|right].
        rewrite (hdr_same_heap s1 _ p Hheap).
        apply andb_prop in Hcond as [Hcond _]. apply andb_prop in Hcond as [Hq _].
        cbn [orb] in Hq. apply Z.leb_le in Hq.
        rewrite (mf_write_bnum _ _ _ _ _ p Hq Hwrite). exact Hpos.
    + (* the block is passed over: it is not dirty *)
      intros Hrest Hgot.
      destruct (IH _ _ _ _ Hrest Hgot) as (-> & -> & Hclean).
      split; [reflexivity|]. split; [reflexivity|].
      intros p Hin Hp. apply elem_of_cons in Hin as [->|Hin]; [|auto].
      apply (mf_sync_walk_keeps_clean _ _ _ _ _ _ _ _ _ Hrest).
      unfold clean.
      rewrite bool_decide_eq_true_2, orb_true_l, andb_true_r in Hcond by reflexivity.
      destruct (has_flag (bh_flags (hdr s q)) BH_DIRTY); [|reflexivity].
      rewrite andb_true_r in Hcond.
      destruct Hp as [Hall|Hpos]; [rewrite Hall in Hcond; discriminate|].
      apply Z.leb_le in Hpos. rewrite Hpos, orb_true_r in Hcond. discriminate.
Qed.

(** X18. A sync that runs to its end leaves nothing dirty.  Take a call of
    [mf_sync] without MFS_STOP and MFS_ZERO that makes no translation
    (MFS_ALL is not given, or no block of the index has a negative number).
    When it returns OK and [got_int] is not set afterwards, every block of
    the index with a number that is not negative has its [BH_DIRTY] flag
    clear. *)
Theorem mf_sync_cleans fuel flags s s' :
  has_flag flags MFS_ZERO = false ->
  has_flag flags MFS_STOP = false ->
  (has_flag flags MFS_ALL = false \/
   forall p, p ∈ List.map snd (mf_hash (mfp s)) -> 0 <= bh_bnum (hdr s p)) ->
  mf_sync fuel flags s = Some (OK, s') ->
  got_int s' = false ->
  forall p h',
    p ∈ List.map snd (mf_hash (mfp s)) ->
    0 <= bh_bnum (hdr s p) ->
    heap s' !! p = Some h' ->
    has_flag (bh_flags h') BH_DIRTY = false.
Proof.
  intros Hzero Hstop _. unfold mf_sync.
  destruct (mf_fd (mfp s) <? 0); [discriminate|].
  destruct (mf_sync_walk _ _ _ _ _) as [[[hp st1] s1]|] eqn:Hwalk; [|discriminate].
  set (s2 := if bool_decide (hp = None) || bool_decide (st1 = FAIL) then _ else s1).
  assert (H2 : heap s2 = heap s1 /\ got_int s2 = got_int s1).
  { subst s2. destruct (_ || _); cbn; auto. }
  destruct H2 as (Hh2 & Hg2). clearbody s2.
  set (fl := if has_flag flags MFS_FLUSH then _ else (st1, s2)).
  assert (H3 : heap (snd fl) = heap s2 /\ got_int (snd fl) = got_int s2 /\
               (fst fl = OK -> st1 = OK)).
  { subst fl. unfold os_fsync, os_next.
    destruct (has_flag flags MFS_FLUSH); cbn; [|auto].
    destruct (_ =? 0); cbn; auto. repeat split; discriminate. }
  destruct fl as [st3 s3]. cbn [fst snd] in H3.
  destruct H3 as (Hh3 & Hg3 & Hst3).
  intros [= -> <-]. cbn. rewrite Hg3, Hg2. intros Hgot.
  apply orb_false_elim in Hgot as [Hgot _].
  rewrite (Hst3 eq_refl) in Hwalk.
  destruct (mf_sync_walk_cleans _ _ Hzero Hstop _ _ _ _ _ Hwalk Hgot)
    as (_ & _ & Hclean).
  intros p h' Hin Hp Hh'.
  specialize (Hclean p Hin (or_intror Hp)). unfold clean, hdr in Hclean.
  rewrite Hh3, Hh2 in Hh'. rewrite Hh' in Hclean. exact Hclean.
Qed.

Lemma mf_sync_cleans_witness :
  exists s',
    mf_sync 3 0 (Demo.gap []) = Some (OK, s') /\
    has_flag (bh_flags (hdr s' 3%positive)) BH_DIRTY = false.
Proof.
  eexists. split; [vm_compute; reflexivity|].
  refine (mf_sync_cleans 3 0 (Demo.gap []) _ eq_refl eq_refl (or_introl eq_refl)
            _ _ 3%positive _ _ _ _).
  - vm_compute. reflexivity.
  - vm_compute. reflexivity.
  - vm_compute. apply list_elem_of_further, list_elem_of_here.
  - vm_compute. intros H. discriminate H.
  - vm_compute. reflexivity.
Defined.

(** ** [mf_release_all] and the blocks in use *)

Lemma mf_trans_add_other hp s p :
  p <> hp -> p ∉ mf_free_first (mfp s) ->
  heap (snd (mf_trans_add hp s)) !! p = heap s !! p /\
  (forall q, q ∈ mf_free_first (mfp (snd (mf_trans_add hp s))) ->
             q ∈ mf_free_first (mfp s)).
Proof.
  intros Hne Hfree. unfold mf_trans_add, mf_rem_free.
  destruct (0 <=? _); [auto|].
  destruct (mf_free_first (mfp s)) as [|freep free] eqn:Hlist; cbn [head].
  - cbn. rewrite Hlist. heap_lookup. auto.
  - assert (Hnf : p <> freep).
    { intros ->. apply Hfree. apply list_elem_of_here. }
    destruct (_ <=? _); [destruct (_ <? _)|]; cbn; rewrite ?Hlist; cbn;
      heap_lookup; (split; [reflexivity|]); auto.
    intros q Hq. apply list_elem_of_further, Hq.
Qed.

Lemma cleaned_locked h :
  has_flag (bh_flags (cleaned h)) BH_LOCKED = has_flag (bh_flags h) BH_LOCKED.
Proof.
  unfold cleaned, has_flag, clear_flag. cbn. f_equal. f_equal.
  rewrite <- Z.land_assoc. reflexivity.
Qed.

(** [mf_write] of another block: the header [p] stays, at most its
    [BH_DIRTY] flag is cleared. *)
Lemma mf_write_other fuel hp s r s' p h :
  mf_write fuel hp s = Some (r, s') ->
  p <> hp -> p ∉ mf_free_first (mfp s) ->
  heap s !! p = Some h ->
  (heap s' !! p = Some h \/ heap s' !! p = Some (cleaned h)) /\
  (forall q, q ∈ mf_free_first (mfp s') -> q ∈ mf_free_first (mfp s)).
Proof.
  intros Hwrite Hne Hfree Hh. revert Hwrite. unfold mf_write.
  destruct (mf_fd (mfp s) <? 0); [intros [= <- <-]; auto|].
  assert (Hloop : forall s0,
            heap s0 !! p = Some h ->
            (forall q, q ∈ mf_free_first (mfp s0) -> q ∈ mf_free_first (mfp s)) ->
            mf_write_loop fuel (mf_page_size (mfp s0)) hp s0 = Some (r, s') ->
            (heap s' !! p = Some h \/ heap s' !! p = Some (cleaned h)) /\
            (forall q, q ∈ mf_free_first (mfp s') -> q ∈ mf_free_first (mfp s))).
  { intros s0 Hh0 Hfree0 Hl.
    destruct (mf_write_loop_mfp _ _ _ _ _ _ Hl) as [n Hm].
    pose proof (mf_write_loop_heap _ _ _ _ _ _ Hl p) as Hheap.
    rewrite Hh0 in Hheap. rewrite Hm. cbn. split; [|exact Hfree0].
    destruct (heap s' !! p) as [h'|]; [|contradiction].
    destruct Hheap as [->|[-> _]]; auto. }
  destruct (bh_bnum (hdr s hp) <? 0); [|apply Hloop; auto].
  destruct (mf_trans_add_other hp s p Hne Hfree) as [Hother Hlist].
  destruct (mf_trans_add hp s) as [[] s0]; cbn [snd] in Hother, Hlist.
  - apply Hloop; [congruence|exact Hlist].
  - intros [= <- <-]. split; [left; congruence|exact Hlist].
Qed.

Lemma mf_release_loop_keeps wfuel fuel p h : forall i retval s r s',
  mf_release_loop wfuel fuel i retval s = Some (r, s') ->
  has_flag (bh_flags h) BH_LOCKED = true ->
  p ∉ mf_free_first (mfp s) ->
  heap s !! p = Some h \/ heap s !! p = Some (cleaned h) ->
  heap s' !! p = Some h \/ heap s' !! p = Some (cleaned h).
Proof.
  induction fuel as [|fuel IH]; intros i retval s r s'; [discriminate|].
  cbn [mf_release_loop]. intros Hloop Hlocked Hfree Hh.
  destruct (mf_hash (mfp s) !! i) as [[k hp]|]; [|injection Hloop as _ <-; exact Hh].
  destruct (has_flag (bh_flags (hdr s hp)) BH_LOCKED) eqn:Hl;
    [exact (IH _ _ _ _ _ Hloop Hlocked Hfree Hh)|].
  assert (Hne : p <> hp).
  { intros ->. destruct Hh as [Hh|Hh]; rewrite (hdr_Some _ _ _ Hh) in Hl;
      rewrite ?cleaned_locked in Hl; congruence. }
  assert (Hevict : forall s1,
            p ∉ mf_free_first (mfp s1) ->
            heap s1 !! p = Some h \/ heap s1 !! p = Some (cleaned h) ->
            mf_release_loop wfuel fuel i true
              (mf_free_bhdr hp
                 (set_mfp (fun m => with_hash
                             (pmap_del (bh_bnum (hdr s1 hp)) (mf_hash m)) m) s1))
            = Some (r, s') ->
            heap s' !! p = Some h \/ heap s' !! p = Some (cleaned h)).
  { intros s1 Hfree1 Hh1 Hrest.
    apply (IH _ _ _ _ _ Hrest Hlocked); [exact Hfree1|].
    cbn. rewrite lookup_delete_ne by congruence. exact Hh1. }
  destruct (negb _); [exact (Hevict s Hfree Hh Hloop)|].
  destruct (mf_write wfuel hp s) as [[[] s1]|] eqn:Hwrite; [| |discriminate].
  - assert (H1 : (heap s1 !! p = Some h \/ heap s1 !! p = Some (cleaned h)) /\
                 p ∉ mf_free_first (mfp s1)).
    { destruct Hh as [Hh|Hh];
        destruct (mf_write_other _ _ _ _ _ _ _ Hwrite Hne Hfree Hh) as [Hp Hlist];
        (split; [|intros Hin; apply Hfree, Hlist, Hin]);
        rewrite ?cleaned_cleaned in Hp; tauto. }
    exact (Hevict s1 (proj2 H1) (proj1 H1) Hloop).
  - assert (H1 : (heap s1 !! p = Some h \/ heap s1 !! p = Some (cleaned h)) /\
                 p ∉ mf_free_first (mfp s1)).
    { destruct Hh as [Hh|Hh];
        destruct (mf_write_other _ _ _ _ _ _ _ Hwrite Hne Hfree Hh) as [Hp Hlist];
        (split; [|intros Hin; apply Hfree, Hlist, Hin]);
        rewrite ?cleaned_cleaned in Hp; tauto. }
    exact (IH _ _ _ _ _ Hloop Hlocked (proj2 H1) (proj1 H1)).
Qed.

(** X19. [mf_release_all] never releases a block that is in use.  For a
    memory file with a swap file, a header that is allocated, locked and
    not on the free list is still allocated after [mf_release_all], with
    the same number, data, page count and [BH_LOCKED] flag; all that can
    have happened to it is that its [BH_DIRTY] flag has been cleared (it
    was written to fill the file in front of another block). *)
Theorem mf_release_all_keeps_locked wfuel fuel s r s' p h :
  0 <= mf_fd (mfp s) ->
  mf_release_all wfuel fuel s = Some (r, s') ->
  heap s !! p = Some h ->
  has_flag (bh_flags h) BH_LOCKED = true ->
  p ∉ mf_free_first (mfp s) ->
  exists h',
    heap s' !! p = Some h' /\
    (h' = h \/ h' = cleaned h) /\
    bh_bnum h' = bh_bnum h /\ bh_data h' = bh_data h /\
    bh_page_count h' = bh_page_count h /\
    has_flag (bh_flags h') BH_LOCKED = true.
Proof.
  intros Hfd Hrel Hh Hlocked Hfree. unfold mf_release_all in Hrel.
  rewrite (proj2 (Z.leb_le 0 _) Hfd) in Hrel.
  destruct (mf_release_loop_keeps _ _ p h _ _ _ _ _ Hrel Hlocked Hfree (or_introl Hh))
    as [Hp|Hp]; eexists; (split; [exact Hp|]).
  - auto 10.
  - rewrite cleaned_locked. auto 10.
Qed.

Lemma mf_release_all_keeps_locked_witness :
  exists h',
    heap Demo.nosync_locked !! 1%positive = Some h' /\
    has_flag (bh_flags h') BH_LOCKED = true.
Proof.
  destruct (mf_release_all_keeps_locked 1 2 Demo.nosync_locked false
              Demo.nosync_locked 1%positive (Bhdr 0 [7; 7] 1 BH_LOCKED))
    as (h' & Hp & _ & _ & _ & _ & Hl).
  - vm_compute. intros H. discriminate H.
  - vm_compute. reflexivity.
  - reflexivity.
  - reflexivity.
  - cbn. apply not_elem_of_nil.
  - exists h'. split; [exact Hp | exact Hl].
Defined.

(** ** Which calls write to the swap file *)

Lemma mf_trans_add_quiet hp s :
  file_untouched s (snd (mf_trans_add hp s)) /\ same_file s (snd (mf_trans_add hp s)).
Proof.
  unfold file_untouched, same_file, mf_trans_add, mf_rem_free.
  split_cases; repeat split; reflexivity.
Qed.

Lemma mf_new_quiet negative page_count s :
  file_untouched s (snd (mf_new negative page_count s)) /\
  same_file s (snd (mf_new negative page_count s)).
Proof.
  unfold file_untouched, same_file, mf_new, mf_alloc_bhdr, mf_rem_free.
  split_cases; repeat split; reflexivity.
Qed.

Lemma mf_put_quiet hp dirty infile s :
  file_untouched s (mf_put hp dirty infile s) /\ same_file s (mf_put hp dirty infile s).
Proof.
  unfold mf_put.
  set (s0 := if Z.land _ _ =? 0 then _ else s).
  assert (H0 : file_untouched s s0 /\ same_file s s0)
    by (subst s0; destruct (_ =? 0); repeat split; reflexivity).
  clearbody s0.
  set (fs := if dirty then _ else _).
  assert (H1 : file_untouched s (snd fs) /\ same_file s (snd fs)).
  { subst fs. destruct dirty; [destruct (decide _)|]; exact H0. }
  destruct fs as [f s1]. cbn [snd] in H1. cbv beta iota zeta.
  destruct infile; [|exact H1].
  destruct (mf_trans_add_quiet hp (upd_hdr hp (with_flags f) s1)) as [[Ha Hb] [Hc Hd]].
  destruct H1 as [[H1a H1b] [H1c H1d]].
  unfold file_untouched, same_file in *. cbn in Ha, Hb, Hc, Hd.
  repeat split; congruence.
Qed.

Lemma mf_free_quiet hp s :
  file_untouched s (mf_free hp s) /\ same_file s (mf_free hp s).
Proof.
  unfold file_untouched, same_file, mf_free, mf_ins_free.
  destruct (_ <? 0); repeat split; reflexivity.
Qed.

Lemma mf_get_quiet nr page_count s r s' :
  mf_get nr page_count s = Some (r, s') ->
  file_untouched s s' /\ same_file s s'.
Proof.
  unfold mf_get, file_untouched, same_file.
  destruct (_ || _); [intros [= <- <-]; auto|].
  destruct (pmap_get nr (mf_hash (mfp s))) as [hp|].
  { intros [= <- <-]. cbn. auto. }
  destruct (_ || _); [intros [= <- <-]; auto|].
  destruct (negb _); [intros [= <- <-]; auto|].
  unfold mf_alloc_bhdr. cbv beta iota zeta.
  set (hp := fresh (dom (heap s))).
  set (s3 := upd_hdr hp (with_page_count page_count) _).
  destruct (mf_read hp s3) as [[[] s4]|] eqn:Hread; [| |discriminate];
    destruct (mf_read_frame _ _ _ _ Hread) as [Hm _];
    destruct (mf_read_file _ _ _ _ Hread) as [Hb Hw];
    intros [= <- <-]; cbn; rewrite Hm, Hb, Hw; subst s3; cbn; auto.
Qed.

Lemma set_dirty_fold_quiet : forall (l : list ptr) s,
  let s' := fold_left
              (fun s hp =>
                 if 0 <? bh_bnum (hdr s hp)
                 then upd_hdr hp (fun h => with_flags (Z.lor (bh_flags h) BH_DIRTY) h) s
                 else s) l s in
  file_untouched s s' /\ same_file s s'.
Proof.
  induction l as [|p l IH]; intros s; cbn [fold_left]; [repeat split|].
  set (s1 := if 0 <? bh_bnum (hdr s p) then _ else s).
  destruct (IH s1) as [[Ha Hb] [Hc Hd]]. cbv zeta.
  assert (H1 : file_untouched s s1 /\ same_file s s1)
    by (subst s1; destruct (0 <? _); repeat split; reflexivity).
  destruct H1 as [[H1a H1b] [H1c H1d]].
  unfold file_untouched, same_file in *. repeat split; congruence.
Qed.

Lemma mf_write_same_file fuel hp s r s' :
  mf_write fuel hp s = Some (r, s') -> same_file s s'.
Proof.
  unfold mf_write, same_file.
  destruct (mf_fd (mfp s) <? 0); [intros [= <- <-]; auto|].
  assert (Hloop : forall s0, same_file s s0 ->
            mf_write_loop fuel (mf_page_size (mfp s0)) hp s0 = Some (r, s') ->
            mf_fd (mfp s') = mf_fd (mfp s) /\
            mf_page_size (mfp s') = mf_page_size (mfp s)).
  { intros s0 [H0a H0b] Hl. destruct (mf_write_loop_mfp _ _ _ _ _ _ Hl) as [n ->].
    cbn. auto. }
  destruct (bh_bnum (hdr s hp) <? 0); [|apply Hloop; split; reflexivity].
  destruct (mf_trans_add_quiet hp s) as [_ Hs].
  destruct (mf_trans_add hp s) as [[] s0]; cbn [snd] in Hs.
  - apply Hloop, Hs.
  - intros [= <- <-]. exact Hs.
Qed.

Lemma mf_sync_walk_same_file fuel flags : forall l st s hp st' s',
  mf_sync_walk fuel flags l st s = Some (hp, st', s') -> same_file s s'.
Proof.
  induction l as [|q l IH]; intros st s hp st' s'; cbn [mf_sync_walk].
  - intros [= <- <- <-]. split; reflexivity.
  - destruct (_ && _ && _); [|apply IH].
    destruct (_ && negb _); [apply IH|].
    destruct (mf_write fuel q s) as [[r s1]|] eqn:Hwrite; [|discriminate].
    pose proof (mf_write_same_file _ _ _ _ _ Hwrite) as [H1a H1b].
    destruct (_ && _); [intros [= <- <- <-]; split; assumption|].
    assert (Hos : same_file s1
              (snd (if has_flag flags MFS_STOP then os_char_avail s1
                    else (false, os_breakcheck s1)))).
    { unfold os_char_avail, os_breakcheck, os_next.
      destruct (has_flag flags MFS_STOP); cbn; [|destruct (_ =? 0)];
        split; reflexivity. }
    destruct (if has_flag flags MFS_STOP then _ else _) as [stop s2].
    cbn [snd] in Hos. destruct Hos as [H2a H2b].
    destruct stop; [intros [= <- <- <-]; split; congruence|].
    destruct (got_int s2); [intros [= <- <- <-]; split; congruence|].
    intros Hrest. apply IH in Hrest as [H3a H3b]. split; congruence.
Qed.

Lemma mf_sync_same_file fuel flags s st s' :
  mf_sync fuel flags s = Some (st, s') -> same_file s s'.
Proof.
  unfold mf_sync.
  destruct (mf_fd (mfp s) <? 0); [intros [= <- <-]; split; reflexivity|].
  destruct (mf_sync_walk _ _ _ _ _) as [[[hp st1] s1]|] eqn:Hwalk; [|discriminate].
  apply mf_sync_walk_same_file in Hwalk as [Ha Hb]. cbn in Ha, Hb.
  unfold os_fsync, os_next.
  destruct (_ || _), (has_flag flags MFS_FLUSH); cbn; intros [= <- <-];
    split; cbn; assumption.
Qed.

Lemma mf_release_loop_same_file wfuel fuel : forall i retval s r s',
  mf_release_loop wfuel fuel i retval s = Some (r, s') -> same_file s s'.
Proof.
  induction fuel as [|fuel IH]; intros i retval s r s'; [discriminate|].
  cbn [mf_release_loop].
  destruct (mf_hash (mfp s) !! i) as [[k hp]|]; [|intros [= <- <-]; split; reflexivity].
  destruct (has_flag _ BH_LOCKED); [apply IH|].
  destruct (negb _).
  - intros Hrest. apply IH in Hrest. exact Hrest.
  - destruct (mf_write wfuel hp s) as [[[] s1]|] eqn:Hwrite; [| |discriminate];
      apply mf_write_same_file in Hwrite as [Ha Hb]; intros Hrest;
      apply IH in Hrest as [Hc Hd]; cbn in Hc, Hd; split; congruence.
Qed.



(** ** The messages of [mf_write] *)

Lemma mf_write_loop_msgs fuel page_size hp : forall s r s',
  mf_write_loop fuel page_size hp s = Some (r, s') ->
  match r with
  | OK => msgs s' = msgs s /\ did_swapwrite_msg s' = false
  | FAIL =>
      msgs s' = e_seek_write :: msgs s \/
      (did_swapwrite_msg s' = true /\
       (msgs s' = msgs s \/ msgs s' = e_write :: msgs s))
  end.
Proof.
  induction fuel as [|fuel IH]; intros s r s'; [discriminate|].
  cbn [mf_write_loop].
  set (nh := if mf_infile_count (mfp s) <? _ then _ else _).
  destruct nh as [nr hp2].
  pose proof (vim_lseek_spec (int64 (page_size * nr)) s) as L.
  destruct (vim_lseek _ s) as [r1 s1]. cbn [fst snd] in L.
  destruct L as (_ & _ & _ & _ & Lmsg & Ldid & _).
  destruct (negb _); [intros [= <- <-]; left; cbn; congruence|].
  set (size := uint _). set (data := match hp2 with Some _ => _ | None => _ end).
  pose proof (write_eintr_spec data size s1) as W.
  destruct (write_eintr data size s1) as [n s2]. cbn [fst snd] in W.
  destruct W as (_ & _ & Wmsg & Wdid & _).
  destruct (negb _).
  { intros [= <- <-]. right. split; [reflexivity|].
    destruct (did_swapwrite_msg s2); cbn; [left|right]; congruence. }
  set (s3 := match hp2 with Some _ => _ | None => _ end).
  set (s4 := if mf_infile_count (mfp s3) <? _ then _ else s3).
  assert (H4 : msgs s4 = msgs s /\ did_swapwrite_msg s4 = false).
  { subst s4 s3. destruct (_ <? _), hp2; cbn; split; congruence. }
  destruct H4 as [H4m H4d].
  destruct (nr =? _); [intros [= <- <-]; split; assumption|].
  intros Hrest. apply IH in Hrest. rewrite H4m in Hrest. exact Hrest.
Qed.

(** X21. [mf_write] gives at most one message, and it does not repeat the
    write error.  When it returns OK it has given no message and
    [did_swapwrite_msg] is clear.  When it returns FAIL it has given nothing
    (there is no file, or the write error has been reported before), or
    E296 for a seek error, or E297 for a write error, and after a write
    error [did_swapwrite_msg] is set.  In particular the failing write of a
    block that is not beyond the end of the file gives no message when
    [did_swapwrite_msg] was set before the call. *)
Theorem mf_write_messages fuel hp s r s' :
  mf_write fuel hp s = Some (r, s') ->
  match r with
  | OK => msgs s' = msgs s /\ did_swapwrite_msg s' = false
  | FAIL =>
      (msgs s' = msgs s /\ (mf_fd (mfp s) < 0 \/ did_swapwrite_msg s' = true)) \/
      msgs s' = e_seek_write :: msgs s \/
      (msgs s' = e_write :: msgs s /\ did_swapwrite_msg s' = true)
  end /\
  (did_swapwrite_msg s = true ->
   0 <= bh_bnum (hdr s hp) <= mf_infile_count (mfp s) ->
   msgs s' <> e_write :: msgs s).
Proof.
  unfold mf_write.
  destruct (Z.ltb_spec (mf_fd (mfp s)) 0) as [Hfd|Hfd].
  { intros [= <- <-]. split; [left; auto|].
    intros _ _ Heq. apply (f_equal (@length _)) in Heq. cbn in Heq. lia. }
  set (rs := if bh_bnum (hdr s hp) <? 0 then mf_trans_add hp s else (OK, s)).
  assert (Hrs : fst rs = OK /\ msgs (snd rs) = msgs s /\
                did_swapwrite_msg (snd rs) = did_swapwrite_msg s /\
                (0 <= bh_bnum (hdr s hp) -> snd rs = s)).
  { subst rs. destruct (Z.ltb_spec (bh_bnum (hdr s hp)) 0); cbn; [|auto].
    split; [apply mf_trans_add_OK|]. split; [apply mf_trans_add_msgs|].
    split; [|lia]. unfold mf_trans_add, mf_rem_free. split_cases; reflexivity. }
  destruct rs as [r0 s0]. cbn [fst snd] in Hrs. destruct Hrs as (-> & Hm0 & Hd0 & Hsame).
  intros Hloop. split.
  - apply mf_write_loop_msgs in Hloop. rewrite Hm0 in Hloop.
    destruct r; [exact Hloop|]. destruct Hloop as [H|[Hd [H|H]]]; auto.
  - intros Hdid [Hpos Hle]. rewrite (Hsame Hpos) in Hloop.
    destruct fuel as [|fuel]; [discriminate|]. cbn [mf_write_loop] in Hloop.
    rewrite (proj2 (Z.ltb_ge _ _) Hle) in Hloop.
    pose proof (vim_lseek_spec (int64 (mf_page_size (mfp s) * bh_bnum (hdr s hp))) s) as L.
    destruct (vim_lseek _ s) as [r1 s1]. cbn [fst snd] in L.
    destruct L as (_ & Lh & _ & _ & Lmsg & Ldid & _).
    destruct (negb _).
    { injection Hloop as _ <-. cbn. rewrite Lmsg. intros Heq. discriminate Heq. }
    match type of Hloop with
    | context [write_eintr ?d ?z s1] => pose proof (write_eintr_spec d z s1) as W
    end.
    destruct (write_eintr _ _ s1) as [n s2]. cbn [fst snd] in W.
    destruct W as (_ & Wh & Wmsg & Wdid & _).
    assert (Hlen : forall l : list string, l <> e_write :: l).
    { intros l Heq. apply (f_equal (@length _)) in Heq. cbn in Heq. lia. }
    destruct (negb _).
    { injection Hloop as _ <-. rewrite Wdid, Ldid, Hdid. cbn.
      rewrite Wmsg, Lmsg. apply Hlen. }
    rewrite hdr_if_set_mfp, bnum_upd_flags in Hloop.
    assert (Hb : bh_bnum (hdr (set_did_swapwrite_msg false s2) hp) = bh_bnum (hdr s hp)).
    { f_equal. apply hdr_same_heap. cbn. congruence. }
    rewrite Hb, Z.eqb_refl in Hloop. injection Hloop as _ <-.
    assert (Hmsg : forall (b : bool) f st, msgs (if b then set_mfp f st else st) = msgs st)
      by (intros [] ? ?; reflexivity).
    rewrite Hmsg. cbn. rewrite Wmsg, Lmsg. apply Hlen.
Qed.

Lemma mf_write_messages_witness :
  exists s',
    mf_write 3 3%positive (Demo.gap []) = Some (OK, s') /\
    msgs s' = msgs (Demo.gap []) /\ did_swapwrite_msg s' = false.
Proof.
  eexists. split; [vm_compute; reflexivity|].
  refine (proj1 (mf_write_messages 3 3%positive (Demo.gap []) OK _ _)).
  vm_compute. reflexivity.
Defined.

(** ** [mf_need_trans] *)

Lemma neg_count_of_reachable s :
  reachable s ->
  mf_neg_count (mfp s) = Z.of_nat (neg_blocks s) + Z.of_nat (trans_entries s).
Proof. intros Hs. exact (inv_count _ _ (reachable_inv s Hs)). Qed.


